(** * scrapy-playwright download handler: a shallow embedding

    The definitions below follow [scrapy_playwright/handler.py].  Python
    objects that are mutated in place (the Scrapy [Headers] of a request,
    the semaphores of the handler, the statistics collector) live in
    explicit state; calls into the browser engine, into w3lib and into the
    Python codecs are parameters of the sections that use them. *)

From Stdlib Require Import ZArith Lia.
From Stdlib Require Import Strings.Ascii Strings.String Strings.Byte.
From stdpp Require Import gmap strings list fin_maps.

Local Open Scope Z_scope.

(** ** Python values shared by the whole development *)

(** [bytes] objects. *)
Abbreviation bytes := (list Byte.byte).

(** A Python [dict] with string keys and values, as its items in insertion
    order (this is what Playwright hands over as request headers and what a
    header-processing function returns). *)
Abbreviation dict := (list (string * string)).

(** Exceptions.  [except Exception] catches the first constructor only:
    [BaseExc] stands for the classes outside the [Exception] hierarchy
    (KeyboardInterrupt, SystemExit, asyncio's CancelledError on 3.8). *)
Inductive exn : Type :=
| Exc (cls : string) (msg : string)
| BaseExc (cls : string).

Definition is_Exception (e : exn) : bool :=
  match e with Exc _ _ => true | BaseExc _ => false end.

Definition UnicodeEncodeError : exn := Exc "UnicodeEncodeError" EmptyString.
Definition UnicodeDecodeError : exn := Exc "UnicodeDecodeError" EmptyString.

(** [except UnicodeEncodeError] selects the exceptions of that class (it
    has no subclass in the standard library). *)
Definition is_UnicodeEncodeError (e : exn) : bool :=
  match e with
  | Exc cls _ => String.eqb cls "UnicodeEncodeError"
  | BaseExc _ => false
  end.

(** Python truthiness of an optional string ([None] and the empty string
    are falsy). *)
Definition truthy (o : option string) : bool :=
  match o with
  | Some s => negb (String.eqb s EmptyString)
  | None => false
  end.

(** ** scrapy.http.headers.Headers

    A case-insensitive multi-dict: names are stored normalised, each with
    the list of its values; [get] answers the last value. *)
Module Headers.

Abbreviation t := (gmap string (list string)).

Section WithNormkey.
Variable normkey : string -> string.

Definition get (h : t) (k : string) : option string :=
  match h !! normkey k with
  | Some vs => last vs
  | None => None
  end.

Definition clear (h : t) : t := ∅.

(** [headers_dict.setdefault(normkey(k), []).extend(normvalue(v))] *)
Definition extend (d : t) (kv : string * string) : t :=
  <[normkey kv.1 := default [] (d !! normkey kv.1) ++ [kv.2]]> d.

(** [Headers.update(seq)]: the items are first collected under their
    normalised names, then written over the receiver. *)
Definition update (h : t) (seq : dict) : t :=
  foldl extend ∅ seq ∪ h.

(** [Headers(seq)] *)
Definition make (seq : dict) : t := update ∅ seq.
End WithNormkey.

End Headers.

(** ** Response body encoding: [_possible_encodings] and [_encode_body] *)
Section Encoding.

(** Header name normalisation of Scrapy's [Headers]. *)
Variable normkey : string -> string.
(** [w3lib.encoding.http_content_type_encoding] *)
Variable http_content_type_encoding : string -> option string.
(** [w3lib.encoding.html_body_declared_encoding] *)
Variable html_body_declared_encoding : string -> option string.
(** [text.encode(encoding)]: the bytes, or the exception the call raises
    ([UnicodeEncodeError] when the codec cannot encode the text,
    [LookupError] when the name is unknown or is not a text encoding,
    another [UnicodeError] for a codec such as "undefined"). *)
Variable str_encode : string -> string -> exn + bytes.

(** The generator, as the list of what it yields. *)
Definition _possible_encodings (headers : Headers.t) (text : string)
  : list (option string) :=
  (if truthy (Headers.get normkey headers "content-type")
   then match Headers.get normkey headers "content-type" with
        | Some content_type => [http_content_type_encoding content_type]
        | None => []
        end
   else [])
  ++ [html_body_declared_encoding text].

(** [filter(None, ...)] *)
Definition filter_None (l : list (option string)) : list string :=
  omap (fun o => if truthy o then o else None) l.

(** The [for] loop of [_encode_body] over the remaining candidates:
    [None] when the loop ends without a [return].  The [try] catches
    [UnicodeEncodeError] only; any other exception of [text.encode]
    leaves the function. *)
Fixpoint encode_loop (text : string) (encodings : list string)
  : option (exn + bytes * string) :=
  match encodings with
  | [] => None
  | encoding :: rest =>
      match str_encode text encoding with
      | inr body => Some (inr (body, encoding))
      | inl e =>
          if is_UnicodeEncodeError e then encode_loop text rest
          else Some (inl e)
      end
  end.

(** The fallback after the loop is outside every [try]. *)
Definition _encode_body (headers : Headers.t) (text : string)
  : exn + (bytes * string) :=
  match encode_loop text (filter_None (_possible_encodings headers text)) with
  | Some r => r
  | None =>
      match str_encode text "utf-8" with
      | inr body => inr (body, "utf-8")
      | inl e => inl e
      end
  end.

End Encoding.

(** ** The statistics collector: [stats.inc_value(key)] *)
Definition inc_value (key : string) (stats : gmap string Z) : gmap string Z :=
  <[key := default 0 (stats !! key) + 1]> stats.

Definition get_value (key : string) (stats : gmap string Z) : option Z :=
  stats !! key.

(** ** Request interception: [_make_request_handler] *)
Module Interceptor.

(** [playwright.async_api.Request], as far as the handler reads it. *)
Record PlaywrightRequest := {
  pr_url : string;
  pr_method : string;
  pr_resource_type : string;
  pr_headers : dict;
  is_navigation_request : bool
}.

(** The keyword arguments of [route.continue_]. *)
Record Overrides := {
  ov_headers : dict;
  ov_method : option string;
  ov_post_data : option string
}.

(** What was called on the [Route] of an intercepted request. *)
Inductive RouteCall :=
| abort
| continue_ (overrides : Overrides).

(** The attributes of the download handler the closure reads. *)
Record Settings := {
  browser_type : string;
  abort_request : option (PlaywrightRequest -> bool);
  process_request_headers : string -> PlaywrightRequest -> Headers.t -> dict
}.

(** The objects the closure can change: the statistics, the [Headers]
    objects of the Scrapy requests (addressed by reference, the request
    and the closure hold the same one) and the calls received by the
    route. *)
Record State := {
  stats : gmap string Z;
  heap : gmap nat Headers.t;
  route_calls : list RouteCall
}.

Section Closure.
Variable normkey : string -> string.
(** [body.decode(encoding)]; [None] is a raised [UnicodeDecodeError]. *)
Variable bytes_decode : bytes -> string -> option string.
Variable self : Settings.

(** The closure returned by [_make_request_handler(method,
    scrapy_headers, body, encoding)], applied to a route and the
    intercepted request.  The awaited calls [route.abort()],
    [route.continue_()] and [process_request_headers] are taken to
    return; the only exception of the model is the one [body.decode]
    raises. *)
Definition _request_handler
    (method : string) (scrapy_headers : nat) (body : option bytes)
    (encoding : string)
    (playwright_request : PlaywrightRequest) (st : State)
  : (exn + unit) * State :=
  if match abort_request self with
     | Some pred => pred playwright_request
     | None => false
     end
  then
    (inr tt,
     {| stats := inc_value "playwright/request_count/aborted" (stats st);
        heap := heap st;
        route_calls := route_calls st ++ [abort] |})
  else
    let processed_headers :=
      process_request_headers self (browser_type self) playwright_request
        (default ∅ (heap st !! scrapy_headers)) in
    (* scrapy_headers.clear(); scrapy_headers.update(processed_headers) *)
    let heap' :=
      <[scrapy_headers :=
          Headers.update normkey
            (Headers.clear (default ∅ (heap st !! scrapy_headers)))
            processed_headers]> (heap st) in
    let st' := {| stats := stats st; heap := heap';
                  route_calls := route_calls st |} in
    let overrides := {| ov_headers := processed_headers;
                        ov_method := None; ov_post_data := None |} in
    if is_navigation_request playwright_request then
      let overrides := {| ov_headers := ov_headers overrides;
                          ov_method := Some method;
                          ov_post_data := ov_post_data overrides |} in
      match body with
      | Some b =>
          match bytes_decode b encoding with
          | Some post_data =>
              let overrides := {| ov_headers := ov_headers overrides;
                                  ov_method := ov_method overrides;
                                  ov_post_data := Some post_data |} in
              (inr tt,
               {| stats := stats st'; heap := heap st';
                  route_calls := route_calls st' ++ [continue_ overrides] |})
          | None => (inl UnicodeDecodeError, st')
          end
      | None =>
          (inr tt,
           {| stats := stats st'; heap := heap st';
              route_calls := route_calls st' ++ [continue_ overrides] |})
      end
    else
      (inr tt,
       {| stats := stats st'; heap := heap st';
          route_calls := route_calls st' ++ [continue_ overrides] |}).
End Closure.

(** Whether the abort predicate, if one is configured, selects the
    request. *)
Definition aborts (self : Settings) (playwright_request : PlaywrightRequest) : bool :=
  match abort_request self with
  | Some pred => pred playwright_request
  | None => false
  end.

End Interceptor.

(** ** The handler, its sessions and the pages of the browser *)
Module Handler.

(** The functions the handler registers with [page.on] and
    [context.on]; a closure is written with the values it captured. *)
Inductive Callback :=
| close_page_callback (context_name : string)
| close_browser_context_callback (name : string)
| _log_request (context_name : string)
| _log_response (context_name : string)
| _increment_request_stats
| _increment_response_stats
| caller_handler (name : string).

(** What [_make_request_handler] captured, as installed by
    [page.route]. *)
Record RequestHandler := {
  rh_method : string;
  rh_scrapy_headers : nat;
  rh_body : option bytes;
  rh_encoding : string
}.

(** A [Page] of the browser. *)
Record Page := {
  page_context : nat;
  page_closed : bool;
  page_listeners : list (string * Callback);
  page_routes : list (string * RequestHandler);
  page_navigation_timeout : option Z
}.

(** A [BrowserContext] of the browser. *)
Record BrowserContext := {
  ctx_listeners : list (string * Callback);
  ctx_navigation_timeout : option Z
}.

Inductive LogRecord :=
| warn_no_method (pm : nat)
| warn_not_page_method (repr : string)
| warn_no_handler (handler : string) (event : string)
| warn_deprecated_coroutines.

(** The handler ([self]) together with the objects it refers to:
    [semaphores] holds the [_value] of every [asyncio.Semaphore] made so
    far, [browser_contexts] and [pages] the objects of the browser; the
    two dicts of the handler map session names to these objects. *)
Record State := {
  max_pages_per_context : Z;
  default_navigation_timeout : option Z;
  contexts : gmap string nat;
  context_semaphores : gmap string nat;
  stats : gmap string Z;
  semaphores : list Z;
  browser_contexts : list BrowserContext;
  pages : list Page;
  log : list LogRecord
}.

Definition set_contexts (f : gmap string nat -> gmap string nat) (st : State) :=
  {| max_pages_per_context := max_pages_per_context st;
     default_navigation_timeout := default_navigation_timeout st;
     contexts := f (contexts st);
     context_semaphores := context_semaphores st;
     stats := stats st; semaphores := semaphores st;
     browser_contexts := browser_contexts st;
     pages := pages st; log := log st |}.

Definition set_context_semaphores
    (f : gmap string nat -> gmap string nat) (st : State) :=
  {| max_pages_per_context := max_pages_per_context st;
     default_navigation_timeout := default_navigation_timeout st;
     contexts := contexts st;
     context_semaphores := f (context_semaphores st);
     stats := stats st; semaphores := semaphores st;
     browser_contexts := browser_contexts st;
     pages := pages st; log := log st |}.

Definition set_stats (f : gmap string Z -> gmap string Z) (st : State) :=
  {| max_pages_per_context := max_pages_per_context st;
     default_navigation_timeout := default_navigation_timeout st;
     contexts := contexts st;
     context_semaphores := context_semaphores st;
     stats := f (stats st); semaphores := semaphores st;
     browser_contexts := browser_contexts st;
     pages := pages st; log := log st |}.

Definition set_semaphores (f : list Z -> list Z) (st : State) :=
  {| max_pages_per_context := max_pages_per_context st;
     default_navigation_timeout := default_navigation_timeout st;
     contexts := contexts st;
     context_semaphores := context_semaphores st;
     stats := stats st; semaphores := f (semaphores st);
     browser_contexts := browser_contexts st;
     pages := pages st; log := log st |}.

Definition set_browser_contexts
    (f : list BrowserContext -> list BrowserContext) (st : State) :=
  {| max_pages_per_context := max_pages_per_context st;
     default_navigation_timeout := default_navigation_timeout st;
     contexts := contexts st;
     context_semaphores := context_semaphores st;
     stats := stats st; semaphores := semaphores st;
     browser_contexts := f (browser_contexts st);
     pages := pages st; log := log st |}.

Definition set_pages (f : list Page -> list Page) (st : State) :=
  {| max_pages_per_context := max_pages_per_context st;
     default_navigation_timeout := default_navigation_timeout st;
     contexts := contexts st;
     context_semaphores := context_semaphores st;
     stats := stats st; semaphores := semaphores st;
     browser_contexts := browser_contexts st;
     pages := f (pages st); log := log st |}.

Definition set_log (f : list LogRecord -> list LogRecord) (st : State) :=
  {| max_pages_per_context := max_pages_per_context st;
     default_navigation_timeout := default_navigation_timeout st;
     contexts := contexts st;
     context_semaphores := context_semaphores st;
     stats := stats st; semaphores := semaphores st;
     browser_contexts := browser_contexts st;
     pages := pages st; log := f (log st) |}.

Definition set_page (f : Page -> Page) (page : nat) (st : State) :=
  set_pages (alter f page) st.

(** *** asyncio.Semaphore *)

Definition sem_value (sem : nat) (st : State) : Z :=
  default 0 (semaphores st !! sem).

(** [Semaphore(value=...)]: a new object.  The constructor raises
    ValueError for a negative value; the statements below that make a
    semaphore are about handlers whose [max_pages_per_context] is not
    negative. *)
Definition new_semaphore (value : Z) (st : State) : nat * State :=
  (length (semaphores st), set_semaphores (fun l => l ++ [value]) st).

(** [release()]: the value goes up by one, whatever it was. *)
Definition release (sem : nat) (st : State) : State :=
  set_semaphores (alter (fun v => v + 1) sem) st.

(** [acquire()] can return only while the value is positive; it then
    takes one unit. *)
Definition locked (sem : nat) (st : State) : bool :=
  bool_decide (sem_value sem st <= 0).

Definition take_unit (sem : nat) (st : State) : State :=
  set_semaphores (alter (fun v => v - 1) sem) st.

(** *** Callbacks and events *)

Definition run_callback (cb : Callback) (st : State) : State :=
  match cb with
  | close_page_callback context_name =>
      match context_semaphores st !! context_name with
      | Some sem => release sem st
      | None => st
      end
  | close_browser_context_callback name =>
      set_context_semaphores (delete name) (set_contexts (delete name) st)
  | _ => st
  end.

(** Emitting [event] runs the listeners registered for it, in the order
    of registration. *)
Definition emit (listeners : list (string * Callback)) (event : string)
    (st : State) : State :=
  foldl (fun s l => if String.eqb l.1 event then run_callback l.2 s else s)
        st listeners.

Definition page_on (event : string) (cb : Callback) (p : Page) : Page :=
  {| page_context := page_context p; page_closed := page_closed p;
     page_listeners := page_listeners p ++ [(event, cb)];
     page_routes := page_routes p;
     page_navigation_timeout := page_navigation_timeout p |}.

Definition mark_closed (p : Page) : Page :=
  {| page_context := page_context p; page_closed := true;
     page_listeners := page_listeners p;
     page_routes := page_routes p;
     page_navigation_timeout := page_navigation_timeout p |}.

Definition is_closed (page : nat) (st : State) : bool :=
  match pages st !! page with
  | Some p => page_closed p
  | None => true
  end.

(** The page goes away (after [page.close()], or closed by the engine):
    it is closed from then on and its "close" listeners run.  Closing a
    closed page does nothing. *)
Definition page_closes (page : nat) (st : State) : State :=
  match pages st !! page with
  | Some p =>
      if page_closed p then st
      else emit (page_listeners p) "close" (set_page mark_closed page st)
  | None => st
  end.

(** The engine reports a crash of the page: its "crash" listeners run.
    The page object is not closed by this. *)
Definition page_crashes (page : nat) (st : State) : State :=
  match pages st !! page with
  | Some p =>
      if page_closed p then st
      else emit (page_listeners p) "crash" st
  | None => st
  end.

(** The engine reports that a context was closed. *)
Definition context_closes (context : nat) (st : State) : State :=
  match browser_contexts st !! context with
  | Some c => emit (ctx_listeners c) "close" st
  | None => st
  end.

(** [len(context.pages)] *)
Definition context_pages (context : nat) (st : State) : Z :=
  Z.of_nat (length (filter (fun p => page_context p = context
                                     /\ page_closed p = false) (pages st))).

Definition _get_total_page_count (st : State) : Z * State :=
  let count :=
    foldr Z.add 0 ((fun kc => context_pages kc.2 st) <$> map_to_list (contexts st)) in
  let current_max_count := get_value "playwright/page_count/max_concurrent" (stats st) in
  (count,
   if match current_max_count with
      | None => true
      | Some m => bool_decide (count > m)
      end
   then set_stats (insert "playwright/page_count/max_concurrent" count) st
   else st).

(** *** Sessions and tabs: [_create_browser_context], [_create_page]

      [_create_page] is a coroutine: it gives control back at
      [await self._create_browser_context(...)], inside [acquire()] while
      the semaphore has no unit left, and at [await context.new_page()].
      A running call is described by the place where it is suspended;
      what it does between two such places is one function below. *)

Inductive CreatePage :=
| at_new_context (context_name : string)
| at_acquire (context_name : string) (context : nat) (sem : nat)
| at_new_page (context_name : string) (context : nat)
| returned (page : nat)
| raised (e : exn).

(** The part of [_create_browser_context] that follows
    [await self.browser.new_context(...)]. *)
Definition _create_browser_context (name : string) (st : State) : nat * State :=
  let context := length (browser_contexts st) in
  let st := set_browser_contexts
              (fun l => l ++ [{| ctx_listeners :=
                                    [("close", close_browser_context_callback name)];
                                  ctx_navigation_timeout :=
                                    default_navigation_timeout st |}]) st in
  let st := set_stats (inc_value "playwright/context_count") st in
  (context, st).

(** [await self.context_semaphores[context_name].acquire()], up to the
    call of [context.new_page()]. *)
Definition acquire (context_name : string) (context : nat) (st : State)
  : CreatePage * State :=
  match context_semaphores st !! context_name with
  | None => (raised (Exc "KeyError" context_name), st)
  | Some sem =>
      if locked sem st then (at_acquire context_name context sem, st)
      else (at_new_page context_name context, take_unit sem st)
  end.

(** From the call to the first suspension. *)
Definition begin (context_name : string) (st : State) : CreatePage * State :=
  match contexts st !! context_name with
  | None => (at_new_context context_name, st)
  | Some context => acquire context_name context st
  end.

(** The registrations that follow [await context.new_page()]. *)
Definition new_page (context_name : string) (context : nat) (st : State)
  : nat * State :=
  let page := length (pages st) in
  let st := set_pages
              (fun l => l ++ [{| page_context := context; page_closed := false;
                                 page_listeners := []; page_routes := [];
                                 page_navigation_timeout := None |}]) st in
  let st := set_stats (inc_value "playwright/page_count") st in
  let st := (_get_total_page_count st).2 in
  let st :=
    match default_navigation_timeout st with
    | Some timeout =>
        set_page (fun p => {| page_context := page_context p;
                              page_closed := page_closed p;
                              page_listeners := page_listeners p;
                              page_routes := page_routes p;
                              page_navigation_timeout := Some timeout |}) page st
    | None => st
    end in
  let st := set_page (page_on "close" (close_page_callback context_name)) page st in
  let st := set_page (page_on "crash" (close_page_callback context_name)) page st in
  let st := set_page (page_on "request" (_log_request context_name)) page st in
  let st := set_page (page_on "response" (_log_response context_name)) page st in
  let st := set_page (page_on "request" _increment_request_stats) page st in
  let st := set_page (page_on "response" _increment_response_stats) page st in
  (page, st).

(** One resumption of a suspended call.  [None]: the call cannot go on
    yet (the semaphore is still locked) or has ended.  [engine_error]
    is the exception raised by the engine call the task was waiting
    for ([browser.new_context] or [context.new_page]), if it raises. *)
Definition resume (engine_error : option exn) (k : CreatePage) (st : State)
  : option (CreatePage * State) :=
  match k with
  | at_new_context context_name =>
      match engine_error with
      | Some e => Some (raised e, st)
      | None =>
          let '(context, st) := _create_browser_context context_name st in
          let st := set_contexts (insert context_name context) st in
          let '(sem, st) := new_semaphore (max_pages_per_context st) st in
          let st := set_context_semaphores (insert context_name sem) st in
          Some (acquire context_name context st)
      end
  | at_acquire context_name context sem =>
      if locked sem st then None
      else Some (at_new_page context_name context, take_unit sem st)
  | at_new_page context_name context =>
      match engine_error with
      | Some e => Some (raised e, st)
      | None =>
          let '(page, st) := new_page context_name context st in
          Some (returned page, st)
      end
  | returned _ | raised _ => None
  end.

(** *** Concurrent fetches

    The fetches run as tasks of one event loop; between two suspensions
    a task runs alone.  A system is the shared state with the
    [_create_page] calls in flight; its steps are the start of a call,
    the resumption of a suspended one, and the events of the engine. *)
Record System := {
  sys_state : State;
  sys_tasks : list CreatePage
}.

Inductive Event :=
| ev_create_page (context_name : string)
| ev_resume (task : nat) (engine_error : option exn)
| ev_page_close (page : nat)
| ev_page_crash (page : nat)
| ev_context_close (context : nat).

Definition step (s : System) (ev : Event) : option System :=
  match ev with
  | ev_create_page context_name =>
      let '(k, st) := begin context_name (sys_state s) in
      Some {| sys_state := st; sys_tasks := sys_tasks s ++ [k] |}
  | ev_resume task err =>
      k ← sys_tasks s !! task;
      '(k', st) ← resume err k (sys_state s);
      Some {| sys_state := st; sys_tasks := <[task := k']> (sys_tasks s) |}
  | ev_page_close page =>
      if is_closed page (sys_state s) then None
      else Some {| sys_state := page_closes page (sys_state s);
                   sys_tasks := sys_tasks s |}
  | ev_page_crash page =>
      if is_closed page (sys_state s) then None
      else Some {| sys_state := page_crashes page (sys_state s);
                   sys_tasks := sys_tasks s |}
  | ev_context_close context =>
      Some {| sys_state := context_closes context (sys_state s);
              sys_tasks := sys_tasks s |}
  end.

Fixpoint run (s : System) (evs : list Event) : option System :=
  match evs with
  | [] => Some s
  | ev :: evs => s' ← step s ev; run s' evs
  end.

(** The handler after [_launch_browser] with no session declared in the
    settings. *)
Definition launched (cap : Z) : System :=
  {| sys_state :=
       {| max_pages_per_context := cap; default_navigation_timeout := None;
          contexts := ∅; context_semaphores := ∅; stats := ∅;
          semaphores := []; browser_contexts := []; pages := []; log := [] |};
     sys_tasks := [] |}.

(** The "close" listeners of the open page [page] amount to one release
    of the semaphore [sem], as long as [sem] is the semaphore of the
    session [name]. *)
Definition close_releases (name : string) (page sem : nat) (st : State) : Prop :=
  exists p,
    pages st !! page = Some p
    /\ page_closed p = false
    /\ forall st', context_semaphores st' !! name = Some sem ->
                   emit (page_listeners p) "close" st' = release sem st'.

(** The state without its log and its statistics: two states with the
    same [frame] have the same sessions, semaphores and pages. *)
Definition frame (st : State) : State :=
  set_log (fun _ => []) (set_stats (fun _ => ∅) st).

(** Two fetches ask for the session "default" before it exists, each
    creates it and opens its page; the first page is closed; a third
    fetch opens a page. *)
Definition lazy_session_race : list Event :=
  [ev_create_page "default"; ev_create_page "default";
   ev_resume 0 None; ev_resume 0 None;
   ev_resume 1 None; ev_resume 1 None;
   ev_page_close 0;
   ev_create_page "default"; ev_resume 2 None].

End Handler.

(** ** One fetch: [_download_request] and what it calls

    The fetch is followed through its own awaits, each answered by the
    engine; no other task and no event of the browser (a close, a crash)
    runs in between.  What interleavings do to the sessions and their
    semaphores is the matter of [Handler.step]. *)
Module Fetch.
Import Handler.

(** Python values passed to and returned by scripted actions. *)
Inductive Value :=
| VNone
| VBool (b : bool)
| VInt (z : Z)
| VStr (s : string).

(** Modelled from the spec: the [PageMethod] class of
    scrapy_playwright/page.py, which is not among the sources ("a named
    action with positional/keyword arguments and a result slot filled
    after execution").  [result] is [None] until the action has run. *)
Record PageMethod := {
  method : string;
  args : list Value;
  kwargs : list (string * Value);
  result : option Value
}.

#[export] Instance PageMethod_inhabited : Inhabited PageMethod :=
  populate {| method := EmptyString; args := []; kwargs := []; result := None |}.

Definition set_result (v : Value) (pm : PageMethod) : PageMethod :=
  {| method := method pm; args := args pm; kwargs := kwargs pm;
     result := Some v |}.

(** An element of [playwright_page_methods]: a reference to a
    [PageMethod] object, or anything else (with its [repr]). *)
Inductive Item :=
| page_method (pm : nat)
| not_page_method (repr : string).

(** The value of [playwright_page_methods]: a sequence, or a dict (its
    items in insertion order). *)
Inductive PageMethods :=
| pm_seq (l : list Item)
| pm_dict (d : list (string * Item)).

Inductive EventHandler :=
| handler_callable (name : string)
| handler_str (attr : string)
| handler_other.

(** The keys of [request.meta] the handler reads or writes; an absent
    key is [None] (or [false], or the empty dict). *)
Record Meta := {
  playwright_context : option string;
  playwright_page : option nat;
  playwright_page_event_handlers : list (string * EventHandler);
  playwright_page_methods : option PageMethods;
  playwright_page_coroutines : option PageMethods;
  playwright_include_page : bool;
  download_latency : option Z;
  playwright_security_details : option Value
}.

Record Request := {
  req_url : string;
  req_method : string;
  req_headers : nat;
  req_body : bytes;
  req_encoding : string
}.

Record Spider := {
  spider_name : string;
  spider_attrs : list string
}.

(** [playwright.async_api.Response]: [server_addr()] and
    [security_details()] answer or raise. *)
Record PlaywrightResponse := {
  r_status : Z;
  r_headers : dict;
  r_server_addr : exn + option dict;
  r_security_details : exn + Value
}.

(** The answers of the browser engine during one fetch: every awaited
    call returns or raises.  Clock readings are ticks. *)
Record Engine := {
  browser_new_context : option exn;
  context_new_page : option exn;
  page_unroute : option exn;
  page_route : option exn;
  page_goto : string -> exn + option PlaywrightResponse;
  page_getattr :
    string -> option (nat -> list Value -> list (string * Value) -> exn + Value);
  page_wait_for_load_state : nat -> option Z -> option exn;
  page_content : exn + string;
  page_close : option exn;
  page_url : string;
  time : Z * Z
}.

(** The library functions the handler calls. *)
Record Libs := {
  normkey : string -> string;
  http_content_type_encoding : string -> option string;
  html_body_declared_encoding : string -> option string;
  str_encode : string -> string -> exn + bytes;
  ip_address : string -> option string;
  from_args : Headers.t -> string -> bytes -> string
}.

Record Response := {
  resp_class : string;
  resp_url : string;
  resp_status : Z;
  resp_headers : Headers.t;
  resp_body : bytes;
  resp_flags : list string;
  resp_encoding : string;
  resp_ip_address : option string
}.

(** What a fetch works on: the handler with the browser objects, the
    [meta] dict of its request and the [PageMethod] objects. *)
Record Store := {
  handler : Handler.State;
  meta : Meta;
  page_method_objs : list PageMethod
}.

Definition on_handler (f : Handler.State -> Handler.State) (s : Store) : Store :=
  {| handler := f (handler s); meta := meta s;
     page_method_objs := page_method_objs s |}.

Definition on_meta (f : Meta -> Meta) (s : Store) : Store :=
  {| handler := handler s; meta := f (meta s);
     page_method_objs := page_method_objs s |}.

Definition on_objs (f : list PageMethod -> list PageMethod) (s : Store) : Store :=
  {| handler := handler s; meta := meta s;
     page_method_objs := f (page_method_objs s) |}.

(** *** A coroutine of the fetch: state, exceptions, and the wait on a
    locked semaphore that no step of this fetch can end. *)
Inductive Outcome (A : Type) :=
| Ret (a : A)
| Raise (e : exn)
| Blocked.
Arguments Ret {A} a.
Arguments Raise {A} e.
Arguments Blocked {A}.

Definition M (A : Type) := Store -> Outcome A * Store.

Definition ret {A} (a : A) : M A := fun s => (Ret a, s).
Definition raise {A} (e : exn) : M A := fun s => (Raise e, s).
Definition bind {A B} (m : M A) (k : A -> M B) : M B :=
  fun s =>
    match m s with
    | (Ret a, s') => k a s'
    | (Raise e, s') => (Raise e, s')
    | (Blocked, s') => (Blocked, s')
    end.
Definition modify (f : Store -> Store) : M unit := fun s => (Ret tt, f s).
Definition gets {A} (f : Store -> A) : M A := fun s => (Ret (f s), s).
(** An awaited engine call that returns nothing. *)
Definition await (r : option exn) : M unit :=
  match r with Some e => raise e | None => ret tt end.
(** An awaited engine call with a result. *)
Definition await_value {A} (r : exn + A) : M A :=
  match r with inl e => raise e | inr a => ret a end.

(** [try: m  except ...: h] with a handler that receives the exception
    when [catches] selects it. *)
Definition try_except {A} (m : M A) (catches : exn -> bool) (h : exn -> M A) : M A :=
  fun s =>
    match m s with
    | (Raise e, s') => if catches e then h e s' else (Raise e, s')
    | r => r
    end.

Definition isinstance (classes : list string) (e : exn) : bool :=
  match e with
  | Exc cls _ => bool_decide (cls ∈ classes)
  | BaseExc _ => false
  end.

(** [with suppress(classes): m] *)
Definition suppress (classes : list string) (m : M unit) : M unit :=
  try_except m (isinstance classes) (fun _ => ret tt).

Notation "x <- m ;; k" := (bind m (fun x => k))
    (at level 100, m at next level, right associativity).
Notation "m >> k" := (bind m (fun _ => k))
  (at level 100, right associativity).

Definition set_playwright_context (v : option string) (m : Meta) : Meta :=
  {| playwright_context := v;
     playwright_page := playwright_page m;
     playwright_page_event_handlers := playwright_page_event_handlers m;
     playwright_page_methods := playwright_page_methods m;
     playwright_page_coroutines := playwright_page_coroutines m;
     playwright_include_page := playwright_include_page m;
     download_latency := download_latency m;
     playwright_security_details := playwright_security_details m |}.

Definition set_playwright_page (v : option nat) (m : Meta) : Meta :=
  {| playwright_context := playwright_context m;
     playwright_page := v;
     playwright_page_event_handlers := playwright_page_event_handlers m;
     playwright_page_methods := playwright_page_methods m;
     playwright_page_coroutines := playwright_page_coroutines m;
     playwright_include_page := playwright_include_page m;
     download_latency := download_latency m;
     playwright_security_details := playwright_security_details m |}.

Definition set_download_latency (v : option Z) (m : Meta) : Meta :=
  {| playwright_context := playwright_context m;
     playwright_page := playwright_page m;
     playwright_page_event_handlers := playwright_page_event_handlers m;
     playwright_page_methods := playwright_page_methods m;
     playwright_page_coroutines := playwright_page_coroutines m;
     playwright_include_page := playwright_include_page m;
     download_latency := v;
     playwright_security_details := playwright_security_details m |}.

Definition set_playwright_security_details (v : option Value) (m : Meta) : Meta :=
  {| playwright_context := playwright_context m;
     playwright_page := playwright_page m;
     playwright_page_event_handlers := playwright_page_event_handlers m;
     playwright_page_methods := playwright_page_methods m;
     playwright_page_coroutines := playwright_page_coroutines m;
     playwright_include_page := playwright_include_page m;
     download_latency := download_latency m;
     playwright_security_details := v |}.

Definition warning (r : LogRecord) : M unit :=
  modify (on_handler (set_log (fun l => l ++ [r]))).

(** [d[key]] on a Python dict. *)
Definition dict_get (key : string) (d : dict) : option string :=
  snd <$> List.find (fun kv => String.eqb kv.1 key) d.

(** Truthiness of the value of [playwright_page_methods]. *)
Definition pm_truthy (o : option PageMethods) : bool :=
  match o with
  | Some (pm_seq (_ :: _)) | Some (pm_dict (_ :: _)) => true
  | _ => false
  end.

Definition set_routes (f : list (string * RequestHandler) -> list (string * RequestHandler))
    (p : Page) : Page :=
  {| page_context := page_context p; page_closed := page_closed p;
     page_listeners := page_listeners p;
     page_routes := f (page_routes p);
     page_navigation_timeout := page_navigation_timeout p |}.

(** The iterable the loop of [_apply_page_methods] goes through. *)
Definition pm_values (page_methods : PageMethods) : list Item :=
  match page_methods with
  | pm_dict d => d.*2
  | pm_seq l => l
  end.

Section Pipeline.
Variable libs : Libs.
Variable eng : Engine.

(** [await page.close()] *)
Definition close_page (page : nat) : M unit :=
  await (page_close eng) >> modify (on_handler (page_closes page)).

(** [_create_page] run by a fetch on its own: the call goes from one
    suspension to the next as the engine answers; it stays suspended
    when it reaches a locked semaphore. *)
Fixpoint drive (fuel : nat) (k : CreatePage) (st : Handler.State)
  : Outcome nat * Handler.State :=
  match k with
  | returned page => (Ret page, st)
  | raised e => (Raise e, st)
  | _ =>
      match fuel with
      | O => (Blocked, st)
      | S fuel =>
          match resume (match k with
                        | at_new_context _ => browser_new_context eng
                        | _ => context_new_page eng
                        end) k st with
          | None => (Blocked, st)
          | Some (k', st') => drive fuel k' st'
          end
      end
  end.

Definition _create_page : M nat :=
  fun s =>
    (* request.meta.setdefault("playwright_context", "default") *)
    let context_name := default "default" (playwright_context (meta s)) in
    let s := on_meta (set_playwright_context (Some context_name)) s in
    let '(k, st) := begin context_name (handler s) in
    let '(o, st) := drive 3 k st in
    (o, on_handler (fun _ => st) s).

Definition attach_event_handler (spider : Spider) (page : nat)
    (eh : string * EventHandler) : M unit :=
  match eh.2 with
  | handler_callable name =>
      modify (on_handler (set_page (page_on eh.1 (caller_handler name)) page))
  | handler_str attr =>
      if bool_decide (attr ∈ spider_attrs spider)
      then modify (on_handler (set_page (page_on eh.1 (caller_handler attr)) page))
      else warning (warn_no_handler attr eh.1)
  | handler_other => ret tt
  end.

Fixpoint attach_event_handlers (spider : Spider) (page : nat)
    (l : list (string * EventHandler)) : M unit :=
  match l with
  | [] => ret tt
  | eh :: l =>
      attach_event_handler spider page eh >> attach_event_handlers spider page l
  end.

(** The body of the loop of [_apply_page_methods], for the [i]-th
    element. *)
Definition run_page_method (page : nat) (i : nat) (item : Item) : M unit :=
  match item with
  | page_method l =>
      pm <- gets (fun s => page_method_objs s !!! l) ;;
      match page_getattr eng (method pm) with
      | None => warning (warn_no_method l)
      | Some f =>
          result <- await_value (f i (args pm) (kwargs pm)) ;;
          modify (on_objs (alter (set_result result) l)) >>
          (timeout <- gets (fun s => default_navigation_timeout (handler s)) ;;
           await (page_wait_for_load_state eng i timeout))
      end
  | not_page_method r => warning (warn_not_page_method r)
  end.

Fixpoint run_page_methods (page : nat) (i : nat) (items : list Item) : M unit :=
  match items with
  | [] => ret tt
  | pm :: items =>
      run_page_method page i pm >> run_page_methods page (S i) items
  end.

Definition _apply_page_methods (page : nat) : M unit :=
  m <- gets meta ;;
  page_methods <-
    (if pm_truthy (playwright_page_methods m)
     then ret (default (pm_seq []) (playwright_page_methods m))
     else match playwright_page_coroutines m with
          | Some coroutines => warning warn_deprecated_coroutines >> ret coroutines
          | None => ret (pm_seq [])
          end) ;;
  (* if isinstance(page_methods, dict): page_methods = page_methods.values() *)
  run_page_methods page 0 (pm_values page_methods).

(** Lines 242 to 246 of [_download_request_with_page]: the page is handed
    to the caller, or closed. *)
Definition keep_or_close (page : nat) : M unit :=
  include_page <- gets (fun s => playwright_include_page (meta s)) ;;
  if include_page : bool
  then modify (on_meta (set_playwright_page (Some page)))
  else close_page page >>
       modify (on_handler (set_stats (inc_value "playwright/page_count/closed"))).

(** Lines 248 to 251: the address of the server, when it can be had. *)
Definition server_ip (response : option PlaywrightResponse) : M (option string) :=
  try_except
    (server_addr <-
       match response with
       | None => raise (Exc "AttributeError" "server_addr")
       | Some r => await_value (r_server_addr r)
       end ;;
     match server_addr with
     | None => raise (Exc "TypeError" "not subscriptable")
     | Some d =>
         match dict_get "ipAddress" d with
         | None => raise (Exc "KeyError" "ipAddress")
         | Some a =>
             match ip_address libs a with
             | None => raise (Exc "ValueError" a)
             | Some ip => ret (Some ip)
             end
         end
     end)
    (isinstance ["AttributeError"; "KeyError"; "ValueError"])
    (fun _ => ret None).

(** Lines 253 and 254. *)
Definition security (response : option PlaywrightResponse) : M unit :=
  suppress ["AttributeError"]
    (match response with
     | None => raise (Exc "AttributeError" "security_details")
     | Some r =>
         details <- await_value (r_security_details r) ;;
         modify (on_meta (set_playwright_security_details (Some details)))
     end).

(** Lines 256 to 269: the response object. *)
Definition respcls (response : option PlaywrightResponse) (body_str : string)
    (server_ip_address : option string) : M Response :=
  match response with
  | None => raise (Exc "AttributeError" "headers")
  | Some r =>
      let headers := Headers.make (normkey libs) (r_headers r) in
      let headers := delete (normkey libs "Content-Encoding") headers in
      match _encode_body (normkey libs) (http_content_type_encoding libs)
              (html_body_declared_encoding libs) (str_encode libs)
              headers body_str with
      | inl e => raise e
      | inr (body, encoding) =>
          ret {| resp_class := from_args libs headers (page_url eng) body;
                 resp_url := page_url eng;
                 resp_status := r_status r;
                 resp_headers := headers;
                 resp_body := body;
                 resp_flags := ["playwright"];
                 resp_encoding := encoding;
                 resp_ip_address := server_ip_address |}
      end
  end.

(** Lines 239 to 269, what follows the scripted actions. *)
Definition assemble (page : nat) (response : option PlaywrightResponse)
    (start_time : Z) : M Response :=
  body_str <- await_value (page_content eng) ;;
  modify (on_meta (set_download_latency (Some ((time eng).2 - start_time)))) >>
  keep_or_close page >>
  (server_ip_address <- server_ip response ;;
   security response >>
   respcls response body_str server_ip_address).

Definition _download_request_with_page (request : Request) (page : nat)
  : M Response :=
  let start_time := (time eng).1 in
  response <- await_value (page_goto eng (req_url request)) ;;
  _apply_page_methods page >>
  assemble page response start_time.

(** Lines 194 to 221 of [_download_request]: the page of the fetch, with
    the event handlers of the caller and the request handler on it. *)
Definition prepare (request : Request) (spider : Spider) : M nat :=
  page <- (p <- gets (fun s => playwright_page (meta s)) ;;
           match p with
           | Some page => ret page
           | None => _create_page
           end) ;;
  (event_handlers <- gets (fun s => playwright_page_event_handlers (meta s)) ;;
   attach_event_handlers spider page event_handlers) >>
  await (page_unroute eng) >>
  modify (on_handler
            (set_page (set_routes (filter (fun r => r.1 ≠ "**"))) page)) >>
  await (page_route eng) >>
  modify (on_handler
            (set_page (set_routes
                         (fun l => l ++ [("**",
                                          {| rh_method := req_method request;
                                             rh_scrapy_headers := req_headers request;
                                             rh_body := Some (req_body request);
                                             rh_encoding := req_encoding request |})]))
               page)) >>
  ret page.

(** The [except Exception] clause of [_download_request]. *)
Definition close_and_reraise (page : nat) (e : exn) : M Response :=
  (closed <- gets (fun s => is_closed page (handler s)) ;;
   if closed : bool then ret tt
   else close_page page >>
        modify (on_handler (set_stats (inc_value "playwright/page_count/closed")))) >>
  raise e.

Definition _download_request (request : Request) (spider : Spider)
  : M Response :=
  page <- prepare request spider ;;
  try_except (_download_request_with_page request page) is_Exception
    (close_and_reraise page).
End Pipeline.

End Fetch.

(** ** The encoding resolution order, as the specification words it

    "Encoding resolution order (first success wins): (a) charset parameter
    from the Content-Type response header; (b) encoding declared in an
    in-body meta/declaration; (c) UTF-8 fallback."  A candidate exists when
    the library names an encoding (a non-empty name), and for (a) when the
    header carries a value. *)
Section ResolutionOrder.
Variable normkey : string -> string.
Variable http_content_type_encoding : string -> option string.
Variable html_body_declared_encoding : string -> option string.
Variable str_encode : string -> string -> exn + bytes.

Definition named (o : option string) : list string :=
  match o with
  | Some name => if String.eqb name EmptyString then [] else [name]
  | None => []
  end.

Definition content_type_charset (headers : Headers.t) : list string :=
  match Headers.get normkey headers "content-type" with
  | Some content_type =>
      if String.eqb content_type EmptyString then []
      else named (http_content_type_encoding content_type)
  | None => []
  end.

Definition body_declared (text : string) : list string :=
  named (html_body_declared_encoding text).

Definition resolution_order (headers : Headers.t) (text : string) : list string :=
  content_type_charset headers ++ body_declared text ++ ["utf-8"].

(** A candidate succeeds when the text can be encoded with it. *)
Definition succeeds (text : string) (encoding : string) : Prop :=
  exists body, str_encode text encoding = inr body.

(** [chosen] is the first candidate of [order] that succeeds. *)
Definition first_success (text : string) (order : list string) (chosen : string)
  : Prop :=
  exists before after,
    order = before ++ chosen :: after
    /\ Forall (fun c => ~ succeeds text c) before
    /\ succeeds text chosen.
End ResolutionOrder.

(** ** Sample library functions, for running the definitions

    Texts are strings of code points below 256.  The codecs are those of
    CPython on such texts: UTF-8 (one or two bytes per code point), ASCII,
    cp1252 (which has no byte for the code points 128 to 159) and euc_jp
    (which writes U+00A5 as the byte of the backslash and the other code
    points above 127 it knows as two or three bytes); "base64" is a codec
    of CPython but not a text encoding; any other name is unknown here.
    The values of the two w3lib functions are given on the few inputs used
    below; w3lib resolves the label "ascii" to "cp1252". *)
Module Sample.

Definition utf8_char (c : ascii) : bytes :=
  let n := N_of_ascii c in
  if (n <? 128)%N then [byte_of_ascii c]
  else [byte_of_ascii (ascii_of_N (192 + n / 64));
        byte_of_ascii (ascii_of_N (128 + n mod 64))].

Definition utf8_encode (text : string) : bytes :=
  flat_map utf8_char (list_ascii_of_string text).

Definition is_ascii (text : string) : bool :=
  forallb (fun c => (N_of_ascii c <? 128)%N) (list_ascii_of_string text).

Definition in_cp1252 (text : string) : bool :=
  forallb (fun c => (N_of_ascii c <? 128)%N || (160 <=? N_of_ascii c)%N)
          (list_ascii_of_string text).

(** The code points from 128 to 255 that euc_jp encodes in two or three
    bytes (JIS X 0208 and, after the byte 8F, JIS X 0212). *)
Definition euc_jp_table : list (N * bytes) :=
  [(161, [x8f; xa2; xc2]); (162, [xa1; xf1]); (163, [xa1; xf2]);
   (164, [x8f; xa2; xf0]); (166, [x8f; xa2; xc3]); (167, [xa1; xf8]);
   (168, [xa1; xaf]); (169, [x8f; xa2; xed]); (170, [x8f; xa2; xec]);
   (172, [xa2; xcc]); (174, [x8f; xa2; xee]); (175, [x8f; xa2; xb4]);
   (176, [xa1; xeb]); (177, [xa1; xde]); (180, [xa1; xad]);
   (182, [xa2; xf9]); (184, [x8f; xa2; xb1]); (186, [x8f; xa2; xeb]);
   (191, [x8f; xa2; xc4]); (192, [x8f; xaa; xa2]); (193, [x8f; xaa; xa1]);
   (194, [x8f; xaa; xa4]); (195, [x8f; xaa; xaa]); (196, [x8f; xaa; xa3]);
   (197, [x8f; xaa; xa9]); (198, [x8f; xa9; xa1]); (199, [x8f; xaa; xae]);
   (200, [x8f; xaa; xb2]); (201, [x8f; xaa; xb1]); (202, [x8f; xaa; xb4]);
   (203, [x8f; xaa; xb3]); (204, [x8f; xaa; xc0]); (205, [x8f; xaa; xbf]);
   (206, [x8f; xaa; xc2]); (207, [x8f; xaa; xc1]); (209, [x8f; xaa; xd0]);
   (210, [x8f; xaa; xd2]); (211, [x8f; xaa; xd1]); (212, [x8f; xaa; xd4]);
   (213, [x8f; xaa; xd8]); (214, [x8f; xaa; xd3]); (215, [xa1; xdf]);
   (216, [x8f; xa9; xac]); (217, [x8f; xaa; xe3]); (218, [x8f; xaa; xe2]);
   (219, [x8f; xaa; xe5]); (220, [x8f; xaa; xe4]); (221, [x8f; xaa; xf2]);
   (222, [x8f; xa9; xb0]); (223, [x8f; xa9; xce]); (224, [x8f; xab; xa2]);
   (225, [x8f; xab; xa1]); (226, [x8f; xab; xa4]); (227, [x8f; xab; xaa]);
   (228, [x8f; xab; xa3]); (229, [x8f; xab; xa9]); (230, [x8f; xa9; xc1]);
   (231, [x8f; xab; xae]); (232, [x8f; xab; xb2]); (233, [x8f; xab; xb1]);
   (234, [x8f; xab; xb4]); (235, [x8f; xab; xb3]); (236, [x8f; xab; xc0]);
   (237, [x8f; xab; xbf]); (238, [x8f; xab; xc2]); (239, [x8f; xab; xc1]);
   (240, [x8f; xa9; xc3]); (241, [x8f; xab; xd0]); (242, [x8f; xab; xd2]);
   (243, [x8f; xab; xd1]); (244, [x8f; xab; xd4]); (245, [x8f; xab; xd8]);
   (246, [x8f; xab; xd3]); (247, [xa1; xe0]); (248, [x8f; xa9; xcc]);
   (249, [x8f; xab; xe3]); (250, [x8f; xab; xe2]); (251, [x8f; xab; xe5]);
   (252, [x8f; xab; xe4]); (253, [x8f; xab; xf2]); (254, [x8f; xa9; xd0]);
   (255, [x8f; xab; xf3])]%N.

Definition euc_jp_char (c : ascii) : option bytes :=
  let n := N_of_ascii c in
  if (n <? 128)%N then Some [byte_of_ascii c]
  else if (n =? 165)%N then Some [x5c]
  else snd <$> List.find (fun e => (e.1 =? n)%N) euc_jp_table.

Fixpoint euc_jp_encode (text : list ascii) : option bytes :=
  match text with
  | [] => Some []
  | c :: rest =>
      match euc_jp_char c, euc_jp_encode rest with
      | Some b, Some bs => Some (b ++ bs)
      | _, _ => None
      end
  end.

Definition not_a_text_encoding : exn :=
  Exc "LookupError" "'base64' is not a text encoding; use codecs.encode() to handle arbitrary codecs".

Definition str_encode (text : string) (encoding : string) : exn + bytes :=
  if String.eqb encoding "utf-8" then inr (utf8_encode text)
  else if String.eqb encoding "ascii"
  then if is_ascii text then inr (list_byte_of_string text)
       else inl UnicodeEncodeError
  else if String.eqb encoding "cp1252"
  then if in_cp1252 text then inr (list_byte_of_string text)
       else inl UnicodeEncodeError
  else if String.eqb encoding "euc_jp"
  then match euc_jp_encode (list_ascii_of_string text) with
       | Some b => inr b
       | None => inl UnicodeEncodeError
       end
  else if String.eqb encoding "base64" then inl not_a_text_encoding
  else inl (Exc "LookupError" ("unknown encoding: " +:+ encoding)).

Fixpoint utf8_decode (b : bytes) : option string :=
  match b with
  | [] => Some EmptyString
  | x :: rest =>
      let n := Byte.to_N x in
      if (n <? 128)%N then String (ascii_of_byte x) <$> utf8_decode rest
      else
        match rest with
        | y :: rest' =>
            let m := Byte.to_N y in
            if ((194 <=? n) && (n <=? 195) && (128 <=? m) && (m <? 192))%N
            then String (ascii_of_N ((n - 192) * 64 + (m - 128)))
                   <$> utf8_decode rest'
            else None
        | [] => None
        end
  end.

Definition euc_jp_lookup (b : bytes) : option ascii :=
  (fun e => ascii_of_N e.1)
    <$> List.find (fun e => bool_decide (Byte.to_N <$> e.2 = Byte.to_N <$> b))
          euc_jp_table.

(** The bytes below 128 are themselves; the byte 8F opens a sequence of
    three bytes, any other byte above 127 a sequence of two.  A sequence
    that stands for a code point above 255 is answered [None], as an
    invalid one is. *)
Fixpoint euc_jp_decode (b : bytes) : option string :=
  match b with
  | [] => Some EmptyString
  | x :: rest =>
      if (Byte.to_N x <? 128)%N
      then String (ascii_of_byte x) <$> euc_jp_decode rest
      else
        match rest with
        | y :: rest' =>
            if Byte.eqb x x8f
            then match rest' with
                 | z :: rest'' =>
                     match euc_jp_lookup [x; y; z], euc_jp_decode rest'' with
                     | Some c, Some t => Some (String c t)
                     | _, _ => None
                     end
                 | [] => None
                 end
            else match euc_jp_lookup [x; y], euc_jp_decode rest' with
                 | Some c, Some t => Some (String c t)
                 | _, _ => None
                 end
        | [] => None
        end
  end.

(** [body.decode(encoding)]; [None] is a raised exception.  The bytes 80
    to 9F of cp1252 stand for code points above 255 or for nothing. *)
Definition bytes_decode (b : bytes) (encoding : string) : option string :=
  if String.eqb encoding "utf-8" then utf8_decode b
  else if String.eqb encoding "ascii"
  then if forallb (fun x => (Byte.to_N x <? 128)%N) b
       then Some (string_of_list_byte b) else None
  else if String.eqb encoding "cp1252"
  then if forallb (fun x => (Byte.to_N x <? 128)%N || (160 <=? Byte.to_N x)%N) b
       then Some (string_of_list_byte b) else None
  else if String.eqb encoding "euc_jp" then euc_jp_decode b
  else None.

Definition http_content_type_encoding (content_type : string) : option string :=
  if String.eqb content_type "text/html; charset=ascii" then Some "cp1252"
  else if String.eqb content_type "text/html; charset=utf-8" then Some "utf-8"
  else if String.eqb content_type "text/html; charset=euc-jp" then Some "euc_jp"
  else if String.eqb content_type "text/html; charset=base64" then Some "base64"
  else None.

Definition html_body_declared_encoding (text : string) : option string :=
  if String.eqb text "<meta charset=ascii>" then Some "cp1252" else None.

(** Header names compare without regard to letter case. *)
Definition lower (c : ascii) : ascii :=
  let n := N_of_ascii c in
  if ((65 <=? n) && (n <=? 90))%N then ascii_of_N (n + 32) else c.

Definition normkey (name : string) : string :=
  string_of_list_ascii (map lower (list_ascii_of_string name)).

(** A response announced as ASCII, the text "caf" followed by the code
    point 233, which cp1252 encodes, and "caf" followed by the code point
    133, which it does not. *)
Definition ascii_headers : Headers.t :=
  Headers.make normkey [("Content-Type", "text/html; charset=ascii")].

Definition caf_nel : string :=
  String "c" (String "a" (String "f" (String (ascii_of_N 133) EmptyString))).

(** A response announced as EUC-JP, and a price in yen: the code point
    165 followed by "100". *)
Definition euc_jp_headers : Headers.t :=
  Headers.make normkey [("Content-Type", "text/html; charset=euc-jp")].

Definition yen_100 : string := String (ascii_of_N 165) "100".

(** A response whose Content-Type names a codec that is not a text
    encoding. *)
Definition base64_headers : Headers.t :=
  Headers.make normkey [("Content-Type", "text/html; charset=base64")].

Definition cafe : string :=
  String "c" (String "a" (String "f" (String (ascii_of_N 233) EmptyString))).

(** An interceptor that aborts image requests and sends the headers of the
    intercepted request; a navigation request, an image request, and a
    state in which the Scrapy request owns the [Headers] object 0. *)
Definition settings : Interceptor.Settings :=
  {| Interceptor.browser_type := "chromium";
     Interceptor.abort_request :=
       Some (fun r => String.eqb (Interceptor.pr_resource_type r) "image");
     Interceptor.process_request_headers :=
       fun _ r _ => Interceptor.pr_headers r |}.

Definition navigation : Interceptor.PlaywrightRequest :=
  {| Interceptor.pr_url := "https://example.org/";
     Interceptor.pr_method := "GET";
     Interceptor.pr_resource_type := "document";
     Interceptor.pr_headers := [("accept", "text/html"); ("user-agent", "Mozilla")];
     Interceptor.is_navigation_request := true |}.

Definition image : Interceptor.PlaywrightRequest :=
  {| Interceptor.pr_url := "https://example.org/logo.png";
     Interceptor.pr_method := "GET";
     Interceptor.pr_resource_type := "image";
     Interceptor.pr_headers := [("accept", "image/png")];
     Interceptor.is_navigation_request := false |}.

Definition intercepting : Interceptor.State :=
  {| Interceptor.stats := ∅;
     Interceptor.heap := {[ 0%nat := Headers.make normkey [("User-Agent", "Scrapy")] ]};
     Interceptor.route_calls := [] |}.

(** A fetch of https://example.org/ with two scripted actions, the first
    of which names a method the page does not have. *)
Definition response : Fetch.PlaywrightResponse :=
  {| Fetch.r_status := 200;
     Fetch.r_headers := [("content-type", "text/html; charset=ascii");
                         ("content-encoding", "gzip")];
     Fetch.r_server_addr := inr (Some [("ipAddress", "93.184.216.34"); ("port", "443")]);
     Fetch.r_security_details := inr Fetch.VNone |}.

Definition engine : Fetch.Engine :=
  {| Fetch.browser_new_context := None;
     Fetch.context_new_page := None;
     Fetch.page_unroute := None;
     Fetch.page_route := None;
     Fetch.page_goto := fun _ => inr (Some response);
     Fetch.page_getattr :=
       fun name =>
         if String.eqb name "title"
         then Some (fun _ _ _ => inr (Fetch.VStr "Example Domain"))
         else None;
     Fetch.page_wait_for_load_state := fun _ _ => None;
     Fetch.page_content := inr "<html><title>Example Domain</title></html>";
     Fetch.page_close := None;
     Fetch.page_url := "https://example.org/";
     Fetch.time := (0, 5) |}.

Definition libs : Fetch.Libs :=
  {| Fetch.normkey := normkey;
     Fetch.http_content_type_encoding := http_content_type_encoding;
     Fetch.html_body_declared_encoding := html_body_declared_encoding;
     Fetch.str_encode := str_encode;
     Fetch.ip_address := fun a => Some a;
     Fetch.from_args := fun _ _ _ => "HtmlResponse" |}.

Definition request : Fetch.Request :=
  {| Fetch.req_url := "https://example.org/";
     Fetch.req_method := "GET";
     Fetch.req_headers := 0%nat;
     Fetch.req_body := [];
     Fetch.req_encoding := "utf-8" |}.

Definition spider : Fetch.Spider :=
  {| Fetch.spider_name := "example"; Fetch.spider_attrs := ["parse"] |}.

Definition store (include_page : bool) : Fetch.Store :=
  {| Fetch.handler := Handler.sys_state (Handler.launched 2);
     Fetch.meta :=
       {| Fetch.playwright_context := None;
          Fetch.playwright_page := None;
          Fetch.playwright_page_event_handlers := [];
          Fetch.playwright_page_methods :=
            Some (Fetch.pm_dict [("first", Fetch.page_method 0);
                                 ("second", Fetch.page_method 1)]);
          Fetch.playwright_page_coroutines := None;
          Fetch.playwright_include_page := include_page;
          Fetch.download_latency := None;
          Fetch.playwright_security_details := None |};
     Fetch.page_method_objs :=
       [ {| Fetch.method := "frobnicate"; Fetch.args := []; Fetch.kwargs := [];
            Fetch.result := None |};
         {| Fetch.method := "title"; Fetch.args := []; Fetch.kwargs := [];
            Fetch.result := None |} ] |}.

(** The same browser, but [page.route] raises. *)
Definition engine_route_fails : Fetch.Engine :=
  {| Fetch.browser_new_context := None;
     Fetch.context_new_page := None;
     Fetch.page_unroute := None;
     Fetch.page_route := Some (Exc "Error" "Target closed");
     Fetch.page_goto := Fetch.page_goto engine;
     Fetch.page_getattr := Fetch.page_getattr engine;
     Fetch.page_wait_for_load_state := Fetch.page_wait_for_load_state engine;
     Fetch.page_content := Fetch.page_content engine;
     Fetch.page_close := None;
     Fetch.page_url := Fetch.page_url engine;
     Fetch.time := Fetch.time engine |}.

(** The same browser, but the navigation times out. *)
Definition engine_goto_fails : Fetch.Engine :=
  {| Fetch.browser_new_context := None;
     Fetch.context_new_page := None;
     Fetch.page_unroute := None;
     Fetch.page_route := None;
     Fetch.page_goto := fun _ => inl (Exc "TimeoutError" "Timeout 30000ms exceeded");
     Fetch.page_getattr := Fetch.page_getattr engine;
     Fetch.page_wait_for_load_state := Fetch.page_wait_for_load_state engine;
     Fetch.page_content := Fetch.page_content engine;
     Fetch.page_close := None;
     Fetch.page_url := Fetch.page_url engine;
     Fetch.time := Fetch.time engine |}.

End Sample.

(** ** Request and response counters: [_increment_request_stats] and
    [_increment_response_stats] *)
Module Counters.
Import Interceptor.

Definition _increment_request_stats (request : PlaywrightRequest)
    (stats : gmap string Z) : gmap string Z :=
  let stats_prefix := "playwright/request_count" in
  let stats := inc_value stats_prefix stats in
  let stats :=
    inc_value (stats_prefix +:+ "/resource_type/" +:+ pr_resource_type request)
      stats in
  let stats :=
    inc_value (stats_prefix +:+ "/method/" +:+ pr_method request) stats in
  if is_navigation_request request
  then inc_value (stats_prefix +:+ "/navigation") stats
  else stats.

(** The argument is [response.request], the request the response
    answers. *)
Definition _increment_response_stats (response_request : PlaywrightRequest)
    (stats : gmap string Z) : gmap string Z :=
  let stats_prefix := "playwright/response_count" in
  let stats := inc_value stats_prefix stats in
  let stats :=
    inc_value (stats_prefix +:+ "/resource_type/"
                 +:+ pr_resource_type response_request) stats in
  inc_value (stats_prefix +:+ "/method/" +:+ pr_method response_request) stats.

(** The listeners run once for each request, or response, of a page. *)
Definition count_requests (requests : list PlaywrightRequest)
    (stats : gmap string Z) : gmap string Z :=
  foldl (fun st r => _increment_request_stats r st) stats requests.

Definition count_responses (requests : list PlaywrightRequest)
    (stats : gmap string Z) : gmap string Z :=
  foldl (fun st r => _increment_response_stats r st) stats requests.

(** How many elements of a list satisfy a test. *)
Definition how_many {A} (test : A -> bool) (l : list A) : Z :=
  Z.of_nat (length (List.filter test l)).

End Counters.

(** ** Start and end of the handler: [_launch_browser], [_close] *)
Module Lifecycle.
Import Handler.

(** [contexts = await asyncio.gather(...)]: one context for each declared
    session, in the order of the settings. *)
Definition gather_contexts (names : list string) (st : State) : list nat * State :=
  foldl (fun acc name =>
           let '(context, st) := _create_browser_context name acc.2 in
           (acc.1 ++ [context], st))
        ([], st) names.

(** The part of [_launch_browser] that follows the launch of the browser;
    [names] are the keys of [PLAYWRIGHT_CONTEXTS]. *)
Definition _launch_browser (names : list string) (st : State) : State :=
  let '(new_contexts, st) := gather_contexts names st in
  let st := set_contexts (fun _ => list_to_map (zip names new_contexts)) st in
  foldl (fun st name =>
           let '(sem, st) := new_semaphore (max_pages_per_context st) st in
           set_context_semaphores (insert name sem) st)
        (set_context_semaphores (fun _ => ∅) st) names.

(** [_close], before the browser itself is closed. *)
Definition _close (st : State) : State :=
  set_context_semaphores (fun _ => ∅) (set_contexts (fun _ => ∅) st).

(** The handler as [__init__] leaves it. *)
Definition initial (cap : Z) (timeout : option Z) : State :=
  {| max_pages_per_context := cap; default_navigation_timeout := timeout;
     contexts := ∅; context_semaphores := ∅; stats := ∅;
     semaphores := []; browser_contexts := []; pages := []; log := [] |}.

(** The listeners [_create_page] puts on a page of the session
    [context_name]. *)
Definition page_callbacks (context_name : string) : list (string * Callback) :=
  [("close", close_page_callback context_name);
   ("crash", close_page_callback context_name);
   ("request", _log_request context_name);
   ("response", _log_response context_name);
   ("request", _increment_request_stats);
   ("response", _increment_response_stats)].

(** The calls of [_create_page] that wait for a page of [context]: each
    holds a unit of the semaphore of its session. *)
Definition opening (context : nat) (k : CreatePage) : bool :=
  match k with
  | at_new_page _ c => bool_decide (c = context)
  | _ => false
  end.

Definition in_flight (context : nat) (tasks : list CreatePage) : Z :=
  Z.of_nat (length (filter (fun k => opening context k = true) tasks)).

(** The events under which a session keeps its pages within the cap: no
    page reports a crash (the release callback is on "crash" and on
    "close"), and the context of the session is not closed. *)
Definition quiet (context : nat) (ev : Event) : Prop :=
  match ev with
  | ev_page_crash _ => False
  | ev_context_close c => c <> context
  | _ => True
  end.

(** What a suspended call knows of the session [name], whose context is
    [context] and whose semaphore is [sem]. *)
Definition task_ok (name : string) (context sem : nat) (k : CreatePage) : Prop :=
  match k with
  | at_new_context n => n <> name
  | at_acquire n c s =>
      (n = name /\ c = context /\ s = sem)
      \/ (n <> name /\ c <> context /\ s <> sem)
  | at_new_page n c => n = name <-> c = context
  | returned _ | raised _ => True
  end.

(** The session [name] is registered with the context [context] and the
    semaphore [sem], nothing else refers to them, and the units of the
    semaphore, the calls in flight and the open pages add up to the cap
    at most. *)
Record session_ok (cap : Z) (name : string) (context sem : nat) (s : System)
  : Prop := {
  ok_context : contexts (sys_state s) !! name = Some context;
  ok_semaphore : context_semaphores (sys_state s) !! name = Some sem;
  ok_context_unique :
    forall n, contexts (sys_state s) !! n = Some context -> n = name;
  ok_semaphore_unique :
    forall n, context_semaphores (sys_state s) !! n = Some sem -> n = name;
  ok_context_exists : (context < length (browser_contexts (sys_state s)))%nat;
  ok_semaphore_exists : (sem < length (semaphores (sys_state s)))%nat;
  ok_pages :
    forall i p, pages (sys_state s) !! i = Some p ->
      exists n, page_listeners p = page_callbacks n
                /\ (n = name <-> page_context p = context);
  ok_contexts :
    forall c ctx, browser_contexts (sys_state s) !! c = Some ctx ->
      c <> context ->
      exists n, n <> name
                /\ ctx_listeners ctx = [("close", close_browser_context_callback n)];
  ok_tasks :
    forall t k, sys_tasks s !! t = Some k -> task_ok name context sem k;
  ok_value : 0 <= sem_value sem (sys_state s);
  ok_count :
    sem_value sem (sys_state s) + in_flight context (sys_tasks s)
    + context_pages context (sys_state s) <= cap
}.

End Lifecycle.

(** ** The event handlers of the caller *)
Module Listeners.
Import Handler Fetch.

(** The listener the loop over [playwright_page_event_handlers] puts on
    the page for one item, if any. *)
Definition resolved_handler (spider : Spider) (eh : string * EventHandler)
  : option (string * Callback) :=
  match eh.2 with
  | handler_callable name => Some (eh.1, caller_handler name)
  | handler_str attr =>
      if bool_decide (attr ∈ spider_attrs spider)
      then Some (eh.1, caller_handler attr)
      else None
  | handler_other => None
  end.

(** The warning the loop logs for one item, if any. *)
Definition missing_handler (spider : Spider) (eh : string * EventHandler)
  : option LogRecord :=
  match eh.2 with
  | handler_str attr =>
      if bool_decide (attr ∈ spider_attrs spider)
      then None
      else Some (warn_no_handler attr eh.1)
  | _ => None
  end.

Definition add_listeners (l : list (string * Callback)) (p : Page) : Page :=
  {| page_context := page_context p; page_closed := page_closed p;
     page_listeners := page_listeners p ++ l;
     page_routes := page_routes p;
     page_navigation_timeout := page_navigation_timeout p |}.

End Listeners.

(** ** More sample browsers and requests *)
Module Scenarios.
Import Handler Fetch.

Definition with_goto
    (goto : string -> exn + option PlaywrightResponse) : Engine :=
  {| browser_new_context := None;
     context_new_page := None;
     page_unroute := None;
     page_route := None;
     page_goto := goto;
     page_getattr := page_getattr Sample.engine;
     page_wait_for_load_state := page_wait_for_load_state Sample.engine;
     page_content := page_content Sample.engine;
     page_close := None;
     page_url := page_url Sample.engine;
     time := time Sample.engine |}.

(** The task of the fetch is cancelled during the navigation. *)
Definition engine_cancelled : Engine :=
  with_goto (fun _ => inl (BaseExc "CancelledError")).

(** The navigation yields no response. *)
Definition engine_no_response : Engine :=
  with_goto (fun _ => inr None).

(** The method "title" of the page raises. *)
Definition engine_action_fails : Engine :=
  {| browser_new_context := None;
     context_new_page := None;
     page_unroute := None;
     page_route := None;
     page_goto := page_goto Sample.engine;
     page_getattr :=
       fun name =>
         if String.eqb name "title"
         then Some (fun _ _ _ => inl (Exc "Error" "Execution context was destroyed"))
         else None;
     page_wait_for_load_state := page_wait_for_load_state Sample.engine;
     page_content := page_content Sample.engine;
     page_close := None;
     page_url := page_url Sample.engine;
     time := time Sample.engine |}.

(** The store of a second request, on the handler a first fetch left;
    the first fetch kept its page, which is page 0 of the session
    "default". *)
Definition after_kept_fetch (cap : Z) (m : Meta) : Store :=
  {| handler :=
       handler (_download_request Sample.libs Sample.engine Sample.request
                  Sample.spider
                  {| handler := sys_state (launched cap);
                     meta := meta (Sample.store true);
                     page_method_objs := page_method_objs (Sample.store true) |}).2;
     meta := m;
     page_method_objs := page_method_objs (Sample.store true) |}.

(** A request that hands in page 0 and registers two handlers, one of
    them by a name the spider does not have. *)
Definition reusing : Meta :=
  {| playwright_context := Some "default";
     playwright_page := Some 0%nat;
     playwright_page_event_handlers :=
       [("response", handler_str "parse"); ("console", handler_str "on_console")];
     playwright_page_methods := None;
     playwright_page_coroutines := None;
     playwright_include_page := false;
     download_latency := None;
     playwright_security_details := None |}.

(** A request whose actions are a list: an action the page does not
    have, the title, something that is no [PageMethod], and the same
    title object once more. *)
Definition listed : Store :=
  {| handler := sys_state (launched 2);
     meta :=
       {| playwright_context := None;
          playwright_page := None;
          playwright_page_event_handlers := [];
          playwright_page_methods :=
            Some (pm_seq [page_method 0; page_method 1;
                          not_page_method "page.title()"; page_method 1]);
          playwright_page_coroutines := None;
          playwright_include_page := false;
          download_latency := None;
          playwright_security_details := None |};
     page_method_objs := page_method_objs (Sample.store false) |}.

End Scenarios.

(** * Properties *)

(** ** Response body encoding *)
Section EncodingProperties.
Variable normkey : string -> string.
Variable http_content_type_encoding : string -> option string.
Variable html_body_declared_encoding : string -> option string.
Variable str_encode : string -> string -> exn + bytes.

Local Abbreviation possible_encodings :=
  (_possible_encodings normkey http_content_type_encoding
     html_body_declared_encoding).
Local Abbreviation encode_body :=
  (_encode_body normkey http_content_type_encoding
     html_body_declared_encoding str_encode).
Local Abbreviation order :=
  (resolution_order normkey http_content_type_encoding
     html_body_declared_encoding).
(** The candidate raises [UnicodeEncodeError]: the loop goes on. *)
Local Abbreviation cannot_encode text :=
  (fun c => exists e, str_encode text c = inl e
                      /\ is_UnicodeEncodeError e = true).

Lemma truthy_named (o : option string) :
  named o = match (if truthy o then o else None) with
            | Some name => [name]
            | None => []
            end.
Proof.
  destruct o as [name|]; simpl; [|reflexivity].
  destruct (String.eqb name EmptyString); reflexivity.
Qed.

(** What the loop of [_encode_body] iterates over is the specification's
    order without its last element. *)
Lemma filter_possible_encodings (headers : Headers.t) (text : string) :
  filter_None (possible_encodings headers text) ++ ["utf-8"]
  = order headers text.
Proof.
  unfold _possible_encodings, resolution_order, content_type_charset,
    body_declared, filter_None.
  rewrite omap_app, <- app_assoc. f_equal.
  - destruct (Headers.get normkey headers "content-type") as [ct|] eqn:Hct;
      simpl; [|reflexivity].
    destruct (String.eqb ct EmptyString); simpl; [reflexivity|].
    rewrite (truthy_named (http_content_type_encoding ct)).
    destruct (truthy (http_content_type_encoding ct)); [|reflexivity].
    destruct (http_content_type_encoding ct); reflexivity.
  - f_equal. simpl.
    rewrite (truthy_named (html_body_declared_encoding text)).
    destruct (truthy (html_body_declared_encoding text)); [|reflexivity].
    destruct (html_body_declared_encoding text); reflexivity.
Qed.

Lemma encode_loop_returns (text : string) (l : list string) body encoding :
  encode_loop str_encode text l = Some (inr (body, encoding)) ->
  exists before after,
    l = before ++ encoding :: after
    /\ Forall (cannot_encode text) before
    /\ str_encode text encoding = inr body.
Proof.
  induction l as [|c l IH]; simpl; [discriminate|].
  destruct (str_encode text c) as [e|b] eqn:Hc.
  - destruct (is_UnicodeEncodeError e) eqn:He; [|discriminate].
    intros H. destruct (IH H) as (before & after & -> & Hb & Hr).
    exists (c :: before), after. split; [reflexivity|]. split; [|exact Hr].
    constructor; [by exists e|exact Hb].
  - intros [= <- <-]. exists [], l. auto.
Qed.

Lemma encode_loop_raises (text : string) (l : list string) e :
  encode_loop str_encode text l = Some (inl e) ->
  exists before c after,
    l = before ++ c :: after
    /\ Forall (cannot_encode text) before
    /\ str_encode text c = inl e
    /\ is_UnicodeEncodeError e = false.
Proof.
  induction l as [|c l IH]; simpl; [discriminate|].
  destruct (str_encode text c) as [e'|b] eqn:Hc; [|discriminate].
  destruct (is_UnicodeEncodeError e') eqn:He.
  - intros H. destruct (IH H) as (before & c' & after & -> & Hb & Hr & Hn).
    exists (c :: before), c', after. split; [reflexivity|].
    split; [|by split]. constructor; [by exists e'|exact Hb].
  - intros [= <-]. exists [], c, l. auto.
Qed.

Lemma encode_loop_ends (text : string) (l : list string) :
  encode_loop str_encode text l = None ->
  Forall (cannot_encode text) l.
Proof.
  induction l as [|c l IH]; simpl; [constructor|].
  destruct (str_encode text c) as [e|b] eqn:Hc; [|discriminate].
  destruct (is_UnicodeEncodeError e) eqn:He; [|discriminate].
  intros H. constructor; [by exists e|auto].
Qed.

Lemma fails_not_succeeds (text : string) (l : list string) :
  Forall (cannot_encode text) l ->
  Forall (fun c => ~ succeeds str_encode text c) l.
Proof.
  intros H. eapply Forall_impl; [exact H|].
  intros c (e & He & _) [b Hb]. congruence.
Qed.

(** A returned pair is the first candidate of the order that encodes the
    text, with the text in that encoding. *)
Lemma encode_body_inr (headers : Headers.t) (text : string) body encoding :
  encode_body headers text = inr (body, encoding) ->
  first_success str_encode text (order headers text) encoding
  /\ str_encode text encoding = inr body.
Proof.
  unfold _encode_body. rewrite <- filter_possible_encodings.
  destruct (encode_loop str_encode text _) as [[e|[body' encoding']]|] eqn:Hloop.
  - discriminate.
  - intros [= <- <-].
    apply encode_loop_returns in Hloop as (before & after & Hl & Hb & He).
    split; [|exact He].
    exists before, (after ++ ["utf-8"]). rewrite Hl, <- app_assoc.
    split; [reflexivity|]. split; [|by eexists].
    by apply fails_not_succeeds.
  - apply encode_loop_ends in Hloop.
    destruct (str_encode text "utf-8") as [e|body'] eqn:Hu; [discriminate|].
    intros [= <- <-]. split; [|exact Hu].
    exists (filter_None (possible_encodings headers text)), [].
    split; [reflexivity|]. split; [|by eexists].
    by apply fails_not_succeeds.
Qed.

(** An exception that leaves [_encode_body] is the one a candidate
    raised, after every earlier candidate raised [UnicodeEncodeError]; it
    is of another class unless the candidate is the last one, UTF-8. *)
Lemma encode_body_inl (headers : Headers.t) (text : string) e :
  encode_body headers text = inl e ->
  exists before c after,
    order headers text = before ++ c :: after
    /\ Forall (cannot_encode text) before
    /\ str_encode text c = inl e
    /\ (is_UnicodeEncodeError e = false \/ after = []).
Proof.
  unfold _encode_body. rewrite <- filter_possible_encodings.
  destruct (encode_loop str_encode text _) as [[e'|[body' encoding']]|] eqn:Hloop.
  - intros [= <-].
    apply encode_loop_raises in Hloop as (before & c & after & Hl & Hb & He & Hn).
    exists before, c, (after ++ ["utf-8"]). rewrite Hl, <- app_assoc.
    split; [reflexivity|]. split; [exact Hb|]. split; [exact He|by left].
  - discriminate.
  - apply encode_loop_ends in Hloop.
    destruct (str_encode text "utf-8") as [e'|body'] eqn:Hu; [|discriminate].
    intros [= <-].
    exists (filter_None (possible_encodings headers text)), "utf-8"%string, [].
    split; [reflexivity|]. split; [exact Hloop|]. split; [exact Hu|by right].
Qed.

(** C10 (amended): a pair [_encode_body] returns holds the text encoded
    with the encoding it names, and that encoding is one of the
    candidates. *)
Theorem encode_body_is_encoded_text (headers : Headers.t) (text : string)
    (body : bytes) (encoding : string) :
  _encode_body normkey http_content_type_encoding
    html_body_declared_encoding str_encode headers text
  = inr (body, encoding) ->
  str_encode text encoding = inr body
  /\ encoding ∈ resolution_order normkey http_content_type_encoding
                  html_body_declared_encoding headers text.
Proof.
  intros H. destruct (encode_body_inr headers text body encoding H)
    as [(before & after & Ho & _ & _) He].
  split; [exact He|]. rewrite Ho. set_solver.
Qed.

End EncodingProperties.

(** ** The sample codecs *)

Lemma sample_utf8_decode_encode (t : string) :
  Sample.utf8_decode (Sample.utf8_encode t) = Some t.
Proof.
  induction t as [|c t IH]; [reflexivity|].
  unfold Sample.utf8_encode in *. simpl list_ascii_of_string. simpl flat_map.
  destruct c as [[] [] [] [] [] [] [] []];
    (cbn -[Sample.utf8_decode flat_map]; simpl Sample.utf8_decode;
     rewrite IH; reflexivity).
Qed.

Example encode_body_ascii :
  _encode_body Sample.normkey Sample.http_content_type_encoding
    Sample.html_body_declared_encoding Sample.str_encode Sample.ascii_headers
    Sample.cafe
  = inr ([x63; x61; x66; xe9], "cp1252").
Proof. vm_compute. reflexivity. Qed.

Example encode_body_falls_back :
  _encode_body Sample.normkey Sample.http_content_type_encoding
    Sample.html_body_declared_encoding Sample.str_encode Sample.ascii_headers
    Sample.caf_nel
  = inr ([x63; x61; x66; xc2; x85], "utf-8").
Proof. vm_compute. reflexivity. Qed.

Lemma encode_body_is_encoded_text_witness :
  Sample.str_encode Sample.caf_nel "utf-8" = inr [x63; x61; x66; xc2; x85]
  /\ "utf-8"%string
       ∈ resolution_order Sample.normkey Sample.http_content_type_encoding
           Sample.html_body_declared_encoding Sample.ascii_headers
           Sample.caf_nel.
Proof.
  apply (encode_body_is_encoded_text Sample.normkey
           Sample.http_content_type_encoding Sample.html_body_declared_encoding
           Sample.str_encode Sample.ascii_headers Sample.caf_nel).
  vm_compute. reflexivity.
Defined.

(** C10, as the claim words it, fails: a page announced as EUC-JP whose
    text is the yen sign followed by "100" is encoded with euc_jp, which
    writes the yen sign as the byte of the backslash; decoding the body
    with the reported encoding gives a backslash followed by "100", not
    the text. *)
Lemma euc_jp_body_does_not_decode_back :
  _encode_body Sample.normkey Sample.http_content_type_encoding
    Sample.html_body_declared_encoding Sample.str_encode Sample.euc_jp_headers
    Sample.yen_100
  = inr ([x5c; x31; x30; x30], "euc_jp")
  /\ Sample.bytes_decode [x5c; x31; x30; x30] "euc_jp"
     = Some (String (ascii_of_N 92) "100")
  /\ Sample.bytes_decode [x5c; x31; x30; x30] "euc_jp" <> Some Sample.yen_100.
Proof. vm_compute. repeat split; discriminate. Qed.

(** C2, on the code: with Content-Type "text/html; charset=base64" and the
    text "<meta charset=ascii>" the candidates are base64, cp1252 and
    UTF-8; base64 fails (it is not a text encoding) and cp1252 can encode
    the text, so the claim has cp1252 chosen; [_encode_body] raises the
    LookupError of the first candidate instead of trying the next one. *)
Theorem failing_candidate_is_not_skipped :
  resolution_order Sample.normkey Sample.http_content_type_encoding
    Sample.html_body_declared_encoding Sample.base64_headers
    "<meta charset=ascii>"
  = ["base64"; "cp1252"; "utf-8"]%string
  /\ ~ succeeds Sample.str_encode "<meta charset=ascii>" "base64"
  /\ first_success Sample.str_encode "<meta charset=ascii>"
       ["base64"; "cp1252"; "utf-8"]%string "cp1252"
  /\ _encode_body Sample.normkey Sample.http_content_type_encoding
       Sample.html_body_declared_encoding Sample.str_encode
       Sample.base64_headers "<meta charset=ascii>"
     = inl Sample.not_a_text_encoding.
Proof.
  split; [vm_compute; reflexivity|]. split; [by intros [b Hb]|]. split.
  - exists ["base64"%string], ["utf-8"%string]. split; [reflexivity|].
    split; [|by eexists]. constructor; [|constructor]. by intros [b Hb].
  - vm_compute. reflexivity.
Qed.

(** C7, on the code: with Content-Type "text/html; charset=base64" the
    operation returns no body for any text, although UTF-8 can encode
    every text of the sample: the LookupError of the first candidate is
    not caught and the UTF-8 fallback is never reached. *)
Theorem encode_body_is_not_total (text : string) :
  _encode_body Sample.normkey Sample.http_content_type_encoding
    Sample.html_body_declared_encoding Sample.str_encode
    Sample.base64_headers text
  = inl Sample.not_a_text_encoding
  /\ succeeds Sample.str_encode text "utf-8".
Proof.
  split; [|by eexists].
  unfold _encode_body, _possible_encodings.
  assert (Headers.get Sample.normkey Sample.base64_headers "content-type"
          = Some "text/html; charset=base64"%string) as -> by (vm_compute; reflexivity).
  reflexivity.
Qed.

(** ** Request interception *)
Section InterceptorProperties.
Import Interceptor.
Variable normkey : string -> string.
Variable bytes_decode : bytes -> string -> option string.
Variable self : Settings.

Local Abbreviation request_handler := (_request_handler normkey bytes_decode self).
Local Abbreviation aborted := "playwright/request_count/aborted"%string.

(** The values gathered under one normalised name. *)
Lemma lookup_foldl_extend (seq : dict) (d : Headers.t) (name : string) :
  foldl (Headers.extend normkey) d seq !! name
  = match (filter (fun kv => normkey kv.1 = name) seq).*2 with
    | [] => d !! name
    | vs => Some (default [] (d !! name) ++ vs)
    end.
Proof.
  revert d. induction seq as [|[k v] seq IH]; intros d; [reflexivity|].
  cbn [foldl]. rewrite IH, filter_cons. unfold Headers.extend. cbn [fst snd].
  destruct (decide (normkey k = name)) as [Heq|Hne].
  - rewrite Heq, lookup_insert_eq, fmap_cons. cbn [snd].
    generalize ((filter (fun kv => normkey kv.1 = name) seq).*2).
    intros [|w ws]; simpl; [reflexivity|].
    by rewrite <- app_assoc.
  - by rewrite lookup_insert_ne.
Qed.

Lemma lookup_make (seq : dict) (name : string) :
  Headers.make normkey seq !! name
  = match (filter (fun kv => normkey kv.1 = name) seq).*2 with
    | [] => None
    | vs => Some vs
    end.
Proof.
  unfold Headers.make, Headers.update.
  rewrite (right_id_L ∅ (∪)), lookup_foldl_extend, lookup_empty.
  reflexivity.
Qed.

Lemma get_make (seq : dict) (k : string) :
  Headers.get normkey (Headers.make normkey seq) k
  = last (filter (fun kv => normkey kv.1 = normkey k) seq).*2.
Proof.
  unfold Headers.get. rewrite lookup_make.
  by destruct ((filter _ seq).*2).
Qed.

Lemma not_aborts_handler method scrapy_headers body encoding req st :
  aborts self req = false ->
  request_handler method scrapy_headers body encoding req st
  = let processed :=
      process_request_headers self (browser_type self) req
        (default ∅ (heap st !! scrapy_headers)) in
    let st' := {| stats := stats st;
                  heap := <[scrapy_headers := Headers.make normkey processed]> (heap st);
                  route_calls := route_calls st |} in
    if is_navigation_request req then
      match body with
      | Some b =>
          match bytes_decode b encoding with
          | Some post_data =>
              (inr tt,
               {| stats := stats st'; heap := heap st';
                  route_calls :=
                    route_calls st ++
                      [continue_ {| ov_headers := processed;
                                    ov_method := Some method;
                                    ov_post_data := Some post_data |}] |})
          | None => (inl UnicodeDecodeError, st')
          end
      | None =>
          (inr tt,
           {| stats := stats st'; heap := heap st';
              route_calls :=
                route_calls st ++
                  [continue_ {| ov_headers := processed;
                                ov_method := Some method;
                                ov_post_data := None |}] |})
      end
    else
      (inr tt,
       {| stats := stats st'; heap := heap st';
          route_calls :=
            route_calls st ++
              [continue_ {| ov_headers := processed;
                            ov_method := None;
                            ov_post_data := None |}] |}).
Proof.
  unfold aborts, _request_handler. intros ->. reflexivity.
Qed.

(** C3: when the configured abort predicate selects the intercepted
    request, the handler returns after aborting the route and counting
    the abort: the route receives [abort] and nothing else, the counter
    "playwright/request_count/aborted" goes up by one, every other counter
    and every [Headers] object keeps its value. *)
Theorem abort_stops_processing method scrapy_headers body encoding req st pred :
  abort_request self = Some pred ->
  pred req = true ->
  exists st',
    _request_handler normkey bytes_decode self method scrapy_headers body encoding req st = (inr tt, st')
    /\ route_calls st' = route_calls st ++ [abort]
    /\ stats st' !! aborted = Some (default 0 (stats st !! aborted) + 1)
    /\ (forall key, key <> aborted -> stats st' !! key = stats st !! key)
    /\ heap st' = heap st.
Proof.
  intros Hp Hr. unfold _request_handler. rewrite Hp, Hr.
  eexists. split; [reflexivity|]. cbn [route_calls stats heap].
  unfold inc_value. repeat split.
  - by rewrite lookup_insert_eq.
  - intros key Hk. by rewrite lookup_insert_ne.
Qed.

(** C5: a request that is not aborted is continued with the processed
    headers; the method override is there exactly for a navigation
    request, and the payload override exactly for a navigation request
    of a fetch that has a body, which it carries decoded with the
    encoding of the fetch. *)
Theorem continue_overrides method scrapy_headers body encoding req st :
  aborts self req = false ->
  (is_navigation_request req = true ->
   forall b, body = Some b -> is_Some (bytes_decode b encoding)) ->
  exists st',
    _request_handler normkey bytes_decode self method scrapy_headers body encoding req st = (inr tt, st')
    /\ stats st' = stats st
    /\ route_calls st'
       = route_calls st ++
           [continue_
              {| ov_headers :=
                   process_request_headers self (browser_type self) req
                     (default ∅ (heap st !! scrapy_headers));
                 ov_method :=
                   if is_navigation_request req then Some method else None;
                 ov_post_data :=
                   if is_navigation_request req
                   then b ← body; bytes_decode b encoding
                   else None |}].
Proof.
  intros Ha Hdec. rewrite (not_aborts_handler _ _ _ _ _ _ Ha). cbv zeta.
  destruct (is_navigation_request req); [|by eexists].
  destruct body as [b|]; [|by eexists].
  destruct (Hdec eq_refl b eq_refl) as [post_data Hb]. simpl. rewrite Hb.
  by eexists.
Qed.

(** C8: after the handler has run for a request that is not aborted, the
    [Headers] object of the Scrapy request is the one made of the
    processed headers alone: under each normalised name it holds the
    processed values of that name, in order, and no other name is left;
    the other objects are untouched. *)
Theorem headers_replaced_by_processed method scrapy_headers body encoding req st :
  aborts self req = false ->
  let processed :=
    process_request_headers self (browser_type self) req
      (default ∅ (heap st !! scrapy_headers)) in
  let st' := (_request_handler normkey bytes_decode self method scrapy_headers body encoding req st).2 in
  heap st' !! scrapy_headers = Some (Headers.make normkey processed)
  /\ (forall name,
        Headers.make normkey processed !! name
        = match (filter (fun kv => normkey kv.1 = name) processed).*2 with
          | [] => None
          | vs => Some vs
          end)
  /\ (forall k,
        Headers.get normkey (Headers.make normkey processed) k
        = last (filter (fun kv => normkey kv.1 = normkey k) processed).*2)
  /\ (forall l, l <> scrapy_headers -> heap st' !! l = heap st !! l).
Proof.
  intros Ha. rewrite (not_aborts_handler _ _ _ _ _ _ Ha). cbv zeta.
  split; [|split; [apply lookup_make|split; [apply get_make|]]].
  - destruct (is_navigation_request req);
      [|by cbn [snd heap]; rewrite lookup_insert_eq].
    destruct body as [b|]; [|by cbn [snd heap]; rewrite lookup_insert_eq].
    destruct (bytes_decode b encoding);
      by cbn [snd heap]; rewrite lookup_insert_eq.
  - intros l Hl.
    destruct (is_navigation_request req);
      [|by cbn [snd heap]; rewrite lookup_insert_ne].
    destruct body as [b|]; [|by cbn [snd heap]; rewrite lookup_insert_ne].
    destruct (bytes_decode b encoding);
      by cbn [snd heap]; rewrite lookup_insert_ne.
Qed.

End InterceptorProperties.

Lemma abort_stops_processing_witness :
  exists st',
    Interceptor._request_handler Sample.normkey Sample.bytes_decode
      Sample.settings "POST" 0%nat (Some [x61]) "utf-8" Sample.image
      Sample.intercepting = (inr tt, st')
    /\ Interceptor.route_calls st' = [Interceptor.abort]
    /\ Interceptor.stats st' !! "playwright/request_count/aborted" = Some 1
    /\ (forall key, key <> "playwright/request_count/aborted" ->
        Interceptor.stats st' !! key = Interceptor.stats Sample.intercepting !! key)
    /\ Interceptor.heap st' = Interceptor.heap Sample.intercepting.
Proof.
  exact (abort_stops_processing Sample.normkey Sample.bytes_decode
           Sample.settings "POST" 0%nat (Some [x61]) "utf-8" Sample.image
           Sample.intercepting _ eq_refl eq_refl).
Defined.

Lemma continue_overrides_witness :
  exists st',
    Interceptor._request_handler Sample.normkey Sample.bytes_decode
      Sample.settings "POST" 0%nat (Some [x61]) "utf-8" Sample.navigation
      Sample.intercepting = (inr tt, st')
    /\ Interceptor.stats st' = ∅
    /\ Interceptor.route_calls st'
       = [Interceptor.continue_
            {| Interceptor.ov_headers :=
                 [("accept", "text/html"); ("user-agent", "Mozilla")];
               Interceptor.ov_method := Some "POST";
               Interceptor.ov_post_data := Some "a" |}].
Proof.
  apply (continue_overrides Sample.normkey Sample.bytes_decode
           Sample.settings "POST" 0%nat (Some [x61]) "utf-8" Sample.navigation
           Sample.intercepting eq_refl).
  intros _ b [= <-]. vm_compute. eexists. reflexivity.
Defined.


Lemma headers_replaced_by_processed_witness :
  Headers.get Sample.normkey
    (default ∅
       (Interceptor.heap
          (Interceptor._request_handler Sample.normkey Sample.bytes_decode
             Sample.settings "GET" 0%nat None "utf-8" Sample.navigation
             Sample.intercepting).2 !! 0%nat))
    "User-Agent"
  = Some "Mozilla".
Proof.
  destruct (headers_replaced_by_processed Sample.normkey Sample.bytes_decode
              Sample.settings "GET" 0%nat None "utf-8" Sample.navigation
              Sample.intercepting eq_refl) as (Hheap & _ & Hget & _).
  rewrite Hheap. simpl default. rewrite Hget. reflexivity.
Defined.

(** ** The handler state *)
Section HandlerProperties.
Import Handler.

Lemma run_callback_set_log f cb st :
  run_callback cb (set_log f st) = set_log f (run_callback cb st).
Proof.
  destruct cb; try reflexivity. simpl.
  by destruct (context_semaphores st !! context_name).
Qed.

Lemma run_callback_set_stats f cb st :
  run_callback cb (set_stats f st) = set_stats f (run_callback cb st).
Proof.
  destruct cb; try reflexivity. simpl.
  by destruct (context_semaphores st !! context_name).
Qed.

Lemma emit_set_log f l ev st :
  emit l ev (set_log f st) = set_log f (emit l ev st).
Proof.
  unfold emit. revert st. induction l as [|x l IH]; intros st; [reflexivity|].
  simpl. destruct (String.eqb x.1 ev); [|apply IH].
  rewrite run_callback_set_log. apply IH.
Qed.

Lemma emit_set_stats f l ev st :
  emit l ev (set_stats f st) = set_stats f (emit l ev st).
Proof.
  unfold emit. revert st. induction l as [|x l IH]; intros st; [reflexivity|].
  simpl. destruct (String.eqb x.1 ev); [|apply IH].
  rewrite run_callback_set_stats. apply IH.
Qed.

Lemma page_closes_set_log f page st :
  page_closes page (set_log f st) = set_log f (page_closes page st).
Proof.
  unfold page_closes. simpl.
  destruct (pages st !! page) as [p|]; [|reflexivity].
  destruct (page_closed p); [reflexivity|].
  by rewrite <- emit_set_log.
Qed.

Lemma page_closes_set_stats f page st :
  page_closes page (set_stats f st) = set_stats f (page_closes page st).
Proof.
  unfold page_closes. simpl.
  destruct (pages st !! page) as [p|]; [|reflexivity].
  destruct (page_closed p); [reflexivity|].
  by rewrite <- emit_set_stats.
Qed.

Lemma frame_page_closes page st :
  frame (page_closes page st) = page_closes page (frame st).
Proof.
  unfold frame. by rewrite page_closes_set_log, page_closes_set_stats.
Qed.

Lemma pages_run_callback cb st : pages (run_callback cb st) = pages st.
Proof.
  destruct cb; try reflexivity. simpl.
  by destruct (context_semaphores st !! context_name).
Qed.

Lemma pages_emit l ev st : pages (emit l ev st) = pages st.
Proof.
  unfold emit. revert st. induction l as [|x l IH]; intros st; [reflexivity|].
  simpl. destruct (String.eqb x.1 ev); [|apply IH].
  by rewrite IH, pages_run_callback.
Qed.

Lemma is_closed_page_closes page st : is_closed page (page_closes page st) = true.
Proof.
  unfold page_closes, is_closed.
  destruct (pages st !! page) as [p|] eqn:Hp; [|by rewrite Hp].
  destruct (page_closed p) eqn:Hc; [by rewrite Hp|].
  rewrite pages_emit. simpl. rewrite list_lookup_alter_eq, Hp. reflexivity.
Qed.

Lemma page_closes_closed page st :
  is_closed page st = true -> page_closes page st = st.
Proof.
  unfold page_closes, is_closed.
  destruct (pages st !! page) as [p|]; [|reflexivity]. by intros ->.
Qed.

Lemma frame_set_stats f st : frame (set_stats f st) = frame st.
Proof. reflexivity. Qed.

Lemma frame_set_log f st : frame (set_log f st) = frame st.
Proof. reflexivity. Qed.

Lemma is_closed_frame page st : is_closed page (frame st) = is_closed page st.
Proof. reflexivity. Qed.

Lemma is_closed_frame_eq page st st' :
  frame st = frame st' -> is_closed page st = is_closed page st'.
Proof.
  intros H. rewrite <- (is_closed_frame page st), H. reflexivity.
Qed.

Lemma lookup_set_page f page st :
  pages (set_page f page st) !! page = f <$> pages st !! page.
Proof. unfold set_page. cbn. apply list_lookup_alter_eq. Qed.

Lemma pages_get_total_page_count st :
  pages (_get_total_page_count st).2 = pages st.
Proof.
  unfold _get_total_page_count. cbn [snd].
  by destruct (match get_value _ _ with None => true | Some m => _ end).
Qed.

Lemma semaphores_get_total_page_count st :
  semaphores (_get_total_page_count st).2 = semaphores st
  /\ context_semaphores (_get_total_page_count st).2 = context_semaphores st
  /\ contexts (_get_total_page_count st).2 = contexts st
  /\ default_navigation_timeout (_get_total_page_count st).2
     = default_navigation_timeout st.
Proof.
  unfold _get_total_page_count. cbn [snd].
  by destruct (match get_value _ _ with None => true | Some m => _ end).
Qed.

Lemma new_page_effect name context st sem :
  let r := new_page name context st in
  r.1 = length (pages st)
  /\ close_releases name r.1 sem r.2
  /\ semaphores r.2 = semaphores st
  /\ context_semaphores r.2 = context_semaphores st.
Proof.
  intros r. subst r. unfold new_page. cbn [fst snd].
  set (p0 := {| page_context := context; page_closed := false;
                page_listeners := []; page_routes := [];
                page_navigation_timeout := None |}).
  set (st1 := (_get_total_page_count _).2).
  assert (pages st1 !! length (pages st) = Some p0) as Hp1.
  { subst st1. rewrite pages_get_total_page_count. cbn.
    by rewrite lookup_app_r, Nat.sub_diag. }
  assert (semaphores st1 = semaphores st
          /\ context_semaphores st1 = context_semaphores st) as [Hs1 Hc1].
  { subst st1.
    destruct (semaphores_get_total_page_count
                (set_stats (inc_value "playwright/page_count")
                   (set_pages (fun l => l ++ [p0]) st))) as (-> & -> & _).
    done. }
  set (st2 := match default_navigation_timeout st1 with
              | Some timeout => set_page _ (length (pages st)) st1
              | None => st1
              end).
  assert (exists p, pages st2 !! length (pages st) = Some p
                    /\ page_closed p = false /\ page_listeners p = []
                    /\ semaphores st2 = semaphores st
                    /\ context_semaphores st2 = context_semaphores st)
    as (p2 & Hp2 & Hcl2 & Hl2 & Hs2 & Hc2).
  { subst st2. destruct (default_navigation_timeout st1).
    - eexists. rewrite lookup_set_page, Hp1. by repeat split.
    - exists p0. by repeat split. }
  clearbody st2. clear Hp1 Hs1 Hc1 st1.
  split; [done|]. split; [|by split].
  eexists. rewrite !lookup_set_page, Hp2. cbn [fmap option_fmap option_map].
  split; [reflexivity|]. split; [exact Hcl2|].
  intros st' Hst'. cbn [page_on page_listeners]. rewrite Hl2.
  cbn. by rewrite Hst'.
Qed.

End HandlerProperties.

(** ** One fetch *)
Section FetchProperties.
Import Handler Fetch.
Variable libs : Libs.
Variable eng : Engine.

Lemma bind_inv {A B} (m : M A) (k : A -> M B) s o s' :
  bind m k s = (o, s') ->
  (exists a s1, m s = (Ret a, s1) /\ k a s1 = (o, s'))
  \/ (exists e, m s = (Raise e, s') /\ o = Raise e)
  \/ (m s = (Blocked, s') /\ o = Blocked).
Proof.
  unfold bind. destruct (m s) as [[a|e|] s1]; intros H.
  - left. by exists a, s1.
  - right. left. exists e. by simplify_eq.
  - right. right. by simplify_eq.
Qed.

Lemma bind_ret {A B} (m : M A) (k : A -> M B) s a s1 :
  m s = (Ret a, s1) -> bind m k s = k a s1.
Proof. unfold bind. by intros ->. Qed.

Lemma bind_raise {A B} (m : M A) (k : A -> M B) s e s1 :
  m s = (Raise e, s1) -> bind m k s = (Raise e, s1).
Proof. unfold bind. by intros ->. Qed.

Lemma run_page_method_frame page i item s o s' :
  run_page_method eng page i item s = (o, s') ->
  meta s' = meta s /\ frame (handler s') = frame (handler s).
Proof.
  unfold run_page_method. destruct item as [l|r].
  - unfold bind at 1, gets at 1.
    destruct (page_getattr eng (method (page_method_objs s !!! l))) as [f|].
    + unfold bind, await_value, modify, gets, await, ret, raise.
      destruct (f i _ _) as [e|v]; [by intros [= <- <-]|].
      destruct (page_wait_for_load_state eng i _); by intros [= <- <-].
    + by intros [= <- <-].
  - by intros [= <- <-].
Qed.

Lemma run_page_methods_frame page items i s o s' :
  run_page_methods eng page i items s = (o, s') ->
  meta s' = meta s /\ frame (handler s') = frame (handler s).
Proof.
  revert i s. induction items as [|item items IH]; intros i s; simpl.
  - by intros [= <- <-].
  - intros H. apply bind_inv in H as [(a & s1 & H1 & H2)|[(e & H1 & ->)|[H1 ->]]].
    + apply run_page_method_frame in H1 as [Hm Hf].
      apply IH in H2 as [Hm' Hf']. split; congruence.
    + by apply run_page_method_frame in H1.
    + by apply run_page_method_frame in H1.
Qed.

Lemma apply_page_methods_frame page s o s' :
  _apply_page_methods eng page s = (o, s') ->
  meta s' = meta s /\ frame (handler s') = frame (handler s).
Proof.
  unfold _apply_page_methods. unfold bind at 1, gets at 1.
  destruct (pm_truthy (playwright_page_methods (meta s))).
  - unfold bind at 1, ret at 1. apply run_page_methods_frame.
  - destruct (playwright_page_coroutines (meta s)) as [c|].
    + unfold bind at 1 2, warning, modify, ret. intros H.
      by apply run_page_methods_frame in H.
    + unfold bind at 1, ret at 1. apply run_page_methods_frame.
Qed.

Local Abbreviation closed_count := "playwright/page_count/closed"%string.

Lemma keep_or_close_cases page s o s' :
  keep_or_close eng page s = (o, s') ->
  if playwright_include_page (meta s)
  then o = Ret tt /\ s' = on_meta (set_playwright_page (Some page)) s
  else match page_close eng with
       | None =>
           o = Ret tt
           /\ s' = on_handler (set_stats (inc_value closed_count))
                   (on_handler (page_closes page) s)
       | Some e => o = Raise e /\ s' = s
       end.
Proof.
  unfold keep_or_close, bind at 1, gets.
  destruct (playwright_include_page (meta s)).
  - by intros [= <- <-].
  - unfold close_page, bind, await, modify, ret, raise.
    destruct (page_close eng); by intros [= <- <-].
Qed.

Lemma server_ip_state response s o s' :
  server_ip libs response s = (o, s') -> s' = s.
Proof.
  unfold server_ip, try_except, bind, await_value, raise, ret.
  intros H. repeat case_match; by simplify_eq.
Qed.

Lemma security_state response s o s' :
  security response s = (o, s') ->
  handler s' = handler s
  /\ page_method_objs s' = page_method_objs s
  /\ playwright_page (meta s') = playwright_page (meta s)
  /\ playwright_include_page (meta s') = playwright_include_page (meta s).
Proof.
  unfold security, suppress, try_except, bind, await_value, modify, raise, ret.
  intros H. repeat case_match; by simplify_eq.
Qed.

Lemma respcls_state response body_str ip s o s' :
  respcls libs eng response body_str ip s = (o, s') -> s' = s.
Proof.
  unfold respcls, raise, ret.
  intros H. repeat case_match; by simplify_eq.
Qed.

(** What follows [keep_or_close] in [assemble] leaves the handler and the
    page of the meta alone. *)
Lemma after_keep_or_close response body_str s o s' :
  bind (server_ip libs response)
    (fun ip => bind (security response)
                 (fun _ => respcls libs eng response body_str ip)) s = (o, s') ->
  handler s' = handler s
  /\ playwright_page (meta s') = playwright_page (meta s).
Proof.
  intros H.
  apply bind_inv in H as [(ip & s1 & H1 & H)|[(e & H1 & ->)|[H1 ->]]];
    apply server_ip_state in H1 as ->; [|done..].
  apply bind_inv in H as [([] & s2 & H2 & H)|[(e & H2 & ->)|[H2 ->]]];
    apply security_state in H2 as (Hh & _ & Hp & _); [|done..].
  apply respcls_state in H as ->. done.
Qed.

Lemma assemble_effect page response t s o s' :
  assemble libs eng page response t s = (o, s') ->
  if playwright_include_page (meta s)
  then handler s' = handler s
       /\ (forall r, o = Ret r -> playwright_page (meta s') = Some page)
  else handler s' = set_stats (inc_value closed_count) (page_closes page (handler s))
       \/ (handler s' = handler s /\ forall r, o <> Ret r).
Proof.
  unfold assemble. intros H.
  apply bind_inv in H as [(body_str & s1 & H1 & H)|[(e & H1 & ->)|[H1 ->]]];
    unfold await_value, raise, ret in H1;
    destruct (page_content eng) as [e'|text]; simplify_eq.
  2:{ destruct (playwright_include_page (meta s')); naive_solver. }
  apply bind_inv in H as [([] & s2 & H2 & H)|[(e & H2 & ->)|[H2 ->]]];
    unfold modify in H2; simplify_eq.
  apply bind_inv in H as [([] & s3 & H3 & H)|[(e & H3 & ->)|[H3 ->]]];
    apply keep_or_close_cases in H3; cbn [meta on_meta] in H3;
    change (playwright_include_page (set_download_latency _ (meta s1)))
      with (playwright_include_page (meta s1)) in H3;
    destruct (playwright_include_page (meta s1)).
  - destruct H3 as [_ ->]. apply after_keep_or_close in H as [Hh Hp].
    split; [done|]. intros _ _. by rewrite Hp.
  - destruct (page_close eng); destruct H3 as [? ->]; [done|].
    apply after_keep_or_close in H as [Hh Hp]. left. by rewrite Hh.
  - by destruct H3.
  - destruct (page_close eng); destruct H3 as [? ->]; [|done].
    right. done.
  - by destruct H3.
  - destruct (page_close eng); by destruct H3.
Qed.

Lemma download_with_page_effect request page s o s' :
  _download_request_with_page libs eng request page s = (o, s') ->
  if playwright_include_page (meta s)
  then frame (handler s') = frame (handler s)
       /\ (forall r, o = Ret r -> playwright_page (meta s') = Some page)
  else frame (handler s') = frame (page_closes page (handler s))
       \/ (frame (handler s') = frame (handler s) /\ forall r, o <> Ret r).
Proof.
  unfold _download_request_with_page. intros H.
  apply bind_inv in H as [(response & s1 & H1 & H)|[(e & H1 & ->)|[H1 ->]]];
    unfold await_value, raise, ret in H1;
    destruct (page_goto eng (req_url request)) as [e'|r]; simplify_eq.
  2:{ destruct (playwright_include_page (meta s')); naive_solver. }
  apply bind_inv in H as [([] & s2 & H2 & H)|[(e & H2 & ->)|[H2 ->]]];
    apply apply_page_methods_frame in H2 as [Hm Hf]; rewrite <- Hm.
  - apply assemble_effect in H.
    destruct (playwright_include_page (meta s2)).
    + destruct H as [-> Hp]. done.
    + destruct H as [->|[-> He]]; [left|right; done].
      by rewrite frame_set_stats, !frame_page_closes, Hf.
  - destruct (playwright_include_page (meta s'));
      [split; [done|discriminate]|right; split; [done|discriminate]].
  - destruct (playwright_include_page (meta s'));
      [split; [done|discriminate]|right; split; [done|discriminate]].
Qed.

(** C9: when [_download_request_with_page] returns a response for a page
    that was open, the page is closed at the end exactly when
    [playwright_include_page] is false: then the handler is as after one
    closing of the page; otherwise the page is stored under
    [playwright_page] of the meta for the caller, and sessions,
    semaphores and pages are as they were. *)
Theorem tab_closed_unless_kept request page s resp s' :
  _download_request_with_page libs eng request page s = (Ret resp, s') ->
  is_closed page (handler s) = false ->
  is_closed page (handler s') = negb (playwright_include_page (meta s))
  /\ (playwright_include_page (meta s) = true ->
      playwright_page (meta s') = Some page
      /\ frame (handler s') = frame (handler s))
  /\ (playwright_include_page (meta s) = false ->
      frame (handler s') = frame (page_closes page (handler s))).
Proof.
  intros H Hopen. apply download_with_page_effect in H.
  destruct (playwright_include_page (meta s)).
  - destruct H as [Hf Hp]. split; [|split; [|done]].
    + rewrite (is_closed_frame_eq page _ _ Hf). exact Hopen.
    + intros _. split; [by apply (Hp resp)|exact Hf].
  - destruct H as [Hf|[_ Hn]]; [|by destruct (Hn resp)].
    split; [|split; [done|intros _; exact Hf]].
    rewrite (is_closed_frame_eq page _ _ Hf). apply is_closed_page_closes.
Qed.

Lemma close_and_reraise_effect page e s o s' :
  close_and_reraise eng page e s = (o, s') ->
  page_close eng = None ->
  o = Raise e
  /\ frame (handler s') = frame (page_closes page (handler s))
  /\ meta s' = meta s /\ page_method_objs s' = page_method_objs s.
Proof.
  unfold close_and_reraise, close_page, bind, gets, await, modify, raise, ret.
  intros H Hc. rewrite Hc in H.
  destruct (is_closed page (handler s)) eqn:Hcl; simplify_eq.
  - by rewrite page_closes_closed.
  - done.
Qed.

Lemma alter_last {A} (f : A -> A) (l : list A) (x : A) :
  alter f (length l) (l ++ [x]) = l ++ [f x].
Proof. induction l as [|y l IH]; [reflexivity|]. cbn. by rewrite IH. Qed.

Lemma alter_alter_id (l : list Z) (sem : nat) :
  alter (fun v => v + 1) sem (alter (fun v => v - 1) sem l) = l.
Proof.
  revert sem. induction l as [|x l IH]; intros [|sem]; cbn; [done..| |].
  - f_equal. lia.
  - f_equal. apply IH.
Qed.

Lemma create_page_effect s page s1 :
  _create_page eng s = (Ret page, s1) ->
  exists sem,
    context_semaphores (handler s1)
      !! default "default"%string (playwright_context (meta s)) = Some sem
    /\ close_releases (default "default"%string (playwright_context (meta s)))
         page sem (handler s1)
    /\ alter (fun v => v + 1) sem (semaphores (handler s1))
       = semaphores (handler s)
           ++ match contexts (handler s)
                      !! default "default"%string (playwright_context (meta s)) with
              | Some _ => []
              | None => [max_pages_per_context (handler s)]
              end.
Proof.
  intros H. set (name := default "default"%string (playwright_context (meta s))).
  unfold _create_page in H. fold name in H.
  cbn [handler on_meta] in H. unfold begin in H.
  destruct (contexts (handler s) !! name) as [c|] eqn:Hctx.
  - unfold acquire in H.
    destruct (context_semaphores (handler s) !! name) as [sem|] eqn:Hsem;
      [|cbn in H; by simplify_eq].
    destruct (locked sem (handler s)) eqn:Hl.
    + cbn in H. rewrite Hl in H. by simplify_eq.
    + cbn [drive resume] in H.
      destruct (context_new_page eng); [by simplify_eq|].
      destruct (new_page_effect name c (take_unit sem (handler s)) sem)
        as (Hpage & Hcr & Hs & Hc).
      destruct (new_page name c (take_unit sem (handler s))) as [pg st'].
      cbn in H, Hpage, Hcr, Hs, Hc. simplify_eq. cbn [handler on_handler].
      exists sem. rewrite Hc, Hs. split; [done|]. split; [done|].
      cbn. by rewrite alter_alter_id, app_nil_r.
  - cbn [drive resume] in H.
    destruct (browser_new_context eng); [by simplify_eq|].
    unfold _create_browser_context, new_semaphore, acquire in H.
    cbn [context_semaphores set_context_semaphores set_semaphores set_contexts
         set_stats set_browser_contexts max_pages_per_context semaphores] in H.
    rewrite lookup_insert_eq in H.
    set (sem := length (semaphores (handler s))) in *.
    match type of H with context [locked sem ?st] => set (stb := st) in * end.
    destruct (locked sem stb) eqn:Hl.
    + cbn [drive resume] in H. rewrite Hl in H. by simplify_eq.
    + cbn [drive resume] in H.
      destruct (context_new_page eng); [by simplify_eq|].
      match type of H with context [new_page name ?c _] =>
        destruct (new_page_effect name c (take_unit sem stb) sem)
          as (Hpage & Hcr & Hs & Hc);
        destruct (new_page name c (take_unit sem stb)) as [pg st']
      end.
      cbn in H, Hpage, Hcr, Hs, Hc. simplify_eq. cbn [handler on_handler].
      exists sem. rewrite Hc, Hs. split; [by rewrite lookup_insert_eq|].
      split; [done|]. subst sem. by rewrite !alter_last, Z.sub_add.
Qed.

(** The path the [except] clause covers: when
    [_download_request_with_page] raises an exception of the [Exception]
    hierarchy and [page.close()] succeeds, the caller of
    [_download_request] receives that same exception, the page is closed,
    and the handler is as after exactly one closing of the page from the
    state in which the guarded part started (none if the page was closed
    before). *)
Lemma except_clause_closes_tab request spider s page s1 e s2 :
  prepare eng request spider s = (Ret page, s1) ->
  _download_request_with_page libs eng request page s1 = (Raise e, s2) ->
  is_Exception e = true ->
  page_close eng = None ->
  exists s3,
    _download_request libs eng request spider s = (Raise e, s3)
    /\ is_closed page (handler s3) = true
    /\ frame (handler s3) = frame (page_closes page (handler s1))
    /\ meta s3 = meta s2 /\ page_method_objs s3 = page_method_objs s2.
Proof.
  intros Hp Hd He Hc. unfold _download_request.
  rewrite (bind_ret _ _ _ _ _ Hp). unfold try_except. rewrite Hd, He.
  destruct (close_and_reraise eng page e s2) as [o s3] eqn:Hr.
  apply close_and_reraise_effect in Hr as (-> & Hf & Hm & Ho); [|done].
  assert (frame (handler s3) = frame (page_closes page (handler s1))) as Hf3.
  { rewrite Hf. apply download_with_page_effect in Hd.
    destruct (playwright_include_page (meta s1)).
    - destruct Hd as [Hd _]. by rewrite !frame_page_closes, Hd.
    - destruct Hd as [Hd|[Hd _]].
      + rewrite frame_page_closes, Hd, <- frame_page_closes.
        by rewrite (page_closes_closed page (page_closes page _))
          by apply is_closed_page_closes.
      + by rewrite !frame_page_closes, Hd. }
  exists s3. repeat split; try done.
  rewrite (is_closed_frame_eq page _ _ Hf3). apply is_closed_page_closes.
Qed.

Lemma run_page_method_unresolved page i l s :
  page_getattr eng (method (page_method_objs s !!! l)) = None ->
  run_page_method eng page i (page_method l) s
  = (Ret tt, on_handler (set_log (fun lg => lg ++ [warn_no_method l])) s).
Proof.
  intros H. unfold run_page_method, bind at 1, gets at 1. by rewrite H.
Qed.

Lemma run_page_method_resolved page i l s f v :
  page_getattr eng (method (page_method_objs s !!! l)) = Some f ->
  f i (args (page_method_objs s !!! l)) (kwargs (page_method_objs s !!! l)) = inr v ->
  page_wait_for_load_state eng i (default_navigation_timeout (handler s)) = None ->
  run_page_method eng page i (page_method l) s
  = (Ret tt, on_objs (alter (set_result v) l) s).
Proof.
  intros Hg Hf Hw. unfold run_page_method, bind at 1, gets at 1. rewrite Hg.
  unfold bind, await_value, modify, gets, await, ret. rewrite Hf. simpl.
  by rewrite Hw.
Qed.

Lemma lookup_total_eq (l1 l2 : list PageMethod) (i : nat) :
  l1 !! i = l2 !! i -> l1 !!! i = l2 !!! i.
Proof. intros H. by rewrite !list_lookup_total_alt, H. Qed.

Lemma run_page_method_step page i item s :
  (forall l, item = page_method l -> (l < length (page_method_objs s))%nat) ->
  (forall l f,
      item = page_method l ->
      page_getattr eng (method (page_method_objs s !!! l)) = Some f ->
      exists v,
        f i (args (page_method_objs s !!! l))
          (kwargs (page_method_objs s !!! l)) = inr v
        /\ page_wait_for_load_state eng i
             (default_navigation_timeout (handler s)) = None) ->
  exists s1,
    run_page_method eng page i item s = (Ret tt, s1)
    /\ meta s1 = meta s /\ frame (handler s1) = frame (handler s)
    /\ length (page_method_objs s1) = length (page_method_objs s)
    /\ (forall r, r ∈ log (handler s) -> r ∈ log (handler s1))
    /\ (forall l, item <> page_method l ->
          page_method_objs s1 !! l = page_method_objs s !! l)
    /\ (forall l, item = page_method l ->
          match page_getattr eng (method (page_method_objs s !!! l)) with
          | None =>
              page_method_objs s1 !! l = page_method_objs s !! l
              /\ warn_no_method l ∈ log (handler s1)
          | Some f =>
              exists v,
                f i (args (page_method_objs s !!! l))
                  (kwargs (page_method_objs s !!! l)) = inr v
                /\ page_method_objs s1 !! l
                   = Some (set_result v (page_method_objs s !!! l))
          end).
Proof.
  intros Hlen Hok. destruct item as [l|r].
  - destruct (page_getattr eng (method (page_method_objs s !!! l)))
      as [f|] eqn:Hg.
    + destruct (Hok l f eq_refl Hg) as (v & Hv & Hw).
      eexists. split; [by apply (run_page_method_resolved _ _ _ _ f v)|].
      split; [done|]. split; [done|]. split; [by cbn; rewrite length_alter|].
      split; [done|]. split.
      * intros l' Hne. cbn. rewrite list_lookup_alter_ne; [done|congruence].
      * intros l' [= <-]. rewrite Hg. exists v. split; [done|]. cbn.
        rewrite list_lookup_alter_eq.
        destruct (lookup_lt_is_Some_2 _ _ (Hlen l eq_refl)) as [pm Hpm].
        by rewrite (list_lookup_total_correct _ _ _ Hpm), Hpm.
    + eexists. split; [by apply run_page_method_unresolved|].
      split; [done|]. split; [done|]. split; [done|]. split; [|split].
      * intros r Hr. cbn. set_solver.
      * done.
      * intros l' [= <-]. rewrite Hg. split; [done|]. cbn. set_solver.
  - eexists. split; [reflexivity|].
    split; [done|]. split; [done|]. split; [done|]. split; [|split].
    + intros r' Hr. cbn. set_solver.
    + done.
    + intros l' [=].
Qed.

Lemma bind_unit_ret (m : M unit) s : bind m (fun _ => ret tt) s = m s.
Proof. unfold bind, ret. by destruct (m s) as [[[]|e|] s1]. Qed.

Lemma bind_assoc {A B C} (m : M A) (k : A -> M B) (h : B -> M C) s :
  bind (bind m k) h s = bind m (fun a => bind (k a) h) s.
Proof. unfold bind. by destruct (m s) as [[a|e|] s1]. Qed.

Lemma bind_ext {A B} (m : M A) (k1 k2 : A -> M B) s :
  (forall a s1, k1 a s1 = k2 a s1) -> bind m k1 s = bind m k2 s.
Proof. intros H. unfold bind. by destruct (m s) as [[a|e|] s1]. Qed.

(** The loop over the actions, one more action at the end. *)
Lemma run_page_methods_snoc page items item i s :
  run_page_methods eng page i (items ++ [item]) s
  = bind (run_page_methods eng page i items)
      (fun _ => run_page_method eng page (i + length items) item) s.
Proof.
  revert i s. induction items as [|x items IH]; intros i s.
  - cbn [app run_page_methods length]. rewrite Nat.add_0_r.
    by rewrite bind_unit_ret.
  - cbn [app run_page_methods length]. rewrite bind_assoc.
    apply bind_ext. intros _ s1. rewrite IH.
    by replace (S i + length items)%nat with (i + S (length items))%nat by lia.
Qed.

Lemma set_result_same_call v (a b : PageMethod) :
  method a = method b -> args a = args b -> kwargs a = kwargs b ->
  set_result v a = set_result v b.
Proof. unfold set_result. by intros -> -> ->. Qed.

Lemma run_page_methods_results page items s :
  (forall j l, items !! j = Some (page_method l) ->
     (l < length (page_method_objs s))%nat) ->
  (forall j l f,
      items !! j = Some (page_method l) ->
      page_getattr eng (method (page_method_objs s !!! l)) = Some f ->
      exists v,
        f j (args (page_method_objs s !!! l))
          (kwargs (page_method_objs s !!! l)) = inr v
        /\ page_wait_for_load_state eng j
             (default_navigation_timeout (handler s)) = None) ->
  exists s',
    run_page_methods eng page 0 items s = (Ret tt, s')
    /\ meta s' = meta s
    /\ frame (handler s') = frame (handler s)
    /\ length (page_method_objs s') = length (page_method_objs s)
    /\ (forall r, r ∈ log (handler s) -> r ∈ log (handler s'))
    /\ (forall l, method (page_method_objs s' !!! l)
                  = method (page_method_objs s !!! l)
                  /\ args (page_method_objs s' !!! l)
                     = args (page_method_objs s !!! l)
                  /\ kwargs (page_method_objs s' !!! l)
                     = kwargs (page_method_objs s !!! l))
    /\ (forall l, page_getattr eng (method (page_method_objs s !!! l)) = None ->
          page_method_objs s' !! l = page_method_objs s !! l)
    /\ (forall l, (forall j, items !! j <> Some (page_method l)) ->
          page_method_objs s' !! l = page_method_objs s !! l)
    /\ (forall j l,
          items !! j = Some (page_method l) ->
          match page_getattr eng (method (page_method_objs s !!! l)) with
          | None => warn_no_method l ∈ log (handler s')
          | Some f =>
              exists j' v,
                (j <= j')%nat
                /\ items !! j' = Some (page_method l)
                /\ (forall k, (j' < k)%nat -> items !! k <> Some (page_method l))
                /\ f j' (args (page_method_objs s !!! l))
                     (kwargs (page_method_objs s !!! l)) = inr v
                /\ page_method_objs s' !! l
                   = Some (set_result v (page_method_objs s !!! l))
          end)
    /\ (forall j r, items !! j = Some (not_page_method r) ->
          warn_not_page_method r ∈ log (handler s')).
Proof.
  induction items as [|item items IH] using rev_ind; intros Hlen Hok.
  - exists s. cbn. repeat split; try done.
  - destruct IH as (sP & HrunP & HmP & HfP & HlenP & HlogP & HcallP & HnoneP
                    & HfreshP & HresP & HwarnP).
    { intros j l Hj. apply (Hlen j). by apply lookup_app_l_Some. }
    { intros j l f Hj. apply (Hok j). by apply lookup_app_l_Some. }
    set (n := length items).
    assert ((items ++ [item]) !! n = Some item) as Hn
      by (subst n; by rewrite lookup_app_r, Nat.sub_diag).
    assert (default_navigation_timeout (handler sP)
            = default_navigation_timeout (handler s)) as Ht
      by exact (f_equal default_navigation_timeout HfP).
    destruct (run_page_method_step page n item sP)
      as (s' & Hrun1 & Hm1 & Hf1 & Hlen1 & Hlog1 & Hother1 & Hthis1).
    { intros l ->. rewrite HlenP. by apply (Hlen n). }
    { intros l f -> Hg. destruct (HcallP l) as (Hmm & Ha & Hk).
      rewrite Hmm in Hg. rewrite Ha, Hk, Ht. by apply (Hok n). }
    assert (forall l, item = page_method l ->
              match page_getattr eng (method (page_method_objs s !!! l)) with
              | None =>
                  page_method_objs s' !! l = page_method_objs sP !! l
                  /\ warn_no_method l ∈ log (handler s')
              | Some f =>
                  exists v,
                    f n (args (page_method_objs s !!! l))
                      (kwargs (page_method_objs s !!! l)) = inr v
                    /\ page_method_objs s' !! l
                       = Some (set_result v (page_method_objs s !!! l))
              end) as Hthis.
    { intros l Hl. specialize (Hthis1 l Hl).
      destruct (HcallP l) as (Hmm & Ha & Hk). rewrite Hmm, Ha, Hk in Hthis1.
      destruct (page_getattr eng _); [|done].
      destruct Hthis1 as (v & Hv & Hs'). exists v. split; [done|].
      rewrite Hs'. f_equal. by apply set_result_same_call. }
    clear Hthis1.
    exists s'. split.
    { rewrite run_page_methods_snoc, (bind_ret _ _ _ _ _ HrunP). exact Hrun1. }
    split; [congruence|]. split; [congruence|]. split; [congruence|].
    split; [auto|]. split.
    { (* the call of every object is as it was *)
      intros l. destruct (HcallP l) as (Hmm & Ha & Hk).
      assert (page_method_objs s' !! l = page_method_objs sP !! l
              \/ exists v, page_method_objs s' !! l
                           = Some (set_result v (page_method_objs s !!! l)))
        as [Hsame|(v & Hv)].
      { destruct item as [l'|r]; [|left; by apply Hother1].
        destruct (decide (l' = l)) as [->|Hne];
          [|left; apply Hother1; congruence].
        specialize (Hthis l eq_refl).
        destruct (page_getattr eng _); [|left; tauto].
        destruct Hthis as (v & _ & Hv). right. by exists v. }
      - by rewrite (lookup_total_eq _ _ _ Hsame).
      - by rewrite (list_lookup_total_correct _ _ _ Hv). }
    split.
    { (* an object whose method does not resolve is never written *)
      intros l Hg. rewrite <- (HnoneP l Hg).
      destruct item as [l'|r]; [|by apply Hother1].
      destruct (decide (l' = l)) as [->|Hne]; [|apply Hother1; congruence].
      specialize (Hthis l eq_refl). rewrite Hg in Hthis. tauto. }
    split.
    { intros l Hfresh. rewrite <- (HfreshP l).
      - apply Hother1. intros ->. by apply (Hfresh n).
      - intros j Hj. apply (Hfresh j). by apply lookup_app_l_Some. }
    split.
    { intros j l Hj.
      assert (item = page_method l \/ item <> page_method l) as [Hitem|Hitem].
      { destruct item as [l'|r]; [|by right].
        destruct (decide (l' = l)) as [->|Hne]; [by left|right; congruence]. }
      - (* the last action is on the same object *)
        specialize (Hthis l Hitem).
        destruct (page_getattr eng (method (page_method_objs s !!! l)))
          as [f|]; [|tauto].
        destruct Hthis as (v & Hv & Hs').
        exists n, v. split.
        { apply lookup_lt_Some in Hj. rewrite length_app in Hj. cbn in Hj.
          subst n. lia. }
        split; [by rewrite Hn, Hitem|]. split; [|done].
        intros k Hk. rewrite lookup_ge_None_2; [done|].
        rewrite length_app. cbn. subst n. lia.
      - (* the last action is on something else *)
        assert (items !! j = Some (page_method l)) as Hj'.
        { apply lookup_app_Some in Hj as [Hj|[_ Hj]]; [done|].
          destruct (j - length items)%nat; cbn in Hj; [|done]. congruence. }
        specialize (HresP j l Hj').
        destruct (page_getattr eng (method (page_method_objs s !!! l)))
          as [f|]; [|auto].
        destruct HresP as (j' & v & Hle & Hj'' & Hlast & Hv & Hs').
        exists j', v. split; [done|].
        split; [by apply lookup_app_l_Some|]. split; [|split; [done|]].
        + intros k Hk Hk'.
          apply lookup_app_Some in Hk' as [Hk'|[_ Hk']]; [by eapply Hlast|].
          destruct (k - length items)%nat; cbn in Hk'; [|done]. congruence.
        + rewrite <- Hs'. apply Hother1. congruence. }
    intros j r Hj.
    apply lookup_app_Some in Hj as [Hj|[_ Hj]]; [by eauto|].
    destruct (j - length items)%nat; cbn in Hj; [|done].
    injection Hj as ->. cbn in Hrun1. unfold warning, modify in Hrun1.
    injection Hrun1 as <-. cbn. apply elem_of_app. right.
    by apply list_elem_of_singleton.
Qed.

Lemma map_snd_fmap {A B} (d : list (A * B)) : map snd d = d.*2.
Proof. induction d as [|x d IH]; [done|]. cbn. by rewrite IH. Qed.

(** What [_apply_page_methods] iterates over, when the request carries
    its actions under [playwright_page_methods]. *)
Lemma apply_page_methods_items page s (items : list Item) :
  (playwright_page_methods (meta s) = Some (pm_seq items)
   \/ exists d, playwright_page_methods (meta s) = Some (pm_dict d)
                /\ items = map snd d) ->
  (items = [] -> playwright_page_coroutines (meta s) = None) ->
  _apply_page_methods eng page s = run_page_methods eng page 0 items s.
Proof.
  intros Hitems Hempty. unfold _apply_page_methods, bind at 1, gets at 1.
  destruct Hitems as [Hseq|(d & Hdict & ->)].
  - rewrite Hseq. destruct items as [|item items].
    + cbn [pm_truthy]. rewrite (Hempty eq_refl). reflexivity.
    + reflexivity.
  - rewrite Hdict. destruct d as [|kv d].
    + cbn [pm_truthy]. rewrite (Hempty eq_refl). reflexivity.
    + cbn [pm_truthy default]. unfold bind at 1, ret at 1.
      cbn [pm_values]. by rewrite map_snd_fmap.
Qed.

(** C6: the actions are the elements of the list the request carries
    or, for a dict, its values in order.  When the actions that resolve
    to a method of the page run without raising, [_apply_page_methods]
    returns normally whatever the number of actions that do not resolve:
    each of those is logged in a warning and its object is left as it
    was; every action that resolves, before or after, is run, and the
    result slot of its object holds what the last action on that object
    returned (the action itself when the object occurs once);
    [_download_request_with_page] goes on to assemble the response. *)
Theorem unresolved_action_is_skipped request page s (items : list Item) :
  (playwright_page_methods (meta s) = Some (pm_seq items)
   \/ exists d, playwright_page_methods (meta s) = Some (pm_dict d)
                /\ items = map snd d) ->
  (items = [] -> playwright_page_coroutines (meta s) = None) ->
  (forall j l, items !! j = Some (page_method l) ->
     (l < length (page_method_objs s))%nat) ->
  (forall j l f,
      items !! j = Some (page_method l) ->
      page_getattr eng (method (page_method_objs s !!! l)) = Some f ->
      exists v,
        f j (args (page_method_objs s !!! l))
          (kwargs (page_method_objs s !!! l)) = inr v
        /\ page_wait_for_load_state eng j
             (default_navigation_timeout (handler s)) = None) ->
  exists s',
    _apply_page_methods eng page s = (Ret tt, s')
    /\ (forall j l,
          items !! j = Some (page_method l) ->
          match page_getattr eng (method (page_method_objs s !!! l)) with
          | None =>
              page_method_objs s' !! l = page_method_objs s !! l
              /\ warn_no_method l ∈ log (handler s')
          | Some f =>
              exists j' v,
                (j <= j')%nat
                /\ items !! j' = Some (page_method l)
                /\ (forall k, (j' < k)%nat -> items !! k <> Some (page_method l))
                /\ f j' (args (page_method_objs s !!! l))
                     (kwargs (page_method_objs s !!! l)) = inr v
                /\ page_method_objs s' !! l
                   = Some (set_result v (page_method_objs s !!! l))
          end)
    /\ (forall j r, items !! j = Some (not_page_method r) ->
          warn_not_page_method r ∈ log (handler s'))
    /\ meta s' = meta s
    /\ frame (handler s') = frame (handler s)
    /\ (forall response,
          page_goto eng (req_url request) = inr response ->
          _download_request_with_page libs eng request page s
          = assemble libs eng page response (time eng).1 s').
Proof.
  intros Hitems Hempty Hlen Hok.
  pose proof (apply_page_methods_items page s items Hitems Hempty) as Happly.
  destruct (run_page_methods_results page items s Hlen Hok)
    as (s' & Hrun & Hm & Hf & _ & _ & _ & Hnone & _ & Hres & Hwarn).
  rewrite Hrun in Happly.
  exists s'. split; [exact Happly|]. split.
  { intros j l Hj. specialize (Hres j l Hj).
    destruct (page_getattr eng (method (page_method_objs s !!! l))) as [f|] eqn:Hg;
      [exact Hres|].
    split; [by apply Hnone|exact Hres]. }
  split; [exact Hwarn|]. split; [exact Hm|]. split; [exact Hf|].
  intros response Hg. unfold _download_request_with_page.
  unfold bind at 1, await_value. rewrite Hg. unfold ret.
  by rewrite (bind_ret _ _ _ _ _ Happly).
Qed.

End FetchProperties.

Section Evaluations.
Import Handler Fetch.

Lemma tab_closed_unless_kept_witness :
  let s1 := (prepare Sample.engine Sample.request Sample.spider
               (Sample.store false)).2 in
  let r := _download_request_with_page Sample.libs Sample.engine
             Sample.request 0 s1 in
  is_closed 0 (handler s1) = false
  /\ is_closed 0 (handler r.2) = true.
Proof.
  intros s1 r. split; [vm_compute; reflexivity|].
  destruct r as [[resp|e|] s'] eqn:Hr; [|vm_compute in Hr; discriminate..].
  destruct (tab_closed_unless_kept Sample.libs Sample.engine Sample.request
              0%nat s1 resp s' Hr) as (Hc & _ & _); [vm_compute; reflexivity|].
  exact Hc.
Defined.

Lemma unresolved_action_is_skipped_witness :
  exists s',
    _apply_page_methods Sample.engine 0 Scenarios.listed = (Ret tt, s')
    /\ page_method_objs s' !! 0%nat = page_method_objs Scenarios.listed !! 0%nat
    /\ warn_no_method 0 ∈ log (handler s')
    /\ warn_not_page_method "page.title()" ∈ log (handler s')
    /\ result <$> page_method_objs s' !! 1%nat
       = Some (Some (VStr "Example Domain")).
Proof.
  destruct (unresolved_action_is_skipped Sample.libs Sample.engine
              Sample.request 0%nat Scenarios.listed
              [page_method 0; page_method 1; not_page_method "page.title()";
               page_method 1])
    as (s' & Hrun & Hres & Hwarn & _).
  - left. reflexivity.
  - discriminate.
  - intros [|[|[|[|j]]]] l Hj; vm_compute in Hj; try discriminate;
      injection Hj as <-; vm_compute; lia.
  - intros [|[|[|[|j]]]] l f Hj Hf; vm_compute in Hj; try discriminate;
      injection Hj as <-; vm_compute in Hf; try discriminate;
      injection Hf as <-; eexists; split; reflexivity.
  - exists s'. split; [exact Hrun|].
    pose proof (Hres 0%nat 0%nat eq_refl) as H0.
    pose proof (Hres 1%nat 1%nat eq_refl) as H1.
    destruct (page_getattr Sample.engine
                (method (page_method_objs Scenarios.listed !!! 0%nat)))
      as [f|] eqn:Hg0; vm_compute in Hg0; [discriminate|].
    destruct (page_getattr Sample.engine
                (method (page_method_objs Scenarios.listed !!! 1%nat)))
      as [f|] eqn:Hg1; vm_compute in Hg1; [|discriminate].
    injection Hg1 as <-. destruct H0 as [H0 H0'].
    destruct H1 as (j' & v & _ & _ & _ & Hv & H1). injection Hv as <-.
    split; [exact H0|]. split; [exact H0'|].
    split; [exact (Hwarn 2%nat _ eq_refl)|]. rewrite H1. reflexivity.
Defined.

(** The fetch of the sample, end to end: the response has the status of
    the navigation, no Content-Encoding header, the rendered text as its
    body in the announced encoding, and the second action holds the
    title. *)
Example fetch_example :
  let r := _download_request Sample.libs Sample.engine Sample.request
             Sample.spider (Sample.store false) in
  match r.1 with
  | Ret resp =>
      resp_status resp = 200
      /\ resp_headers resp !! Sample.normkey "Content-Encoding" = None
      /\ resp_encoding resp = "cp1252"%string
      /\ Sample.bytes_decode (resp_body resp) (resp_encoding resp)
         = Some "<html><title>Example Domain</title></html>"%string
  | _ => False
  end
  /\ result <$> page_method_objs r.2 !! 1%nat
     = Some (Some (VStr "Example Domain"))
  /\ is_closed 0 (handler r.2) = true
  /\ semaphores (handler r.2) = [2].
Proof. vm_compute. repeat split; reflexivity. Qed.

(** C4, on the code: [page.route] raises after the page was acquired (the
    browser reports "Target closed"); the [try] of [_download_request]
    starts after that call, so the exception reaches the caller with the
    page still open and its unit of the semaphore still taken (1 left of
    2), where the claim has the page closed and the unit given back. *)
Theorem route_failure_leaves_tab_open :
  let r := _download_request Sample.libs Sample.engine_route_fails
             Sample.request Sample.spider (Sample.store false) in
  r.1 = Raise (Exc "Error" "Target closed")
  /\ is_closed 0 (handler r.2) = false
  /\ max_pages_per_context (handler r.2) = 2
  /\ semaphores (handler r.2) = [1].
Proof. vm_compute. repeat split; reflexivity. Qed.

(** C1, on the code: two fetches that ask for the session "default" while
    it does not exist yet each create it, the second registration
    replaces the context and the semaphore of the first; once the first
    page is closed its unit goes to the new semaphore, and a third fetch
    opens a second page in a context whose cap is 1. *)
Theorem lazy_session_race_exceeds_cap :
  exists s,
    run (launched 1) lazy_session_race = Some s
    /\ max_pages_per_context (sys_state s) = 1
    /\ contexts (sys_state s) !! "default" = Some 1%nat
    /\ context_semaphores (sys_state s) !! "default" = Some 1%nat
    /\ context_pages 1 (sys_state s) = 2
    /\ sem_value 1 (sys_state s) = 0.
Proof.
  eexists. split; [vm_compute; reflexivity|].
  vm_compute. repeat split; reflexivity.
Qed.

(** The release callback is registered for "close" and for "crash": a
    page that reports a crash and is closed afterwards gives two units
    back for the one it took. *)
Example crash_then_close_releases_twice :
  exists s,
    run (launched 1)
      [ev_create_page "default"; ev_resume 0 None; ev_resume 0 None;
       ev_page_crash 0; ev_page_close 0] = Some s
    /\ context_pages 0 (sys_state s) = 0
    /\ sem_value 0 (sys_state s) = 2.
Proof.
  eexists. split; [vm_compute; reflexivity|].
  vm_compute. split; reflexivity.
Qed.

End Evaluations.

(** * More of the handler *)

(** ** More on request interception *)
Section MoreInterception.
Import Interceptor.
Variable normkey : string -> string.
Variable bytes_decode : bytes -> string -> option string.
Variable self : Settings.

(** X1: a navigation request that is not aborted, with a body that cannot
    be decoded with the encoding of the Scrapy request: the handler
    raises UnicodeDecodeError and makes no call on the route (the request
    is neither continued nor aborted); the headers of the Scrapy request
    have been replaced by then, and the statistics are as they were. *)
Theorem undecodable_body_is_not_sent method scrapy_headers b encoding req st :
  aborts self req = false ->
  is_navigation_request req = true ->
  bytes_decode b encoding = None ->
  exists st',
    _request_handler normkey bytes_decode self method scrapy_headers (Some b)
      encoding req st = (inl UnicodeDecodeError, st')
    /\ route_calls st' = route_calls st
    /\ stats st' = stats st
    /\ heap st' !! scrapy_headers
       = Some (Headers.make normkey
                 (process_request_headers self (browser_type self) req
                    (default ∅ (heap st !! scrapy_headers)))).
Proof.
  intros Ha Hn Hd. rewrite (not_aborts_handler _ _ _ _ _ _ _ _ _ Ha).
  cbv zeta. rewrite Hn, Hd. eexists. split; [reflexivity|].
  cbn [route_calls stats heap]. by rewrite lookup_insert_eq.
Qed.

(** X2: when the handler returns it has made exactly one call on the
    route: [abort] when the abort predicate selects the request,
    [continue_] otherwise.  (The calls on the route are taken to return;
    what the handler leaves when one of them raises is outside the
    model.) *)
Theorem one_route_call_per_request method scrapy_headers body encoding req st st' :
  _request_handler normkey bytes_decode self method scrapy_headers body
    encoding req st = (inr tt, st') ->
  exists call,
    route_calls st' = route_calls st ++ [call]
    /\ (call = abort <-> aborts self req = true).
Proof.
  destruct (aborts self req) eqn:Ha.
  - unfold aborts in Ha. unfold _request_handler. rewrite Ha.
    intros [= <-]. exists abort. by split.
  - rewrite (not_aborts_handler _ _ _ _ _ _ _ _ _ Ha). cbv zeta.
    destruct (is_navigation_request req).
    + destruct body as [b|].
      * destruct (bytes_decode b encoding); [|discriminate].
        intros [= <-]. eexists. split; [reflexivity|].
        split; [discriminate|done].
      * intros [= <-]. eexists. split; [reflexivity|].
        split; [discriminate|done].
    + intros [= <-]. eexists. split; [reflexivity|].
      split; [discriminate|done].
Qed.



End MoreInterception.

(** ** Counters *)
Section CounterProperties.
Import Interceptor Counters.

Lemma default_inc_value (key k : string) (stats : gmap string Z) :
  default 0 (inc_value key stats !! k)
  = default 0 (stats !! k) + (if decide (key = k) then 1 else 0).
Proof.
  unfold inc_value. destruct (decide (key = k)) as [->|Hne].
  - by rewrite lookup_insert_eq.
  - rewrite lookup_insert_ne by done. lia.
Qed.

Lemma how_many_cons {A} (test : A -> bool) (x : A) (l : list A) :
  how_many test (x :: l) = (if test x then 1 else 0) + how_many test l.
Proof.
  unfold how_many. cbn [List.filter]. destruct (test x); cbn [length]; lia.
Qed.

Lemma how_many_app {A} (test : A -> bool) (l1 l2 : list A) :
  how_many test (l1 ++ l2) = how_many test l1 + how_many test l2.
Proof.
  induction l1 as [|x l1 IH]; [unfold how_many; cbn; lia|].
  cbn [app]. rewrite !how_many_cons, IH. lia.
Qed.

Lemma request_step (r : PlaywrightRequest) (stats : gmap string Z) :
  default 0 (_increment_request_stats r stats !! "playwright/request_count")
  = default 0 (stats !! "playwright/request_count") + 1
  /\ default 0 (_increment_request_stats r stats
                 !! "playwright/request_count/navigation")
     = default 0 (stats !! "playwright/request_count/navigation")
       + (if is_navigation_request r then 1 else 0)
  /\ (forall m,
        default 0 (_increment_request_stats r stats
                     !! ("playwright/request_count/method/" +:+ m))
        = default 0 (stats !! ("playwright/request_count/method/" +:+ m))
          + (if String.eqb (pr_method r) m then 1 else 0))
  /\ (forall t,
        default 0 (_increment_request_stats r stats
                     !! ("playwright/request_count/resource_type/" +:+ t))
        = default 0 (stats !! ("playwright/request_count/resource_type/" +:+ t))
          + (if String.eqb (pr_resource_type r) t then 1 else 0)).
Proof.
  unfold _increment_request_stats. cbv zeta.
  repeat split.
  - destruct (is_navigation_request r); rewrite !default_inc_value;
      repeat case_decide; simplify_eq; lia.
  - destruct (is_navigation_request r); rewrite !default_inc_value;
      repeat case_decide; simplify_eq; lia.
  - intros m. destruct (String.eqb_spec (pr_method r) m) as [->|Hne];
      destruct (is_navigation_request r); rewrite !default_inc_value;
      repeat case_decide; simplify_eq; lia.
  - intros t. destruct (String.eqb_spec (pr_resource_type r) t) as [->|Hne];
      destruct (is_navigation_request r); rewrite !default_inc_value;
      repeat case_decide; simplify_eq; lia.
Qed.

Lemma response_step (r : PlaywrightRequest) (stats : gmap string Z) :
  default 0 (_increment_response_stats r stats !! "playwright/response_count")
  = default 0 (stats !! "playwright/response_count") + 1
  /\ (forall m,
        default 0 (_increment_response_stats r stats
                     !! ("playwright/response_count/method/" +:+ m))
        = default 0 (stats !! ("playwright/response_count/method/" +:+ m))
          + (if String.eqb (pr_method r) m then 1 else 0))
  /\ (forall t,
        default 0 (_increment_response_stats r stats
                     !! ("playwright/response_count/resource_type/" +:+ t))
        = default 0 (stats !! ("playwright/response_count/resource_type/" +:+ t))
          + (if String.eqb (pr_resource_type r) t then 1 else 0)).
Proof.
  unfold _increment_response_stats. cbv zeta.
  repeat split.
  - rewrite !default_inc_value; repeat case_decide; simplify_eq; lia.
  - intros m. destruct (String.eqb_spec (pr_method r) m) as [->|Hne];
      rewrite !default_inc_value; repeat case_decide; simplify_eq; lia.
  - intros t. destruct (String.eqb_spec (pr_resource_type r) t) as [->|Hne];
      rewrite !default_inc_value; repeat case_decide; simplify_eq; lia.
Qed.

(** X4: after the "request" callback has run for each request of a list,
    the counter playwright/request_count has grown by the length of the
    list, the counter of a method and the counter of a resource type by
    the number of requests with that method or type, and the navigation
    counter by the number of navigation requests. *)
Theorem request_counters_count (requests : list PlaywrightRequest)
    (stats : gmap string Z) :
  let stats' := count_requests requests stats in
  default 0 (stats' !! "playwright/request_count")
  = default 0 (stats !! "playwright/request_count")
    + Z.of_nat (length requests)
  /\ default 0 (stats' !! "playwright/request_count/navigation")
     = default 0 (stats !! "playwright/request_count/navigation")
       + how_many is_navigation_request requests
  /\ (forall m,
        default 0 (stats' !! ("playwright/request_count/method/" +:+ m))
        = default 0 (stats !! ("playwright/request_count/method/" +:+ m))
          + how_many (fun r => String.eqb (pr_method r) m) requests)
  /\ (forall t,
        default 0 (stats' !! ("playwright/request_count/resource_type/" +:+ t))
        = default 0 (stats !! ("playwright/request_count/resource_type/" +:+ t))
          + how_many (fun r => String.eqb (pr_resource_type r) t) requests).
Proof.
  cbv zeta. unfold count_requests. revert stats.
  induction requests as [|r requests IH]; intros stats.
  - cbn [foldl length]. unfold how_many. cbn. repeat split; intros; lia.
  - cbn [foldl]. destruct (IH (_increment_request_stats r stats))
      as (H1 & H2 & H3 & H4).
    destruct (request_step r stats) as (S1 & S2 & S3 & S4).
    repeat split.
    + rewrite H1, S1. cbn [length]. lia.
    + rewrite H2, S2, how_many_cons. lia.
    + intros m. rewrite H3, S3, how_many_cons. lia.
    + intros t. rewrite H4, S4, how_many_cons. lia.
Qed.

(** X5: after the "response" callback has run for each response of a
    list, playwright/response_count has grown by the length of the list
    and the counter of a method or of a resource type by the number of
    responses whose request has that method or type; there is no
    navigation counter for responses. *)
Theorem response_counters_count (requests : list PlaywrightRequest)
    (stats : gmap string Z) :
  let stats' := count_responses requests stats in
  default 0 (stats' !! "playwright/response_count")
  = default 0 (stats !! "playwright/response_count")
    + Z.of_nat (length requests)
  /\ (forall m,
        default 0 (stats' !! ("playwright/response_count/method/" +:+ m))
        = default 0 (stats !! ("playwright/response_count/method/" +:+ m))
          + how_many (fun r => String.eqb (pr_method r) m) requests)
  /\ (forall t,
        default 0 (stats' !! ("playwright/response_count/resource_type/" +:+ t))
        = default 0 (stats !! ("playwright/response_count/resource_type/" +:+ t))
          + how_many (fun r => String.eqb (pr_resource_type r) t) requests).
Proof.
  cbv zeta. unfold count_responses. revert stats.
  induction requests as [|r requests IH]; intros stats.
  - cbn [foldl length]. unfold how_many. cbn. repeat split; intros; lia.
  - cbn [foldl]. destruct (IH (_increment_response_stats r stats))
      as (H1 & H3 & H4).
    destruct (response_step r stats) as (S1 & S3 & S4).
    repeat split.
    + rewrite H1, S1. cbn [length]. lia.
    + intros m. rewrite H3, S3, how_many_cons. lia.
    + intros t. rewrite H4, S4, how_many_cons. lia.
Qed.

End CounterProperties.

(** ** More on the handler state *)
Section MoreHandler.
Import Handler.

(** X6: [_get_total_page_count] leaves in
    playwright/page_count/max_concurrent the larger of the value that
    was there and the count it returns (the count when there was none);
    the count is not negative, and no other statistic and nothing else of
    the handler changes. *)
Theorem total_page_count_keeps_maximum (st : State) :
  let count := (_get_total_page_count st).1 in
  let st' := (_get_total_page_count st).2 in
  let key := "playwright/page_count/max_concurrent"%string in
  0 <= count
  /\ stats st' !! key
     = Some (match stats st !! key with
             | Some m => Z.max m count
             | None => count
             end)
  /\ (forall k, k <> key -> stats st' !! k = stats st !! k)
  /\ set_stats (fun _ => ∅) st' = set_stats (fun _ => ∅) st.
Proof.
  cbv zeta. unfold _get_total_page_count, get_value. cbn [fst snd].
  set (count := foldr Z.add 0 _).
  assert (0 <= count) as Hc.
  { subst count. generalize (map_to_list (contexts st)).
    intros l. induction l as [|x l IH]; cbn; [lia|].
    unfold context_pages at 1. lia. }
  split; [exact Hc|].
  destruct (stats st !! "playwright/page_count/max_concurrent") as [m|] eqn:Hm.
  - case_bool_decide.
    + cbn. rewrite lookup_insert_eq. repeat split.
      * f_equal. lia.
      * intros k Hk. by rewrite lookup_insert_ne.
    + rewrite Hm. repeat split. f_equal. lia.
  - cbn. rewrite lookup_insert_eq. repeat split.
    intros k Hk. by rewrite lookup_insert_ne.
Qed.

(** X7: the "close" callback of a context removes its session from both
    dicts and leaves the other sessions and every semaphore alone;
    afterwards the release callback of a page of that session, and a
    second run of the callback itself, change nothing. *)
Theorem closed_session_is_forgotten (name : string) (st : State) :
  let st' := run_callback (close_browser_context_callback name) st in
  contexts st' !! name = None
  /\ context_semaphores st' !! name = None
  /\ run_callback (close_page_callback name) st' = st'
  /\ run_callback (close_browser_context_callback name) st' = st'
  /\ semaphores st' = semaphores st
  /\ (forall other, other <> name ->
        contexts st' !! other = contexts st !! other
        /\ context_semaphores st' !! other = context_semaphores st !! other).
Proof.
  cbv zeta. cbn. rewrite !lookup_delete_eq. repeat split.
  - unfold set_context_semaphores, set_contexts. cbn.
    by rewrite !delete_delete_eq.
  - by rewrite lookup_delete_ne.
  - by rewrite lookup_delete_ne.
Qed.

End MoreHandler.

(** ** Sessions: launch, cap, crash and close *)
Section Sessions.
Import Handler Lifecycle.

Lemma frame_get_total_page_count st :
  frame (_get_total_page_count st).2 = frame st.
Proof.
  unfold _get_total_page_count. cbn [snd].
  by destruct (match get_value _ _ with None => true | Some m => _ end).
Qed.

Lemma pages_set_page f i st : pages (set_page f i st) = alter f i (pages st).
Proof. reflexivity. Qed.

Lemma frame_set_page f i st : frame (set_page f i st) = set_page f i (frame st).
Proof. reflexivity. Qed.

Lemma frame_set_pages f st : frame (set_pages f st) = set_pages f (frame st).
Proof. reflexivity. Qed.

Lemma set_page_last f x st :
  set_page f (length (pages st)) (set_pages (fun l => l ++ [x]) st)
  = set_pages (fun l => l ++ [f x]) st.
Proof. unfold set_page, set_pages. cbn. by rewrite alter_last. Qed.

Lemma new_page_spec (name : string) (context : nat) (st : State) :
  (new_page name context st).1 = length (pages st)
  /\ exists p,
       frame (new_page name context st).2
       = frame (set_pages (fun l => l ++ [p]) st)
       /\ page_context p = context
       /\ page_closed p = false
       /\ page_listeners p = page_callbacks name
       /\ page_routes p = [].
Proof.
  split; [reflexivity|]. unfold new_page. cbn [snd].
  set (p0 := {| page_context := context; page_closed := false;
                page_listeners := []; page_routes := [];
                page_navigation_timeout := None |}).
  set (st1 := (_get_total_page_count _).2).
  assert (frame st1 = frame (set_pages (fun l => l ++ [p0]) st)) as H1.
  { subst st1. by rewrite frame_get_total_page_count. }
  assert (default_navigation_timeout st1 = default_navigation_timeout st) as Ht
    by exact (f_equal default_navigation_timeout H1).
  rewrite Ht. clear Ht.
  exists {| page_context := context; page_closed := false;
            page_listeners := page_callbacks name; page_routes := [];
            page_navigation_timeout := default_navigation_timeout st |}.
  split; [|done].
  rewrite !frame_set_page.
  change (length (pages st)) with (length (pages (frame st))).
  destruct (default_navigation_timeout st) as [t|];
    [rewrite frame_set_page|]; rewrite H1, !frame_set_pages, !set_page_last;
    reflexivity.
Qed.

(** *** Counting *)

Lemma count_app_one {A} (P : A -> Prop) `{!forall x, Decision (P x)}
    (l : list A) (x : A) :
  Z.of_nat (length (filter P (l ++ [x])))
  = Z.of_nat (length (filter P l)) + (if decide (P x) then 1 else 0).
Proof.
  rewrite filter_app, length_app, filter_cons, filter_nil.
  destruct (decide (P x)); cbn [length]; lia.
Qed.

Lemma count_insert {A} (P : A -> Prop) `{!forall x, Decision (P x)}
    (l : list A) (i : nat) (x y : A) :
  l !! i = Some x ->
  Z.of_nat (length (filter P (<[i:=y]> l)))
  = Z.of_nat (length (filter P l))
    - (if decide (P x) then 1 else 0) + (if decide (P y) then 1 else 0).
Proof.
  revert i. induction l as [|z l IH]; intros [|i] Hi; simplify_eq/=.
  - rewrite !filter_cons.
    destruct (decide (P x)), (decide (P y)); cbn [length]; lia.
  - rewrite !filter_cons. specialize (IH i Hi).
    destruct (decide (P z)); cbn [length]; lia.
Qed.

Lemma alter_as_insert {A} (f : A -> A) (l : list A) (i : nat) (x : A) :
  l !! i = Some x -> alter f i l = <[i:=f x]> l.
Proof.
  revert i. induction l as [|z l IH]; intros [|i] Hi; simplify_eq/=; [done|].
  f_equal. by apply IH.
Qed.

Lemma sem_value_take_unit sem s st :
  (sem < length (semaphores st))%nat ->
  sem_value sem (take_unit s st)
  = sem_value sem st - (if decide (s = sem) then 1 else 0).
Proof.
  intros Hlt. unfold sem_value, take_unit. cbn.
  destruct (lookup_lt_is_Some_2 _ _ Hlt) as [v Hv].
  destruct (decide (s = sem)) as [->|Hne].
  - by rewrite list_lookup_alter_eq, Hv.
  - rewrite list_lookup_alter_ne by done. lia.
Qed.

Lemma sem_value_release sem s st :
  (sem < length (semaphores st))%nat ->
  sem_value sem (release s st)
  = sem_value sem st + (if decide (s = sem) then 1 else 0).
Proof.
  intros Hlt. unfold sem_value, release. cbn.
  destruct (lookup_lt_is_Some_2 _ _ Hlt) as [v Hv].
  destruct (decide (s = sem)) as [->|Hne].
  - by rewrite list_lookup_alter_eq, Hv.
  - rewrite list_lookup_alter_ne by done. lia.
Qed.

Lemma in_flight_app c tasks k :
  in_flight c (tasks ++ [k])
  = in_flight c tasks + (if opening c k then 1 else 0).
Proof.
  unfold in_flight. rewrite count_app_one.
  destruct (opening c k); by case_decide.
Qed.

Lemma in_flight_insert c tasks t k k' :
  tasks !! t = Some k ->
  in_flight c (<[t:=k']> tasks)
  = in_flight c tasks - (if opening c k then 1 else 0)
    + (if opening c k' then 1 else 0).
Proof.
  intros Ht. unfold in_flight. rewrite (count_insert _ _ _ _ _ Ht).
  destruct (opening c k), (opening c k'); repeat case_decide; done.
Qed.

(** *** The session invariant *)

Lemma session_ok_same_registry cap n c sem s s' :
  session_ok cap n c sem s ->
  contexts (sys_state s') = contexts (sys_state s) ->
  context_semaphores (sys_state s') = context_semaphores (sys_state s) ->
  browser_contexts (sys_state s') = browser_contexts (sys_state s) ->
  length (semaphores (sys_state s')) = length (semaphores (sys_state s)) ->
  (forall i p, pages (sys_state s') !! i = Some p ->
     exists n', page_listeners p = page_callbacks n'
                /\ (n' = n <-> page_context p = c)) ->
  (forall t k, sys_tasks s' !! t = Some k -> task_ok n c sem k) ->
  0 <= sem_value sem (sys_state s') ->
  sem_value sem (sys_state s') + in_flight c (sys_tasks s')
  + context_pages c (sys_state s') <= cap ->
  session_ok cap n c sem s'.
Proof.
  intros [] Hc Hs Hb Hl Hp Ht Hv Hn.
  constructor; rewrite ?Hc, ?Hs, ?Hb, ?Hl; done.
Qed.

Lemma tasks_ok_app n c sem (tasks : list CreatePage) k :
  (forall t k', tasks !! t = Some k' -> task_ok n c sem k') ->
  task_ok n c sem k ->
  forall t k', (tasks ++ [k]) !! t = Some k' -> task_ok n c sem k'.
Proof.
  intros H Hk t k' Ht. apply lookup_app_Some in Ht as [Ht|[_ Ht]]; [eauto|].
  destruct (t - length tasks)%nat; simplify_eq/=. done.
Qed.

Lemma tasks_ok_insert n c sem (tasks : list CreatePage) i k :
  (forall t k', tasks !! t = Some k' -> task_ok n c sem k') ->
  task_ok n c sem k ->
  forall t k', <[i:=k]> tasks !! t = Some k' -> task_ok n c sem k'.
Proof.
  intros H Hk t k' Ht. destruct (decide (i = t)) as [->|Hne].
  - apply list_lookup_insert_Some in Ht as [(_ & <- & _)|[? ?]]; [done|eauto].
  - rewrite list_lookup_insert_ne in Ht by done. eauto.
Qed.

(** What [acquire] does to a state in which the session is registered. *)
Lemma acquire_effect n c sem st n' c' :
  contexts st !! n = Some c ->
  context_semaphores st !! n = Some sem ->
  (forall m, contexts st !! m = Some c -> m = n) ->
  (forall m, context_semaphores st !! m = Some sem -> m = n) ->
  (sem < length (semaphores st))%nat ->
  0 <= sem_value sem st ->
  contexts st !! n' = Some c' ->
  let k := (acquire n' c' st).1 in
  let st' := (acquire n' c' st).2 in
  task_ok n c sem k
  /\ contexts st' = contexts st
  /\ context_semaphores st' = context_semaphores st
  /\ browser_contexts st' = browser_contexts st
  /\ pages st' = pages st
  /\ length (semaphores st') = length (semaphores st)
  /\ 0 <= sem_value sem st'
  /\ sem_value sem st' + (if opening c k then 1 else 0) = sem_value sem st.
Proof.
  intros Hc Hs Huc Hus Hlt Hv Hc'. cbv zeta. unfold acquire.
  destruct (context_semaphores st !! n') as [s'|] eqn:Hs'; cbn [fst snd].
  - assert ((n' = n /\ c' = c /\ s' = sem)
            \/ (n' <> n /\ c' <> c /\ s' <> sem)) as Hcase.
    { destruct (decide (n' = n)) as [->|Hne]; [left; by simplify_eq|].
      right. split; [done|]. split.
      - intros ->. by apply Hne, Huc.
      - intros ->. by apply Hne, Hus. }
    destruct (locked s' st) eqn:Hl; cbn [fst snd opening].
    + repeat split; try done. lia.
    + split; [destruct Hcase as [(-> & -> & ->)|(? & ? & ?)]; cbn; tauto|].
      split; [done|]. split; [done|]. split; [done|]. split; [done|].
      split; [by cbn; rewrite length_alter|].
      rewrite sem_value_take_unit by done.
      unfold locked in Hl. apply bool_decide_eq_false in Hl.
      destruct Hcase as [(-> & -> & ->)|(? & ? & ?)].
      * rewrite decide_True by done. rewrite bool_decide_true by done.
        split; lia.
      * rewrite decide_False by done. rewrite bool_decide_false by done.
        split; lia.
  - repeat split; try done. cbn. lia.
Qed.

Lemma create_page_preserves cap n c sem s n' s' :
  session_ok cap n c sem s ->
  step s (ev_create_page n') = Some s' ->
  session_ok cap n c sem s'.
Proof.
  intros Hok Hstep. cbn in Hstep. unfold begin in Hstep.
  destruct (contexts (sys_state s) !! n') as [c'|] eqn:Hc'.
  - pose proof (acquire_effect n c sem (sys_state s) n' c'
                  (ok_context _ _ _ _ _ Hok) (ok_semaphore _ _ _ _ _ Hok)
                  (ok_context_unique _ _ _ _ _ Hok)
                  (ok_semaphore_unique _ _ _ _ _ Hok)
                  (ok_semaphore_exists _ _ _ _ _ Hok)
                  (ok_value _ _ _ _ _ Hok) Hc')
      as (Hk & Hcs & Hss & Hbs & Hps & Hls & Hv & Hn).
    destruct (acquire n' c' (sys_state s)) as [k st'] eqn:Ha.
    cbn [fst snd] in *. simplify_eq.
    apply (session_ok_same_registry _ _ _ _ s); cbn [sys_state sys_tasks];
      try done.
    + rewrite Hps. apply Hok.
    + apply tasks_ok_app; [apply Hok|done].
    + rewrite in_flight_app. unfold context_pages. rewrite Hps.
      pose proof (ok_count _ _ _ _ _ Hok) as Hcount.
      unfold context_pages in Hcount. lia.
  - simplify_eq.
    apply (session_ok_same_registry _ _ _ _ s); cbn [sys_state sys_tasks];
      try done; try apply Hok.
    + apply tasks_ok_app; [apply Hok|]. cbn. intros ->.
      by rewrite (ok_context _ _ _ _ _ Hok) in Hc'.
    + rewrite in_flight_app. cbn [opening].
      pose proof (ok_count _ _ _ _ _ Hok). lia.
Qed.

Lemma context_pages_frame c st st' :
  pages st' = pages st -> context_pages c st' = context_pages c st.
Proof. unfold context_pages. by intros ->. Qed.

Lemma resume_preserves cap n c sem s t err s' :
  session_ok cap n c sem s ->
  step s (ev_resume t err) = Some s' ->
  session_ok cap n c sem s'.
Proof.
  intros Hok Hstep. cbn in Hstep.
  destruct (sys_tasks s !! t) as [k|] eqn:Ht; [|done]. cbn in Hstep.
  pose proof (ok_tasks _ _ _ _ _ Hok t k Ht) as Hk.
  pose proof (ok_count _ _ _ _ _ Hok) as Hcount.
  pose proof (ok_value _ _ _ _ _ Hok) as Hvalue.
  destruct k as [n'|n' c' s0|n' c'|pg|e]; cbn [resume] in Hstep.
  - (* at_new_context *)
    cbn in Hk.
    destruct err as [e|].
    + cbn in Hstep. simplify_eq.
      apply (session_ok_same_registry _ _ _ _ s); cbn [sys_state sys_tasks];
        try done; try apply Hok.
      * apply tasks_ok_insert; [apply Hok|done].
      * rewrite (in_flight_insert _ _ _ _ _ Ht). cbn [opening]. lia.
    + unfold _create_browser_context, new_semaphore in Hstep.
      cbn [set_stats set_browser_contexts set_contexts set_semaphores
           set_context_semaphores max_pages_per_context semaphores
           browser_contexts] in Hstep.
      match type of Hstep with
      | context [acquire n' ?c0 ?st0] => set (stR := st0) in *; set (cN := c0) in *
      end.
      assert (session_ok cap n c sem {| sys_state := stR; sys_tasks := sys_tasks s |})
        as HokR.
      { destruct Hok. constructor; subst stR cN; cbn.
        - by rewrite lookup_insert_ne.
        - by rewrite lookup_insert_ne.
        - intros m Hm. destruct (decide (n' = m)) as [->|Hne].
          + rewrite lookup_insert_eq in Hm. simplify_eq. lia.
          + rewrite lookup_insert_ne in Hm by done. auto.
        - intros m Hm. destruct (decide (n' = m)) as [->|Hne].
          + rewrite lookup_insert_eq in Hm. simplify_eq. lia.
          + rewrite lookup_insert_ne in Hm by done. auto.
        - rewrite length_app. lia.
        - rewrite length_app. lia.
        - done.
        - intros c0 ctx Hctx Hne.
          apply lookup_app_Some in Hctx as [Hctx|[_ Hctx]]; [eauto|].
          destruct (c0 - length _)%nat; simplify_eq/=. eauto.
        - done.
        - unfold sem_value in *. cbn. by rewrite lookup_app_l.
        - unfold sem_value in *. cbn. rewrite lookup_app_l by done.
          unfold context_pages in *. done. }
      assert (contexts stR !! n' = Some cN) as HcN
        by (subst stR; cbn; by rewrite lookup_insert_eq).
      pose proof (acquire_effect n c sem stR n' cN
                    (ok_context _ _ _ _ _ HokR) (ok_semaphore _ _ _ _ _ HokR)
                    (ok_context_unique _ _ _ _ _ HokR)
                    (ok_semaphore_unique _ _ _ _ _ HokR)
                    (ok_semaphore_exists _ _ _ _ _ HokR)
                    (ok_value _ _ _ _ _ HokR) HcN)
        as (Hk' & Hcs & Hss & Hbs & Hps & Hls & Hv & Hn').
      destruct (acquire n' cN stR) as [k' st'] eqn:Ha.
      cbn [fst snd] in *. cbn [mbind option_bind] in Hstep. simplify_eq.
      apply (session_ok_same_registry _ _ _ _
               {| sys_state := stR; sys_tasks := sys_tasks s |});
        cbn [sys_state sys_tasks]; try done.
      * rewrite Hps. apply HokR.
      * apply tasks_ok_insert; [apply Hok|done].
      * rewrite (in_flight_insert _ _ _ _ _ Ht). cbn [opening].
        rewrite (context_pages_frame c stR st' Hps).
        pose proof (ok_count _ _ _ _ _ HokR) as HcR. cbn in HcR. lia.
  - (* at_acquire *)
    destruct (locked s0 (sys_state s)) eqn:Hl; [done|]. cbn in Hstep.
    simplify_eq. cbn in Hk.
    unfold locked in Hl. apply bool_decide_eq_false in Hl.
    apply (session_ok_same_registry _ _ _ _ s); cbn [sys_state sys_tasks];
      try done; try apply Hok.
    + unfold take_unit. cbn. by rewrite length_alter.
    + apply tasks_ok_insert; [apply Hok|]. cbn.
      destruct Hk as [(-> & -> & ->)|(? & ? & ?)]; tauto.
    + rewrite sem_value_take_unit by apply Hok.
      destruct Hk as [(-> & -> & ->)|(? & ? & ?)];
        [rewrite decide_True by done|rewrite decide_False by done]; lia.
    + rewrite (in_flight_insert _ _ _ _ _ Ht). cbn [opening].
      rewrite sem_value_take_unit by apply Hok.
      change (context_pages c (take_unit s0 (sys_state s)))
        with (context_pages c (sys_state s)).
      destruct Hk as [(-> & -> & ->)|(? & ? & ?)].
      * rewrite decide_True, bool_decide_true by done. lia.
      * rewrite decide_False, bool_decide_false by done. lia.
  - (* at_new_page *)
    cbn in Hk. destruct err as [e|].
    + cbn in Hstep. simplify_eq.
      apply (session_ok_same_registry _ _ _ _ s); cbn [sys_state sys_tasks];
        try done; try apply Hok.
      * apply tasks_ok_insert; [apply Hok|done].
      * rewrite (in_flight_insert _ _ _ _ _ Ht). cbn [opening].
        case_bool_decide; lia.
    + destruct (new_page_spec n' c' (sys_state s))
        as (_ & p & Hf & Hpc & Hpo & Hpl & _).
      destruct (new_page n' c' (sys_state s)) as [pg st'] eqn:Hnp.
      cbn [snd] in Hf. cbn in Hstep.
      pose proof (f_equal pages Hf) as Hps.
      pose proof (f_equal contexts Hf) as Hfc.
      pose proof (f_equal context_semaphores Hf) as Hfs.
      pose proof (f_equal browser_contexts Hf) as Hfb.
      pose proof (f_equal semaphores Hf) as Hfv.
      cbn in Hps, Hfc, Hfs, Hfb, Hfv. clear Hf.
      injection Hstep as <-.
      assert (sem_value sem st' = sem_value sem (sys_state s)) as Hsv
        by (unfold sem_value; by rewrite Hfv).
      apply (session_ok_same_registry _ _ _ _ s); cbn [sys_state sys_tasks].
      * done.
      * done.
      * done.
      * done.
      * by rewrite Hfv.
      * intros i q Hq. rewrite Hps in Hq.
        apply lookup_app_Some in Hq as [Hq|[_ Hq]];
          [by eapply (ok_pages _ _ _ _ _ Hok)|].
        destruct (i - length _)%nat; simplify_eq/=.
        exists n'. split; [done|]. done.
      * apply tasks_ok_insert; [apply Hok|done].
      * by rewrite Hsv.
      * rewrite (in_flight_insert _ _ _ _ _ Ht). cbn [opening].
        rewrite Hsv. unfold context_pages in *. rewrite Hps, count_app_one.
        rewrite Hpc, Hpo.
        case_bool_decide; [rewrite decide_True by done|
                           rewrite decide_False by tauto]; lia.
  - done.
  - done.
Qed.

Lemma page_close_preserves cap n c sem s i s' :
  session_ok cap n c sem s ->
  step s (ev_page_close i) = Some s' ->
  session_ok cap n c sem s'.
Proof.
  intros Hok Hstep. cbn in Hstep.
  destruct (is_closed i (sys_state s)) eqn:Hcl; [done|]. simplify_eq.
  unfold is_closed in Hcl.
  destruct (pages (sys_state s) !! i) as [p|] eqn:Hp; [|done].
  destruct (ok_pages _ _ _ _ _ Hok i p Hp) as (n' & Hl & Hiff).
  pose proof (ok_count _ _ _ _ _ Hok) as Hcount.
  pose proof (ok_value _ _ _ _ _ Hok) as Hvalue.
  unfold page_closes. rewrite Hp, Hcl, Hl.
  set (st1 := set_page mark_closed i (sys_state s)).
  assert (emit (page_callbacks n') "close" st1
          = run_callback (close_page_callback n') st1) as -> by reflexivity.
  assert (pages st1 = <[i:=mark_closed p]> (pages (sys_state s))) as Hps
    by (subst st1; cbn; by apply alter_as_insert).
  assert (context_pages c st1
          = context_pages c (sys_state s)
            - (if decide (page_context p = c) then 1 else 0)) as Hcp.
  { unfold context_pages. rewrite Hps, (count_insert _ _ _ _ _ Hp).
    cbn [mark_closed page_context page_closed]. rewrite Hcl.
    rewrite (decide_False (P := _ /\ true = false)) by (intros [_ ?]; done).
    destruct (decide (page_context p = c)).
    - rewrite decide_True by done. lia.
    - rewrite decide_False by tauto. lia. }
  assert (forall j q, pages st1 !! j = Some q ->
            exists m, page_listeners q = page_callbacks m
                      /\ (m = n <-> page_context q = c)) as Hpages.
  { intros j q Hq. rewrite Hps in Hq. destruct (decide (i = j)) as [->|Hne].
    - apply list_lookup_insert_Some in Hq as [(_ & <- & _)|[? ?]]; [|done].
      exists n'. by split.
    - rewrite list_lookup_insert_ne in Hq by done.
      by eapply (ok_pages _ _ _ _ _ Hok). }
  cbn [run_callback].
  change (context_semaphores st1) with (context_semaphores (sys_state s)).
  destruct (context_semaphores (sys_state s) !! n') as [s0|] eqn:Hs0.
  - assert (s0 = sem <-> page_context p = c) as Hsem.
    { rewrite <- Hiff. split.
      - intros ->. by apply (ok_semaphore_unique _ _ _ _ _ Hok).
      - intros ->. rewrite (ok_semaphore _ _ _ _ _ Hok) in Hs0. by simplify_eq. }
    apply (session_ok_same_registry _ _ _ _ s); cbn [sys_state sys_tasks];
      try done; try apply Hok.
    + by cbn; rewrite length_alter.
    + rewrite sem_value_release by apply Hok.
      change (sem_value sem st1) with (sem_value sem (sys_state s)).
      destruct (decide (s0 = sem)); lia.
    + rewrite sem_value_release by apply Hok.
      change (sem_value sem st1) with (sem_value sem (sys_state s)).
      change (context_pages c (release s0 st1)) with (context_pages c st1).
      rewrite Hcp.
      destruct (decide (s0 = sem)) as [->|Hne].
      * rewrite decide_True by tauto. lia.
      * rewrite decide_False by tauto. lia.
  - assert (page_context p <> c) as Hne.
    { intros Hpc. apply Hiff in Hpc as ->.
      by rewrite (ok_semaphore _ _ _ _ _ Hok) in Hs0. }
    apply (session_ok_same_registry _ _ _ _ s); cbn [sys_state sys_tasks];
      try done; try apply Hok.
    rewrite Hcp, decide_False by done.
    change (sem_value sem st1) with (sem_value sem (sys_state s)). lia.
Qed.

Lemma context_close_preserves cap n c sem s c' s' :
  session_ok cap n c sem s ->
  c' <> c ->
  step s (ev_context_close c') = Some s' ->
  session_ok cap n c sem s'.
Proof.
  intros Hok Hne Hstep. cbn in Hstep. simplify_eq. unfold context_closes.
  destruct (browser_contexts (sys_state s) !! c') as [ctx|] eqn:Hctx;
    [|by destruct s].
  destruct (ok_contexts _ _ _ _ _ Hok c' ctx Hctx Hne) as (n' & Hn' & ->).
  assert (emit [("close", close_browser_context_callback n')] "close"
            (sys_state s)
          = run_callback (close_browser_context_callback n') (sys_state s))
    as -> by reflexivity.
  destruct Hok. constructor; cbn; try done.
  - by rewrite lookup_delete_ne.
  - by rewrite lookup_delete_ne.
  - intros m [_ Hm]%lookup_delete_Some. auto.
  - intros m [_ Hm]%lookup_delete_Some. auto.
Qed.

Lemma step_preserves cap n c sem s ev s' :
  session_ok cap n c sem s ->
  quiet c ev ->
  step s ev = Some s' ->
  session_ok cap n c sem s'.
Proof.
  intros Hok Hq Hstep. destruct ev as [n'|t err|i|i|c'].
  - by eapply create_page_preserves.
  - by eapply resume_preserves.
  - by eapply page_close_preserves.
  - done.
  - by eapply context_close_preserves.
Qed.

Lemma run_preserves cap n c sem evs s s' :
  session_ok cap n c sem s ->
  Forall (quiet c) evs ->
  run s evs = Some s' ->
  session_ok cap n c sem s'.
Proof.
  revert s. induction evs as [|ev evs IH]; intros s Hok Hq Hrun.
  - cbn in Hrun. by simplify_eq.
  - apply Forall_cons in Hq as [Hq Hqs]. cbn in Hrun.
    destruct (step s ev) as [s1|] eqn:Hstep; [|done]. cbn in Hrun.
    eapply IH; [|done..]. by eapply step_preserves.
Qed.

Lemma session_ok_cap cap n c sem s :
  session_ok cap n c sem s ->
  0 <= context_pages c (sys_state s) <= cap.
Proof.
  intros Hok. pose proof (ok_count _ _ _ _ _ Hok).
  pose proof (ok_value _ _ _ _ _ Hok).
  unfold context_pages, in_flight in *. lia.
Qed.

(** *** [_launch_browser] *)

Lemma gather_contexts_spec (names : list string) (acc : list nat) (st : State) :
  exists st',
    foldl (fun acc name =>
             let '(context, st) := _create_browser_context name acc.2 in
             (acc.1 ++ [context], st)) (acc, st) names
    = (acc ++ seq (length (browser_contexts st)) (length names), st')
    /\ browser_contexts st'
       = browser_contexts st
         ++ ((fun name =>
                {| ctx_listeners := [("close", close_browser_context_callback name)];
                   ctx_navigation_timeout := default_navigation_timeout st |})
               <$> names)
    /\ set_browser_contexts (fun _ => []) (frame st')
       = set_browser_contexts (fun _ => []) (frame st)
    /\ log st' = log st
    /\ default 0 (stats st' !! "playwright/context_count")
       = default 0 (stats st !! "playwright/context_count")
         + Z.of_nat (length names).
Proof.
  revert acc st. induction names as [|name names IH]; intros acc st.
  - exists st. cbn. rewrite !app_nil_r. repeat split; lia.
  - cbn [foldl]. unfold _create_browser_context at 2. cbn [fst snd].
    destruct (IH (acc ++ [length (browser_contexts st)])
                (set_stats (inc_value "playwright/context_count")
                   (set_browser_contexts
                      (fun l => l ++ [{| ctx_listeners :=
                                           [("close", close_browser_context_callback name)];
                                         ctx_navigation_timeout :=
                                           default_navigation_timeout st |}]) st)))
      as (st' & H1 & H2 & H3 & H4 & H5).
    exists st'. rewrite H1, H2, H3, H4, H5.
    cbn [browser_contexts set_stats set_browser_contexts
         default_navigation_timeout log stats fmap list_fmap length].
    rewrite length_app, <- !app_assoc. cbn [length app].
    rewrite Nat.add_1_r. split; [done|]. split; [done|]. split; [done|].
    split; [done|].
    unfold inc_value. rewrite lookup_insert_eq. cbn [default]. unfold id. lia.
Qed.

Lemma semaphores_fold_spec (names : list string) (st : State) :
  exists st',
    foldl (fun st name =>
             let '(sem, st) := new_semaphore (max_pages_per_context st) st in
             set_context_semaphores (insert name sem) st) st names = st'
    /\ semaphores st'
       = semaphores st ++ replicate (length names) (max_pages_per_context st)
    /\ set_semaphores (fun _ => []) (set_context_semaphores (fun _ => ∅) st')
       = set_semaphores (fun _ => []) (set_context_semaphores (fun _ => ∅) st)
    /\ (forall name, name ∉ names ->
          context_semaphores st' !! name = context_semaphores st !! name)
    /\ (NoDup names ->
        forall i name, names !! i = Some name ->
          context_semaphores st' !! name = Some (length (semaphores st) + i)%nat).
Proof.
  revert st. induction names as [|name names IH]; intros st.
  - exists st. cbn. rewrite app_nil_r. repeat split. intros _ i name Hi. done.
  - cbn [foldl]. unfold new_semaphore at 2.
    set (st1 := set_context_semaphores _ _).
    destruct (IH st1) as (st' & H0 & H1 & H2 & H3 & H4).
    exists st'. split; [done|]. rewrite H1, H2. subst st1.
    cbn [semaphores set_semaphores set_context_semaphores
         max_pages_per_context length replicate].
    rewrite <- app_assoc. cbn [app].
    split; [done|]. split; [done|]. split.
    + intros other Hother. apply not_elem_of_cons in Hother as [Hne Hother].
      rewrite H3 by done. cbn. by rewrite lookup_insert_ne.
    + intros Hnd i other Hi. apply NoDup_cons in Hnd as [Hfresh Hnd].
      destruct i as [|i]; cbn in Hi.
      * simplify_eq. rewrite H3 by done. cbn.
        rewrite lookup_insert_eq. f_equal. lia.
      * rewrite (H4 Hnd i other Hi). cbn. rewrite length_app. cbn.
        f_equal. lia.
Qed.

Lemma lookup_zip_seq (names : list string) (base i : nat) (name : string) :
  NoDup names ->
  names !! i = Some name ->
  (list_to_map (zip names (seq base (length names))) : gmap string nat) !! name
  = Some (base + i)%nat.
Proof.
  intros Hnd Hi. apply elem_of_list_to_map.
  - rewrite fst_zip by (rewrite length_seq; lia). done.
  - apply list_elem_of_lookup. exists i. rewrite lookup_zip_with, Hi. cbn.
    rewrite lookup_seq_lt by (by eapply lookup_lt_Some). done.
Qed.

Lemma lookup_zip_none (names : list string) (l : list nat) (name : string) :
  name ∉ names ->
  (list_to_map (zip names l) : gmap string nat) !! name = None.
Proof.
  intros Hn. apply not_elem_of_list_to_map. intros Hin. apply Hn.
  apply list_elem_of_fmap in Hin as ([a b] & -> & Hin).
  by apply elem_of_zip_l in Hin.
Qed.

Lemma launch_browser_effect (names : list string) (st : State) :
  NoDup names ->
  (forall i name, names !! i = Some name ->
     contexts (_launch_browser names st) !! name
     = Some (length (browser_contexts st) + i)%nat
     /\ context_semaphores (_launch_browser names st) !! name
        = Some (length (semaphores st) + i)%nat)
  /\ (forall name, name ∉ names ->
        contexts (_launch_browser names st) !! name = None
        /\ context_semaphores (_launch_browser names st) !! name = None)
  /\ browser_contexts (_launch_browser names st)
     = browser_contexts st
       ++ ((fun name =>
              {| ctx_listeners := [("close", close_browser_context_callback name)];
                 ctx_navigation_timeout := default_navigation_timeout st |})
             <$> names)
  /\ semaphores (_launch_browser names st)
     = semaphores st ++ replicate (length names) (max_pages_per_context st)
  /\ pages (_launch_browser names st) = pages st
  /\ max_pages_per_context (_launch_browser names st) = max_pages_per_context st
  /\ default_navigation_timeout (_launch_browser names st)
     = default_navigation_timeout st
  /\ default 0 (stats (_launch_browser names st) !! "playwright/context_count")
     = default 0 (stats st !! "playwright/context_count")
       + Z.of_nat (length names).
Proof.
  intros Hnd. unfold _launch_browser, gather_contexts.
  destruct (gather_contexts_spec names [] st) as (stA & -> & HA1 & HA2 & _ & HA4).
  cbn [app].
  set (stB := set_context_semaphores _ _).
  destruct (semaphores_fold_spec names stB) as (stC & -> & HC1 & HC2 & HC3 & HC4).
  assert (contexts stC
          = list_to_map (zip names (seq (length (browser_contexts st))
                                        (length names)))) as Hcontexts
    by exact (f_equal contexts HC2).
  assert (browser_contexts stC = browser_contexts stA) as Hbc
    by exact (f_equal browser_contexts HC2).
  assert (pages stC = pages st) as Hpages.
  { transitivity (pages stA);
      [exact (f_equal pages HC2)|exact (f_equal pages HA2)]. }
  assert (stats stC = stats stA) as Hstats by exact (f_equal stats HC2).
  assert (max_pages_per_context stC = max_pages_per_context st) as Hcap.
  { transitivity (max_pages_per_context stA);
      [exact (f_equal max_pages_per_context HC2)
      |exact (f_equal max_pages_per_context HA2)]. }
  assert (default_navigation_timeout stC = default_navigation_timeout st) as Hto.
  { transitivity (default_navigation_timeout stA);
      [exact (f_equal default_navigation_timeout HC2)
      |exact (f_equal default_navigation_timeout HA2)]. }
  assert (semaphores stB = semaphores st) as HsB
    by exact (f_equal semaphores HA2).
  assert (max_pages_per_context stB = max_pages_per_context st) as HcB
    by exact (f_equal max_pages_per_context HA2).
  rewrite HsB, HcB in HC1. rewrite HsB in HC4.
  split.
  { intros i name Hi. split.
    - rewrite Hcontexts. by apply lookup_zip_seq.
    - by apply HC4. }
  split.
  { intros name Hname. split.
    - rewrite Hcontexts. by apply lookup_zip_none.
    - rewrite HC3 by done. subst stB. cbn. apply lookup_empty. }
  rewrite Hbc, HA1, HC1, Hpages, Hcap, Hto, Hstats, HA4. done.
Qed.

(** After the launch, every declared session satisfies the invariant. *)
Lemma launch_session_ok (names : list string) (cap : Z) (timeout : option Z)
    (i : nat) (n : string) :
  NoDup names ->
  names !! i = Some n ->
  0 <= cap ->
  session_ok cap n i i
    {| sys_state := _launch_browser names (initial cap timeout);
       sys_tasks := [] |}.
Proof.
  intros Hnd Hi Hcap.
  destruct (launch_browser_effect names (initial cap timeout) Hnd)
    as (Hin & Hout & Hbc & Hsem & Hpages & _).
  cbn [initial browser_contexts semaphores pages max_pages_per_context
       default_navigation_timeout length app] in *.
  assert (forall m j, names !! j = Some m -> (m = n <-> j = i)) as Hinj.
  { intros m j Hj. split.
    - intros ->. by eapply NoDup_lookup.
    - intros ->. by simplify_eq. }
  assert (sem_value i (_launch_browser names (initial cap timeout)) = cap) as Hv.
  { unfold sem_value. rewrite Hsem.
    rewrite (lookup_replicate_2 (length names) cap i); [done|].
    by eapply lookup_lt_Some. }
  constructor; cbn [sys_state sys_tasks].
  - by apply Hin.
  - by apply Hin.
  - intros m Hm. destruct (decide (m ∈ names)) as [Hel|Hel].
    + apply list_elem_of_lookup_1 in Hel as [j Hj].
      destruct (Hin j m Hj) as [Hc _]. rewrite Hc in Hm.
      apply (Hinj m j Hj). by simplify_eq.
    + destruct (Hout m Hel) as [Hc _]. by rewrite Hc in Hm.
  - intros m Hm. destruct (decide (m ∈ names)) as [Hel|Hel].
    + apply list_elem_of_lookup_1 in Hel as [j Hj].
      destruct (Hin j m Hj) as [_ Hc]. rewrite Hc in Hm.
      apply (Hinj m j Hj). by simplify_eq.
    + destruct (Hout m Hel) as [_ Hc]. by rewrite Hc in Hm.
  - rewrite Hbc, length_fmap. by eapply lookup_lt_Some.
  - rewrite Hsem, length_replicate. by eapply lookup_lt_Some.
  - intros j p Hp. by rewrite Hpages in Hp.
  - intros c ctx Hctx Hne. rewrite Hbc, list_lookup_fmap in Hctx.
    destruct (names !! c) as [m|] eqn:Hm; [|done]. cbn in Hctx. simplify_eq.
    exists m. split; [|done]. intros ->. by apply Hne, (Hinj n c Hm).
  - intros t k Hk. done.
  - by rewrite Hv.
  - rewrite Hv. unfold context_pages. rewrite Hpages. unfold in_flight. cbn. lia.
Qed.

(** X8: every session declared in the settings gets, at the launch, a context
    and a semaphore of its own, the semaphore holds
    [max_pages_per_context] units, and one context is counted for each
    session.  [names] are the keys of a dict, hence [NoDup]. *)
Theorem launch_registers_declared_sessions (names : list string) (st : State)
    (i : nat) (name : string) :
  0 <= max_pages_per_context st ->
  NoDup names ->
  names !! i = Some name ->
  exists context sem ctx,
    contexts (_launch_browser names st) !! name = Some context
    /\ context_semaphores (_launch_browser names st) !! name = Some sem
    /\ (forall other, contexts (_launch_browser names st) !! other = Some context
                      -> other = name)
    /\ (forall other, context_semaphores (_launch_browser names st) !! other
                      = Some sem -> other = name)
    /\ (length (browser_contexts st) <= context)%nat
    /\ (length (semaphores st) <= sem)%nat
    /\ browser_contexts (_launch_browser names st) !! context = Some ctx
    /\ ctx_listeners ctx = [("close", close_browser_context_callback name)]
    /\ ctx_navigation_timeout ctx = default_navigation_timeout st
    /\ sem_value sem (_launch_browser names st) = max_pages_per_context st
    /\ default 0 (stats (_launch_browser names st) !! "playwright/context_count")
       = default 0 (stats st !! "playwright/context_count")
         + Z.of_nat (length names).
Proof.
  intros Hcap Hnd Hi.
  destruct (launch_browser_effect names st Hnd)
    as (Hin & Hout & Hbc & Hsem & _ & _ & _ & Hcount).
  assert (forall m j, names !! j = Some m -> (m = name <-> j = i)) as Hinj.
  { intros m j Hj. split.
    - intros ->. by eapply NoDup_lookup.
    - intros ->. by simplify_eq. }
  exists (length (browser_contexts st) + i)%nat,
         (length (semaphores st) + i)%nat,
         {| ctx_listeners := [("close", close_browser_context_callback name)];
            ctx_navigation_timeout := default_navigation_timeout st |}.
  split; [by apply Hin|]. split; [by apply Hin|]. split.
  { intros m Hm. destruct (decide (m ∈ names)) as [Hel|Hel].
    - apply list_elem_of_lookup_1 in Hel as [j Hj].
      destruct (Hin j m Hj) as [Hc _]. rewrite Hc in Hm.
      apply (Hinj m j Hj). simplify_eq. lia.
    - destruct (Hout m Hel) as [Hc _]. by rewrite Hc in Hm. }
  split.
  { intros m Hm. destruct (decide (m ∈ names)) as [Hel|Hel].
    - apply list_elem_of_lookup_1 in Hel as [j Hj].
      destruct (Hin j m Hj) as [_ Hc]. rewrite Hc in Hm.
      apply (Hinj m j Hj). simplify_eq. lia.
    - destruct (Hout m Hel) as [_ Hc]. by rewrite Hc in Hm. }
  split; [lia|]. split; [lia|]. split.
  { rewrite Hbc, lookup_app_r by lia.
    replace (length (browser_contexts st) + i - length (browser_contexts st))%nat
      with i by lia.
    by rewrite list_lookup_fmap, Hi. }
  split; [done|]. split; [done|]. split; [|done].
  unfold sem_value. rewrite Hsem, lookup_app_r by lia.
  replace (length (semaphores st) + i - length (semaphores st))%nat
    with i by lia.
  rewrite (lookup_replicate_2 (length names) _ i); [done|].
  by eapply lookup_lt_Some.
Qed.

Lemma launch_registers_declared_sessions_witness :
  exists context sem,
    contexts (_launch_browser ["default"; "mobile"] (initial 4 (Some 30000)))
      !! "mobile" = Some context
    /\ context_semaphores
         (_launch_browser ["default"; "mobile"] (initial 4 (Some 30000)))
         !! "mobile" = Some sem
    /\ sem_value sem (_launch_browser ["default"; "mobile"] (initial 4 (Some 30000)))
       = 4.
Proof.
  destruct (launch_registers_declared_sessions ["default"; "mobile"]
              (initial 4 (Some 30000)) 1 "mobile")
    as (context & sem & ctx & H1 & H2 & _ & _ & _ & _ & _ & _ & _ & H3 & _);
    [vm_compute; discriminate|compute_done|reflexivity|].
  exists context, sem. split; [exact H1|]. split; [exact H2|]. exact H3.
Defined.

(** X9: a session declared in the settings never has more than
    [max_pages_per_context] pages, open or being opened, whatever the
    interleaving of the calls of [_create_page] and of the page and
    context events, as long as no page reports a crash and the context of
    the session is not closed. *)
Theorem declared_session_within_cap (names : list string) (cap : Z)
    (timeout : option Z) (i : nat) (n : string) (evs : list Event) (s : System) :
  NoDup names ->
  names !! i = Some n ->
  0 <= cap ->
  Forall (quiet i) evs ->
  run {| sys_state := _launch_browser names (initial cap timeout);
         sys_tasks := [] |} evs = Some s ->
  contexts (sys_state s) !! n = Some i
  /\ context_pages i (sys_state s) + in_flight i (sys_tasks s) <= cap.
Proof.
  intros Hnd Hi Hcap Hq Hrun.
  pose proof (run_preserves _ _ _ _ _ _ _
                (launch_session_ok names cap timeout i n Hnd Hi Hcap) Hq Hrun)
    as Hok.
  split; [apply Hok|].
  pose proof (ok_count _ _ _ _ _ Hok). pose proof (ok_value _ _ _ _ _ Hok). lia.
Qed.

Lemma declared_session_within_cap_witness :
  exists s,
    run {| sys_state := _launch_browser ["default"; "mobile"] (initial 1 None);
           sys_tasks := [] |}
        [ev_create_page "default"; ev_create_page "default";
         ev_create_page "mobile"; ev_resume 0 None; ev_resume 2 None;
         ev_page_close 0; ev_resume 1 None; ev_resume 1 None]
    = Some s
    /\ contexts (sys_state s) !! "default" = Some 0%nat
    /\ context_pages 0 (sys_state s) + in_flight 0 (sys_tasks s) <= 1.
Proof.
  destruct (run {| sys_state := _launch_browser ["default"; "mobile"]
                                  (initial 1 None);
                   sys_tasks := [] |}
                [ev_create_page "default"; ev_create_page "default";
                 ev_create_page "mobile"; ev_resume 0 None; ev_resume 2 None;
                 ev_page_close 0; ev_resume 1 None; ev_resume 1 None])
    as [s|] eqn:Hrun; [|vm_compute in Hrun; discriminate].
  exists s. split; [reflexivity|].
  refine (declared_session_within_cap ["default"; "mobile"] 1 None 0 "default"
            _ s _ _ _ _ Hrun); [compute_done|reflexivity|lia|].
  repeat constructor; cbn; discriminate.
Defined.

(** *** Crash and close *)

Lemma page_crashes_set_log f page st :
  page_crashes page (set_log f st) = set_log f (page_crashes page st).
Proof.
  unfold page_crashes. simpl.
  destruct (pages st !! page) as [p|]; [|reflexivity].
  destruct (page_closed p); [reflexivity|].
  by rewrite <- emit_set_log.
Qed.

Lemma page_crashes_set_stats f page st :
  page_crashes page (set_stats f st) = set_stats f (page_crashes page st).
Proof.
  unfold page_crashes. simpl.
  destruct (pages st !! page) as [p|]; [|reflexivity].
  destruct (page_closed p); [reflexivity|].
  by rewrite <- emit_set_stats.
Qed.

Lemma frame_page_crashes page st :
  frame (page_crashes page st) = page_crashes page (frame st).
Proof.
  unfold frame. by rewrite page_crashes_set_log, page_crashes_set_stats.
Qed.

Lemma sem_value_frame sem st : sem_value sem (frame st) = sem_value sem st.
Proof. reflexivity. Qed.

(** X10: the release callback is registered for "close" and for "crash": a
    page of [_create_page] that reports a crash and is closed afterwards
    gives two units to the semaphore of its session, a page that is only
    closed gives one. *)
Theorem crash_and_close_release_twice (name : string) (context sem : nat)
    (st : State) :
  context_semaphores st !! name = Some sem ->
  (sem < length (semaphores st))%nat ->
  sem_value sem (page_closes (new_page name context st).1
                   (page_crashes (new_page name context st).1
                      (new_page name context st).2))
  = sem_value sem st + 2
  /\ sem_value sem (page_closes (new_page name context st).1
                      (new_page name context st).2)
     = sem_value sem st + 1.
Proof.
  intros Hsem Hlt.
  destruct (new_page_spec name context st) as (-> & p & Hf & _ & Hop & Hl & _).
  set (st1 := (new_page name context st).2) in *.
  set (st0 := frame (set_pages (fun l => l ++ [p]) st)) in *.
  assert (pages st0 !! length (pages st) = Some p) as Hp
    by (subst st0; cbn; by rewrite lookup_app_r, Nat.sub_diag).
  assert (context_semaphores st0 !! name = Some sem) as Hs0 by done.
  assert (sem_value sem st0 = sem_value sem st) as Hv0 by reflexivity.
  assert (sem < length (semaphores st0))%nat as Hlt0 by done.
  assert (forall st',
            pages st' = pages st0 ->
            context_semaphores st' = context_semaphores st0 ->
            page_closes (length (pages st)) st'
            = release sem (set_page mark_closed (length (pages st)) st')) as Hclose.
  { intros st' Hps Hcs. unfold page_closes. rewrite Hps, Hp, Hop, Hl.
    change (emit (page_callbacks name) "close" ?x)
      with (run_callback (close_page_callback name) x).
    cbn [run_callback]. 
    change (context_semaphores (set_page mark_closed (length (pages st)) st'))
      with (context_semaphores st').
    by rewrite Hcs, Hs0. }
  assert (page_crashes (length (pages st)) st0 = release sem st0) as Hcrash.
  { unfold page_crashes. rewrite Hp, Hop, Hl.
    change (emit (page_callbacks name) "crash" ?x)
      with (run_callback (close_page_callback name) x).
    cbn [run_callback]. by rewrite Hs0. }
  split.
  - rewrite <- sem_value_frame, frame_page_closes, frame_page_crashes.
    fold st1. rewrite Hf. fold st0. rewrite Hcrash, Hclose by done.
    rewrite sem_value_release
      by (unfold set_page, release; cbn; by rewrite length_alter).
    rewrite decide_True by done.
    change (sem_value sem (set_page mark_closed (length (pages st)) (release sem st0)))
      with (sem_value sem (release sem st0)).
    rewrite sem_value_release by done. rewrite decide_True by done. lia.
  - rewrite <- sem_value_frame, frame_page_closes. fold st1. rewrite Hf.
    fold st0. rewrite Hclose by done.
    rewrite sem_value_release by done. rewrite decide_True by done.
    change (sem_value sem (set_page mark_closed (length (pages st)) st0))
      with (sem_value sem st0). lia.
Qed.

Lemma crash_and_close_release_twice_witness :
  sem_value 0 (page_closes 0
                 (page_crashes 0
                    (new_page "default" 0
                       (_launch_browser ["default"] (initial 2 None))).2))
  = 4.
Proof.
  destruct (crash_and_close_release_twice "default" 0 0
              (_launch_browser ["default"] (initial 2 None)))
    as [H _]; [reflexivity|vm_compute; lia|].
  exact H.
Defined.

(** *** [_close] *)

(** X11: [_close] forgets every session: no name is registered any more, the
    callbacks of the pages and contexts that close afterwards change
    nothing (no unit is given to a semaphore), and a later
    [_create_page] starts by asking for a new context.  The semaphores
    and the pages themselves are left as they are. *)
Theorem close_forgets_every_session (st : State) (name : string) :
  contexts (_close st) !! name = None
  /\ context_semaphores (_close st) !! name = None
  /\ run_callback (close_page_callback name) (_close st) = _close st
  /\ run_callback (close_browser_context_callback name) (_close st) = _close st
  /\ begin name (_close st) = (at_new_context name, _close st)
  /\ semaphores (_close st) = semaphores st
  /\ pages (_close st) = pages st
  /\ (forall page p,
        pages st !! page = Some p ->
        page_listeners p = page_callbacks name ->
        semaphores (page_closes page (_close st)) = semaphores st).
Proof.
  unfold _close. split; [apply lookup_empty|]. split; [apply lookup_empty|].
  split; [reflexivity|]. split.
  { cbn. unfold set_context_semaphores, set_contexts. cbn.
    by rewrite !delete_empty. }
  split; [reflexivity|]. split; [reflexivity|]. split; [reflexivity|].
  intros page p Hp Hl. unfold page_closes.
  cbn [pages set_context_semaphores set_contexts]. rewrite Hp.
  destruct (page_closed p); [done|]. rewrite Hl.
  change (emit (page_callbacks name) "close" ?x)
    with (run_callback (close_page_callback name) x).
  reflexivity.
Qed.

End Sessions.

(** ** More on one fetch *)
Section MoreFetch.
Import Handler Fetch Listeners.
Variable libs : Libs.
Variable eng : Engine.

Lemma alter_alter_same {A} (f g : A -> A) (i : nat) (l : list A) :
  alter f i (alter g i l) = alter (fun x => f (g x)) i l.
Proof.
  revert i. induction l as [|x l IH]; intros [|i]; cbn; [done..|].
  f_equal. apply IH.
Qed.

Lemma alter_pointwise {A} (f g : A -> A) (i : nat) (l : list A) :
  (forall x, f x = g x) -> alter f i l = alter g i l.
Proof.
  intros Hfg. revert i. induction l as [|x l IH]; intros [|i]; cbn; [done|done| |].
  - by rewrite Hfg.
  - f_equal. apply IH.
Qed.

Lemma alter_identity {A} (f : A -> A) (i : nat) (l : list A) :
  (forall x, f x = x) -> alter f i l = l.
Proof.
  intros Hf. revert i. induction l as [|x l IH]; intros [|i]; cbn; [done|done| |].
  - by rewrite Hf.
  - f_equal. apply IH.
Qed.

Lemma add_listeners_nil p : add_listeners [] p = p.
Proof. destruct p. unfold add_listeners. cbn. by rewrite app_nil_r. Qed.

Lemma add_listeners_cons ev cb l p :
  add_listeners l (page_on ev cb p) = add_listeners ((ev, cb) :: l) p.
Proof. unfold add_listeners, page_on. cbn. by rewrite <- app_assoc. Qed.

(** The loop over the event handlers: what it leaves. *)
Lemma attach_event_handlers_spec spider page l s :
  exists s',
    attach_event_handlers spider page l s = (Ret tt, s')
    /\ meta s' = meta s
    /\ page_method_objs s' = page_method_objs s
    /\ set_pages (fun _ => []) (frame (handler s'))
       = set_pages (fun _ => []) (frame (handler s))
    /\ stats (handler s') = stats (handler s)
    /\ log (handler s') = log (handler s) ++ omap (missing_handler spider) l
    /\ pages (handler s')
       = alter (add_listeners (omap (resolved_handler spider) l)) page
           (pages (handler s)).
Proof.
  revert s. induction l as [|[ev h] l IH]; intros s.
  - exists s. cbn. rewrite app_nil_r.
    rewrite (alter_identity _ _ _ add_listeners_nil). done.
  - cbn [attach_event_handlers].
    unfold attach_event_handler, resolved_handler, missing_handler.
    cbn [fst snd omap list_omap].
    destruct h as [name|attr|].
    + unfold bind at 1, modify at 1.
      destruct (IH (on_handler (set_page (page_on ev (caller_handler name)) page) s))
        as (s' & -> & Hm & Ho & Hf & Hst & Hlog & Hp).
      exists s'. split; [done|]. rewrite Hm, Ho, Hf, Hst, Hlog, Hp.
      cbn [handler on_handler meta page_method_objs].
      repeat split. unfold set_page. cbn [pages set_pages].
      rewrite alter_alter_same. apply alter_pointwise. intros p.
      apply add_listeners_cons.
    + destruct (bool_decide (attr ∈ spider_attrs spider)).
      * unfold bind at 1, modify at 1.
        destruct (IH (on_handler (set_page (page_on ev (caller_handler attr)) page) s))
          as (s' & -> & Hm & Ho & Hf & Hst & Hlog & Hp).
        exists s'. split; [done|]. rewrite Hm, Ho, Hf, Hst, Hlog, Hp.
        cbn [handler on_handler meta page_method_objs].
        repeat split. unfold set_page. cbn [pages set_pages].
        rewrite alter_alter_same. apply alter_pointwise. intros p.
        apply add_listeners_cons.
      * unfold bind at 1, warning at 1, modify at 1.
        destruct (IH (on_handler (set_log (fun lg => lg ++ [warn_no_handler attr ev])) s))
          as (s' & -> & Hm & Ho & Hf & Hst & Hlog & Hp).
        exists s'. split; [done|]. rewrite Hm, Ho, Hf, Hst, Hlog, Hp.
        cbn [handler on_handler meta page_method_objs log set_log].
        rewrite <- app_assoc. done.
    + unfold bind at 1, ret at 1.
      destruct (IH s) as (s' & -> & Hm & Ho & Hf & Hst & Hlog & Hp).
      exists s'. done.
Qed.

(** X12: the loop over [playwright_page_event_handlers] never raises: a
    handler named by a string the spider does not have is logged and
    skipped, a handler of another kind is skipped silently, the others
    are registered on the page in the order of the dict; nothing else of
    the handler, of the request or of the page changes. *)
Theorem event_handlers_never_raise (spider : Spider) (page : nat)
    (l : list (string * EventHandler)) (s : Store) :
  exists s',
    attach_event_handlers spider page l s = (Ret tt, s')
    /\ pages (handler s')
       = alter (add_listeners (omap (resolved_handler spider) l)) page
           (pages (handler s))
    /\ log (handler s') = log (handler s) ++ omap (missing_handler spider) l
    /\ set_pages (fun _ => []) (frame (handler s'))
       = set_pages (fun _ => []) (frame (handler s))
    /\ stats (handler s') = stats (handler s)
    /\ meta s' = meta s
    /\ page_method_objs s' = page_method_objs s.
Proof.
  destruct (attach_event_handlers_spec spider page l s)
    as (s' & H & Hm & Ho & Hf & Hst & Hlog & Hp).
  exists s'. done.
Qed.

(** What follows the choice of the page in [prepare]. *)
Lemma prepare_after_page request spider page (m : M nat) s sa o s1 :
  m s = (Ret page, sa) ->
  bind m (fun page =>
    bind (bind (gets (fun s => playwright_page_event_handlers (meta s)))
               (fun event_handlers =>
                  attach_event_handlers spider page event_handlers))
      (fun _ =>
         bind (await (page_unroute eng))
           (fun _ =>
              bind (modify (on_handler
                              (set_page (set_routes (filter (fun r => r.1 ≠ "**")))
                                 page)))
                (fun _ =>
                   bind (await (page_route eng))
                     (fun _ =>
                        bind (modify
                                (on_handler
                                   (set_page
                                      (set_routes
                                         (fun l => l ++ [("**",
                                            {| rh_method := req_method request;
                                               rh_scrapy_headers := req_headers request;
                                               rh_body := Some (req_body request);
                                               rh_encoding := req_encoding request |})]))
                                      page)))
                          (fun _ => ret page)))))) s = (o, s1) ->
  exists sb,
    attach_event_handlers spider page
      (playwright_page_event_handlers (meta sa)) sa = (Ret tt, sb)
    /\ match page_unroute eng with
       | Some e => o = Raise e /\ s1 = sb
       | None =>
           match page_route eng with
           | Some e =>
               o = Raise e
               /\ s1 = on_handler
                         (set_page (set_routes (filter (fun r => r.1 ≠ "**")))
                            page) sb
           | None =>
               o = Ret page
               /\ s1 = on_handler
                         (set_page
                            (set_routes
                               (fun l => l ++ [("**",
                                  {| rh_method := req_method request;
                                     rh_scrapy_headers := req_headers request;
                                     rh_body := Some (req_body request);
                                     rh_encoding := req_encoding request |})]))
                            page)
                         (on_handler
                            (set_page (set_routes (filter (fun r => r.1 ≠ "**")))
                               page) sb)
           end
       end.
Proof.
  intros Hm H. rewrite (bind_ret _ _ _ _ _ Hm) in H.
  destruct (attach_event_handlers_spec spider page
              (playwright_page_event_handlers (meta sa)) sa) as (sb & Hb & _).
  exists sb. split; [exact Hb|].
  unfold bind at 1 2, gets at 1 in H. rewrite Hb in H.
  unfold bind, await, modify, ret, raise in H.
  destruct (page_unroute eng); [by simplify_eq|].
  destruct (page_route eng); by simplify_eq.
Qed.

(** X13: a fetch on a page handed in by the caller ([playwright_page]) opens
    no page, creates no session and takes no unit of a semaphore; it
    never waits, and fails only if [page.unroute] or [page.route]
    does. *)
Theorem reused_page_takes_no_unit (request : Request) (spider : Spider)
    (s : Store) (page : nat) (o : Outcome nat) (s1 : Store) :
  playwright_page (meta s) = Some page ->
  prepare eng request spider s = (o, s1) ->
  (o = Ret page
   \/ exists e, o = Raise e
                /\ (page_unroute eng = Some e
                    \/ (page_unroute eng = None /\ page_route eng = Some e)))
  /\ semaphores (handler s1) = semaphores (handler s)
  /\ contexts (handler s1) = contexts (handler s)
  /\ context_semaphores (handler s1) = context_semaphores (handler s)
  /\ browser_contexts (handler s1) = browser_contexts (handler s)
  /\ length (pages (handler s1)) = length (pages (handler s))
  /\ stats (handler s1) = stats (handler s)
  /\ meta s1 = meta s.
Proof.
  intros Hpage H. unfold prepare in H.
  assert (bind (gets (fun s => playwright_page (meta s)))
            (fun p => match p with
                      | Some page => ret page
                      | None => _create_page eng
                      end) s = (Ret page, s)) as Hfirst
    by (unfold bind, gets; by rewrite Hpage).
  destruct (prepare_after_page _ _ _ _ _ _ _ _ Hfirst H) as (sb & Hb & Hrest).
  destruct (attach_event_handlers_spec spider page
              (playwright_page_event_handlers (meta s)) s)
    as (sb' & Hb' & Hm & _ & Hf & Hst & _ & Hp).
  rewrite Hb in Hb'. injection Hb' as <-.
  assert (semaphores (handler sb) = semaphores (handler s)) as Hsem
    by exact (f_equal semaphores Hf).
  assert (contexts (handler sb) = contexts (handler s)) as Hc
    by exact (f_equal contexts Hf).
  assert (context_semaphores (handler sb) = context_semaphores (handler s)) as Hcs
    by exact (f_equal context_semaphores Hf).
  assert (browser_contexts (handler sb) = browser_contexts (handler s)) as Hbc
    by exact (f_equal browser_contexts Hf).
  assert (length (pages (handler sb)) = length (pages (handler s))) as Hlen
    by (rewrite Hp; apply length_alter).
  destruct (page_unroute eng) as [e|].
  { destruct Hrest as [-> ->]. split; [right; exists e; by split; [|left]|]. done. }
  destruct (page_route eng) as [e|]; destruct Hrest as [-> ->].
  - split; [right; exists e; split; [done|right; done]|].
    cbn [handler on_handler meta]. unfold set_page.
    cbn [semaphores contexts context_semaphores browser_contexts pages stats
         set_pages].
    rewrite length_alter. done.
  - split; [by left|].
    cbn [handler on_handler meta]. unfold set_page.
    cbn [semaphores contexts context_semaphores browser_contexts pages stats
         set_pages].
    rewrite !length_alter. done.
Qed.

(** X14: after [page.unroute] and [page.route] the page has exactly one
    request handler for the pattern "**", the last of its routes; it
    carries the method, the headers, the body and the encoding of this
    request.  A page made by this fetch is there. *)
Theorem one_request_handler_per_page (request : Request) (spider : Spider)
    (s : Store) (page : nat) (s1 : Store) :
  prepare eng request spider s = (Ret page, s1) ->
  (playwright_page (meta s) = None -> is_Some (pages (handler s1) !! page))
  /\ forall p, pages (handler s1) !! page = Some p ->
       exists routes,
         page_routes p
         = routes ++ [("**"%string,
                       {| rh_method := req_method request;
                          rh_scrapy_headers := req_headers request;
                          rh_body := Some (req_body request);
                          rh_encoding := req_encoding request |})]
         /\ Forall (fun r => r.1 <> "**"%string) routes.
Proof.
  intros H. pose proof H as H0. unfold prepare in H.
  destruct (bind_inv _ _ _ _ _ H) as [(pg & sa & Ha & _)|[(e & _ & ?)|[_ ?]]];
    [|discriminate..].
  destruct (prepare_after_page _ _ _ _ _ _ _ _ Ha H) as (sb & Hb & Hrest).
  destruct (page_unroute eng); [by destruct Hrest|].
  destruct (page_route eng); [by destruct Hrest|].
  destruct Hrest as [[= <-] ->].
  destruct (attach_event_handlers_spec spider page
              (playwright_page_event_handlers (meta sa)) sa)
    as (sb' & Hb' & _ & _ & _ & _ & _ & Hp).
  rewrite Hb in Hb'. injection Hb' as <-.
  cbn [handler on_handler]. rewrite !lookup_set_page, Hp, list_lookup_alter_eq.
  split.
  - intros Hnone. unfold bind at 1, gets at 1 in Ha. rewrite Hnone in Ha.
    destruct (create_page_effect _ _ _ _ Ha) as (sem & _ & (p & -> & _) & _).
    cbn. by eexists.
  - intros p Hlook.
    destruct (pages (handler sa) !! page) as [p0|]; [|done].
    cbn in Hlook. injection Hlook as <-. cbn [page_routes set_routes add_listeners].
    eexists. split; [reflexivity|].
    apply Forall_forall. intros r Hr.
    by apply list_elem_of_filter in Hr as [? _].
Qed.

(** X15: an exception that is not an [Exception] (a [BaseException] such as
    [CancelledError]) goes through the [except Exception] clause of
    [_download_request]: the handler does not close the page and does
    not count it as closed. *)
Theorem base_exception_skips_cleanup (request : Request) (spider : Spider)
    (s : Store) (page : nat) (s1 : Store) (e : exn) (s2 : Store) :
  prepare eng request spider s = (Ret page, s1) ->
  _download_request_with_page libs eng request page s1 = (Raise e, s2) ->
  is_Exception e = false ->
  _download_request libs eng request spider s = (Raise e, s2).
Proof.
  intros Hp Hd He. unfold _download_request.
  rewrite (bind_ret _ _ _ _ _ Hp). unfold try_except. by rewrite Hd, He.
Qed.

(** X16: a fetch for a session whose semaphore has no unit left waits: it
    opens no page and changes nothing but the session name it records
    in the request. *)
Theorem fetch_waits_for_a_unit (request : Request) (spider : Spider)
    (s : Store) (context sem : nat) :
  playwright_page (meta s) = None ->
  contexts (handler s) !! default "default"%string (playwright_context (meta s))
  = Some context ->
  context_semaphores (handler s)
    !! default "default"%string (playwright_context (meta s)) = Some sem ->
  sem_value sem (handler s) <= 0 ->
  _download_request libs eng request spider s
  = (Blocked,
     on_meta (set_playwright_context
                (Some (default "default"%string (playwright_context (meta s))))) s).
Proof.
  intros Hnone Hc Hs Hv. unfold _download_request, prepare.
  unfold bind at 1 2 3, gets at 1. rewrite Hnone.
  unfold _create_page. cbn [handler on_meta]. unfold begin. rewrite Hc.
  unfold acquire. rewrite Hs.
  assert (locked sem (handler s) = true) as Hl
    by (unfold locked; by apply bool_decide_eq_true).
  rewrite Hl. cbn [drive resume]. rewrite Hl.
  destruct s as [h m objs]. reflexivity.
Qed.

(** *** The response *)

Lemma respcls_inv response body_str ip s resp s' :
  respcls libs eng response body_str ip s = (Ret resp, s') ->
  exists r,
    response = Some r
    /\ resp_url resp = page_url eng
    /\ resp_status resp = r_status r
    /\ resp_headers resp
       = delete (normkey libs "Content-Encoding")
           (Headers.make (normkey libs) (r_headers r))
    /\ str_encode libs body_str (resp_encoding resp) = inr (resp_body resp)
    /\ resp_flags resp = ["playwright"%string]
    /\ resp_ip_address resp = ip
    /\ resp_class resp
       = from_args libs (resp_headers resp) (page_url eng) (resp_body resp).
Proof.
  unfold respcls. destruct response as [r|]; [|discriminate].
  destruct (_encode_body _ _ _ _ _ _) as [e|[body encoding]] eqn:Henc;
    [discriminate|].
  destruct (encode_body_inr _ _ _ _ _ _ _ _ Henc) as [_ Hbody].
  unfold ret. intros [= <- <-]. exists r. cbn. done.
Qed.

Lemma security_latency response s o s' :
  security response s = (o, s') ->
  download_latency (meta s') = download_latency (meta s).
Proof.
  unfold security, suppress, try_except.
  destruct response as [r|].
  - unfold bind, await_value, modify, raise, ret.
    destruct (r_security_details r) as [e|v].
    + destruct (isinstance _ e); by intros [= <- <-].
    + by intros [= <- <-].
  - unfold raise, ret. cbn. by intros [= <- <-].
Qed.

Lemma keep_or_close_latency page s o s' :
  keep_or_close eng page s = (o, s') ->
  download_latency (meta s') = download_latency (meta s).
Proof.
  intros H. pose proof (keep_or_close_cases _ _ _ _ _ H) as Hc.
  destruct (playwright_include_page (meta s)).
  - by destruct Hc as [_ ->].
  - destruct (page_close eng); by destruct Hc as [_ ->].
Qed.

Lemma assemble_ret_inv page response t s resp s' :
  assemble libs eng page response t s = (Ret resp, s') ->
  exists r body_str ip s0,
    response = Some r
    /\ page_content eng = inr body_str
    /\ server_ip libs response s0 = (Ret ip, s0)
    /\ download_latency (meta s') = Some ((time eng).2 - t)
    /\ resp_url resp = page_url eng
    /\ resp_status resp = r_status r
    /\ resp_headers resp
       = delete (normkey libs "Content-Encoding")
           (Headers.make (normkey libs) (r_headers r))
    /\ str_encode libs body_str (resp_encoding resp) = inr (resp_body resp)
    /\ resp_flags resp = ["playwright"%string]
    /\ resp_ip_address resp = ip.
Proof.
  intros H. unfold assemble in H.
  destruct (bind_inv _ _ _ _ _ H) as [(body_str & s1 & H1 & H2)|[(e & _ & ?)|[_ ?]]];
    [|discriminate..]. clear H.
  unfold await_value in H1. destruct (page_content eng) as [e|b] eqn:Hcontent;
    [discriminate|]. unfold ret in H1. injection H1 as -> ->.
  unfold bind at 1, modify at 1 in H2.
  destruct (bind_inv _ _ _ _ _ H2) as [([] & s2 & Hk & H3)|[(e & _ & ?)|[_ ?]]];
    [|discriminate..]. clear H2.
  pose proof (keep_or_close_latency _ _ _ _ Hk) as Hlat. cbn in Hlat.
  destruct (bind_inv _ _ _ _ _ H3) as [(ip & s3 & Hip & H4)|[(e & _ & ?)|[_ ?]]];
    [|discriminate..]. clear H3.
  pose proof (server_ip_state _ _ _ _ _ Hip) as ->.
  destruct (bind_inv _ _ _ _ _ H4) as [([] & s4 & Hsec & H5)|[(e & _ & ?)|[_ ?]]];
    [|discriminate..]. clear H4.
  pose proof (security_latency _ _ _ _ Hsec) as Hlat2.
  pose proof (respcls_state _ _ _ _ _ _ _ _ H5) as ->.
  destruct (respcls_inv _ _ _ _ _ _ H5)
    as (r & -> & Hu & Hst & Hh & Hb & Hf & Hi & _).
  exists r, body_str, ip, s2. rewrite Hlat2, Hlat. done.
Qed.

(** X17: a response returned by [_download_request_with_page] is the rendered
    page: its body is the content of the page encoded with the encoding
    of the response, its headers are those of the navigation response
    without Content-Encoding, its status is that of the navigation
    response, its url is the url of the page, and the request carries the
    time between the start of the navigation and the reading of the
    content. *)
Theorem response_is_the_rendered_page (request : Request) (page : nat)
    (s : Store) (resp : Response) (s' : Store) :
  _download_request_with_page libs eng request page s = (Ret resp, s') ->
  exists r body_str,
    page_goto eng (req_url request) = inr (Some r)
    /\ page_content eng = inr body_str
    /\ str_encode libs body_str (resp_encoding resp) = inr (resp_body resp)
    /\ resp_headers resp
       = delete (normkey libs "Content-Encoding")
           (Headers.make (normkey libs) (r_headers r))
    /\ Headers.get (normkey libs) (resp_headers resp) "Content-Encoding" = None
    /\ resp_status resp = r_status r
    /\ resp_url resp = page_url eng
    /\ resp_flags resp = ["playwright"%string]
    /\ download_latency (meta s') = Some ((time eng).2 - (time eng).1).
Proof.
  intros H. unfold _download_request_with_page in H.
  destruct (bind_inv _ _ _ _ _ H) as [(response & s1 & H1 & H2)|[(e & _ & ?)|[_ ?]]];
    [|discriminate..]. clear H.
  unfold await_value in H1.
  destruct (page_goto eng (req_url request)) as [e|response'] eqn:Hgoto;
    [discriminate|]. unfold ret in H1. injection H1 as -> ->.
  destruct (bind_inv _ _ _ _ _ H2) as [([] & s2 & _ & H3)|[(e & _ & ?)|[_ ?]]];
    [|discriminate..]. clear H2.
  destruct (assemble_ret_inv _ _ _ _ _ _ H3)
    as (r & body_str & ip & s0 & -> & Hc & _ & Hlat & Hu & Hst & Hh & Hb & Hf & _).
  exists r, body_str. split; [done|]. split; [done|]. split; [done|].
  split; [done|]. split; [|done].
  unfold Headers.get. rewrite Hh, lookup_delete_eq. done.
Qed.

(** *** Only [_create_page] waits *)

Local Abbreviation unblocked m := (forall s s', m s <> (Blocked, s')).

Lemma bind_unblocked {A B} (m : M A) (k : A -> M B) :
  unblocked m -> (forall a, unblocked (k a)) -> unblocked (bind m k).
Proof.
  intros Hm Hk s s' H.
  destruct (bind_inv _ _ _ _ _ H) as [(a & s1 & _ & H2)|[(e & _ & ?)|[H1 _]]];
    [by eapply Hk|done|by eapply Hm].
Qed.

Lemma try_except_unblocked {A} (m : M A) catches (h : exn -> M A) :
  unblocked m -> (forall e, unblocked (h e)) -> unblocked (try_except m catches h).
Proof.
  intros Hm Hh s s'. unfold try_except.
  destruct (m s) as [[a|e|] s1] eqn:H; [done| |by edestruct Hm].
  destruct (catches e); [apply Hh|done].
Qed.

Lemma await_unblocked r : unblocked (await r).
Proof. intros s s'. unfold await, raise, ret. by destruct r. Qed.

Lemma await_value_unblocked {A} (r : exn + A) : unblocked (await_value r).
Proof. intros s s'. unfold await_value, raise, ret. by destruct r. Qed.

Lemma run_page_method_unblocked page i item : unblocked (run_page_method eng page i item).
Proof.
  destruct item as [l|r]; cbn [run_page_method]; [|done].
  apply bind_unblocked; [done|]. intros pm.
  destruct (page_getattr eng (method pm)); [|done].
  apply bind_unblocked; [apply await_value_unblocked|]. intros v.
  apply bind_unblocked; [done|]. intros _.
  apply bind_unblocked; [done|]. intros t. apply await_unblocked.
Qed.

Lemma run_page_methods_unblocked page items i :
  unblocked (run_page_methods eng page i items).
Proof.
  revert i. induction items as [|item items IH]; intros i; cbn; [done|].
  apply bind_unblocked; [apply run_page_method_unblocked|]. intros _. apply IH.
Qed.

Lemma apply_page_methods_unblocked page : unblocked (_apply_page_methods eng page).
Proof.
  unfold _apply_page_methods. apply bind_unblocked; [done|]. intros m.
  apply bind_unblocked.
  - destruct (pm_truthy _); [done|].
    destruct (playwright_page_coroutines m); [|done].
    apply bind_unblocked; done.
  - intros pms. apply run_page_methods_unblocked.
Qed.

Lemma assemble_unblocked page response t : unblocked (assemble libs eng page response t).
Proof.
  unfold assemble. apply bind_unblocked; [apply await_value_unblocked|].
  intros body_str. apply bind_unblocked; [done|]. intros _.
  apply bind_unblocked.
  { unfold keep_or_close. apply bind_unblocked; [done|]. intros [|]; [done|].
    apply bind_unblocked; [|done]. unfold close_page.
    apply bind_unblocked; [apply await_unblocked|done]. }
  intros _. apply bind_unblocked.
  { unfold server_ip. apply try_except_unblocked; [|done].
    apply bind_unblocked.
    - destruct response; [apply await_value_unblocked|done].
    - intros [d|]; [|done]. destruct (dict_get _ d); [|done].
      by destruct (ip_address libs _). }
  intros ip. apply bind_unblocked.
  { unfold security, suppress. apply try_except_unblocked; [|done].
    destruct response; [|done].
    apply bind_unblocked; [apply await_value_unblocked|done]. }
  intros _. unfold respcls. destruct response; [|done].
  by destruct (_encode_body _ _ _ _ _ _) as [?|[? ?]].
Qed.

Lemma download_with_page_unblocked request page :
  unblocked (_download_request_with_page libs eng request page).
Proof.
  unfold _download_request_with_page.
  apply bind_unblocked; [apply await_value_unblocked|]. intros response.
  apply bind_unblocked; [apply apply_page_methods_unblocked|]. intros _.
  apply assemble_unblocked.
Qed.

(** X18: when [page.goto] answers [None] (a navigation that yields no
    response), the fetch cannot return a response: it ends with an
    exception. *)
Theorem navigation_without_response_fails (request : Request) (page : nat)
    (s : Store) (o : Outcome Response) (s' : Store) :
  page_goto eng (req_url request) = inr None ->
  _download_request_with_page libs eng request page s = (o, s') ->
  exists e, o = Raise e.
Proof.
  intros Hgoto H. destruct o as [resp|e|].
  - unfold _download_request_with_page in H.
    destruct (bind_inv _ _ _ _ _ H)
      as [(response & s1 & H1 & H2)|[(e & _ & ?)|[_ ?]]]; [|discriminate..].
    unfold await_value in H1. rewrite Hgoto in H1. unfold ret in H1.
    injection H1 as <- <-.
    destruct (bind_inv _ _ _ _ _ H2) as [([] & s2 & _ & H3)|[(e & _ & ?)|[_ ?]]];
      [|discriminate..].
    destruct (assemble_ret_inv _ _ _ _ _ _ H3) as (r & _ & _ & _ & Hr & _).
    discriminate.
  - by exists e.
  - by apply download_with_page_unblocked in H.
Qed.

(** *** The address of the server *)

(** X19: lines 248 to 251 of [_download_request_with_page] leave the state as
    it is.  They give an address only when [server_addr()] answers a
    dict whose "ipAddress" the library accepts; they give [None] when
    there is no response, when [server_addr()] raises AttributeError,
    KeyError or ValueError, when the key is missing or the address is
    refused.  Every other exception of [server_addr()] goes on, and so
    does the TypeError of subscripting the [None] that [server_addr()]
    may answer. *)
Theorem server_address_errors (response : option PlaywrightResponse) (s : Store) :
  exists o,
    server_ip libs response s = (o, s)
    /\ match o with
       | Ret (Some ip) =>
           exists r d a,
             response = Some r /\ r_server_addr r = inr (Some d)
             /\ dict_get "ipAddress" d = Some a /\ ip_address libs a = Some ip
       | Ret None =>
           response = None
           \/ exists r,
                response = Some r
                /\ ((exists e, r_server_addr r = inl e
                               /\ isinstance ["AttributeError"; "KeyError";
                                              "ValueError"]%string e = true)
                    \/ exists d,
                         r_server_addr r = inr (Some d)
                         /\ (dict_get "ipAddress" d = None
                             \/ exists a, dict_get "ipAddress" d = Some a
                                          /\ ip_address libs a = None))
       | Raise e =>
           exists r,
             response = Some r
             /\ ((r_server_addr r = inl e
                  /\ isinstance ["AttributeError"; "KeyError";
                                 "ValueError"]%string e = false)
                 \/ (r_server_addr r = inr None
                     /\ e = Exc "TypeError" "not subscriptable"))
       | Blocked => False
       end.
Proof.
  unfold server_ip, try_except, bind, await_value, raise, ret.
  destruct response as [r|].
  - destruct (r_server_addr r) as [e|[d|]] eqn:Haddr.
    + destruct (isinstance _ e) eqn:Hi.
      * eexists. split; [reflexivity|]. right. exists r. split; [done|].
        left. by exists e.
      * eexists. split; [reflexivity|]. exists r. split; [done|]. by left.
    + destruct (dict_get "ipAddress" d) as [a|] eqn:Hd.
      * destruct (ip_address libs a) as [ip|] eqn:Hip.
        -- eexists. split; [reflexivity|]. by exists r, d, a.
        -- eexists. split; [reflexivity|]. right. exists r. split; [done|].
           right. exists d. split; [done|]. right. by exists a.
      * eexists. split; [reflexivity|]. right. exists r. split; [done|].
        right. exists d. split; [done|]. by left.
    + eexists. split; [reflexivity|]. exists r. split; [done|]. by right.
  - eexists. split; [reflexivity|]. by left.
Qed.

(** *** Scripted actions *)

(** X21: an action that raises ends the sequence: the actions after it do
    not run, and the state is the one the failing action left. *)
Theorem failed_action_ends_the_sequence (page : nat) (before : list Item)
    (item : Item) (after : list Item) (i : nat) (s s1 s2 : Store) (e : exn) :
  run_page_methods eng page i before s = (Ret tt, s1) ->
  run_page_method eng page (i + length before) item s1 = (Raise e, s2) ->
  run_page_methods eng page i (before ++ item :: after) s = (Raise e, s2).
Proof.
  revert i s. induction before as [|b before IH]; intros i s Hb Hi.
  - cbn in *. injection Hb as <-. rewrite Nat.add_0_r in Hi.
    by rewrite (bind_raise _ _ _ _ _ Hi).
  - cbn [app run_page_methods length] in *.
    destruct (bind_inv _ _ _ _ _ Hb) as [([] & s0 & H0 & H1)|[(? & _ & ?)|[_ ?]]];
      [|discriminate..].
    rewrite (bind_ret _ _ _ _ _ H0). apply IH; [done|].
    by replace (S i + length before)%nat with (i + S (length before))%nat by lia.
Qed.

End MoreFetch.

(** ** More evaluations on the sample browser *)
Section MoreEvaluations.
Import Handler Fetch.

Lemma undecodable_body_is_not_sent_witness :
  exists st',
    Interceptor._request_handler Sample.normkey Sample.bytes_decode
      Sample.settings "POST" 0%nat (Some [xff]) "utf-8" Sample.navigation
      Sample.intercepting = (inl UnicodeDecodeError, st')
    /\ Interceptor.route_calls st' = [].
Proof.
  destruct (undecodable_body_is_not_sent Sample.normkey Sample.bytes_decode
              Sample.settings "POST" 0%nat [xff] "utf-8" Sample.navigation
              Sample.intercepting)
    as (st' & H & Hr & _); [vm_compute; reflexivity..|].
  exists st'. split; [exact H|exact Hr].
Defined.

Lemma one_route_call_per_request_witness :
  exists call,
    Interceptor.route_calls
      (Interceptor._request_handler Sample.normkey Sample.bytes_decode
         Sample.settings "GET" 0%nat None "utf-8" Sample.image
         Sample.intercepting).2
    = Interceptor.route_calls Sample.intercepting ++ [call]
    /\ (call = Interceptor.abort
        <-> Interceptor.aborts Sample.settings Sample.image = true).
Proof.
  apply (one_route_call_per_request Sample.normkey Sample.bytes_decode
           Sample.settings "GET" 0%nat None "utf-8" Sample.image
           Sample.intercepting).
  vm_compute. reflexivity.
Defined.


Lemma reused_page_takes_no_unit_witness :
  exists s1,
    prepare Sample.engine Sample.request Sample.spider
      (Scenarios.after_kept_fetch 1 Scenarios.reusing) = (Ret 0%nat, s1)
    /\ semaphores (handler s1) = [0]
    /\ length (pages (handler s1)) = 1%nat.
Proof.
  destruct (prepare Sample.engine Sample.request Sample.spider
              (Scenarios.after_kept_fetch 1 Scenarios.reusing))
    as [o s1] eqn:H.
  destruct (reused_page_takes_no_unit Sample.engine Sample.request
              Sample.spider (Scenarios.after_kept_fetch 1 Scenarios.reusing)
              0%nat o s1 eq_refl H)
    as (Ho & Hs & _ & _ & _ & Hl & _).
  exists s1. split; [|split; [exact Hs|exact Hl]].
  destruct Ho as [->|(e & _ & [He|[_ He]])]; [reflexivity|discriminate He..].
Defined.

Lemma one_request_handler_per_page_witness :
  is_Some (pages (handler (prepare Sample.engine Sample.request Sample.spider
                             (Sample.store false)).2) !! 0%nat).
Proof.
  refine (proj1 (one_request_handler_per_page Sample.engine Sample.request
                   Sample.spider (Sample.store false) 0%nat
                   (prepare Sample.engine Sample.request Sample.spider
                      (Sample.store false)).2 _) _);
    [vm_compute; reflexivity|reflexivity].
Defined.

Lemma base_exception_skips_cleanup_witness :
  _download_request Sample.libs Scenarios.engine_cancelled Sample.request
    Sample.spider (Sample.store false)
  = (Raise (BaseExc "CancelledError"),
     (prepare Scenarios.engine_cancelled Sample.request Sample.spider
        (Sample.store false)).2).
Proof.
  apply (base_exception_skips_cleanup Sample.libs Scenarios.engine_cancelled
           Sample.request Sample.spider (Sample.store false) 0%nat
           (prepare Scenarios.engine_cancelled Sample.request Sample.spider
              (Sample.store false)).2);
    [vm_compute; reflexivity|vm_compute; reflexivity|reflexivity].
Defined.

Lemma fetch_waits_for_a_unit_witness :
  _download_request Sample.libs Sample.engine Sample.request Sample.spider
    (Scenarios.after_kept_fetch 1 (meta (Sample.store false)))
  = (Blocked,
     on_meta (set_playwright_context (Some "default"%string))
       (Scenarios.after_kept_fetch 1 (meta (Sample.store false)))).
Proof.
  apply (fetch_waits_for_a_unit Sample.libs Sample.engine Sample.request
           Sample.spider
           (Scenarios.after_kept_fetch 1 (meta (Sample.store false)))
           0%nat 0%nat);
    [reflexivity|vm_compute; reflexivity|vm_compute; reflexivity
    |vm_compute; discriminate].
Defined.

Lemma response_is_the_rendered_page_witness :
  exists resp s',
    _download_request_with_page Sample.libs Sample.engine Sample.request 0
      (prepare Sample.engine Sample.request Sample.spider (Sample.store false)).2
    = (Ret resp, s')
    /\ Headers.get Sample.normkey (resp_headers resp) "Content-Encoding" = None
    /\ resp_flags resp = ["playwright"%string]
    /\ download_latency (meta s') = Some 5.
Proof.
  destruct (_download_request_with_page Sample.libs Sample.engine
              Sample.request 0
              (prepare Sample.engine Sample.request Sample.spider
                 (Sample.store false)).2)
    as [[resp|e|] s'] eqn:H; [|vm_compute in H; discriminate..].
  destruct (response_is_the_rendered_page Sample.libs Sample.engine
              Sample.request 0%nat _ resp s' H)
    as (r & body_str & _ & _ & _ & _ & Hce & _ & _ & Hf & Hl).
  exists resp, s'. split; [reflexivity|]. split; [exact Hce|].
  split; [exact Hf|exact Hl].
Defined.

Lemma navigation_without_response_fails_witness :
  exists e,
    (_download_request_with_page Sample.libs Scenarios.engine_no_response
       Sample.request 0
       (prepare Scenarios.engine_no_response Sample.request Sample.spider
          (Sample.store false)).2).1 = Raise e.
Proof.
  apply (navigation_without_response_fails Sample.libs
           Scenarios.engine_no_response Sample.request 0%nat
           (prepare Scenarios.engine_no_response Sample.request Sample.spider
              (Sample.store false)).2 _
           (_download_request_with_page Sample.libs Scenarios.engine_no_response
              Sample.request 0
              (prepare Scenarios.engine_no_response Sample.request Sample.spider
                 (Sample.store false)).2).2);
    [reflexivity|apply surjective_pairing].
Defined.

Lemma failed_action_ends_the_sequence_witness :
  (run_page_methods Scenarios.engine_action_fails 0 0
     ([page_method 0] ++ page_method 1 :: [page_method 0])
     (Sample.store false)).1
  = Raise (Exc "Error" "Execution context was destroyed").
Proof.
  rewrite (failed_action_ends_the_sequence Scenarios.engine_action_fails 0
             [page_method 0] (page_method 1) [page_method 0] 0
             (Sample.store false)
             (run_page_methods Scenarios.engine_action_fails 0 0
                [page_method 0] (Sample.store false)).2
             (run_page_method Scenarios.engine_action_fails 0 1
                (page_method 1)
                (run_page_methods Scenarios.engine_action_fails 0 0
                   [page_method 0] (Sample.store false)).2).2
             (Exc "Error" "Execution context was destroyed"));
    [reflexivity|vm_compute; reflexivity|vm_compute; reflexivity].
Defined.

End MoreEvaluations.
